(** * Orchestrate: the Canvas-to-PostgreSQL synchronisation pipeline

    A shallow embedding of [src/storage.py], [src/agents/canvas_agent.py],
    [src/utils/config.py] and [src/sync_canvas.py], and the properties of
    the specification proved (or refuted) on it.

    Conventions of the embedding.
    - A Python [str] is a [string] whose characters are the code points
      0..255; [repr], [str.encode] and string comparison are exact on that
      range.  A [bytes] object is a [string] too, one character per byte.
    - JSON data ([Any] in the source) is the type [value]; a [dict] keeps
      its insertion order, as in Python, and is an association list with
      distinct keys.
    - Code that touches the network, the database, the console or the
      logger is written in the monad [M], a state monad over [state]
      with Python exceptions; the outside world (the Canvas server, the
      PostgreSQL server, the clock, the configuration) is a record [env]
      of oracles. *)

From Stdlib Require Import ZArith Lia Ascii String DecimalString DecimalZ.
From stdpp Require Import base tactics option list sorting strings gmap.


(** * Python values *)

Module Py.

(** ** Characters and text *)

Definition code (c : ascii) : N := N_of_ascii c.
Definition chr (n : N) : ascii := ascii_of_N n.

(** [Py_hexdigits]: lower-case hexadecimal digits. *)
Definition hexdigit (n : N) : ascii :=
  if (n <? 10)%N then chr (48 + n) else chr (87 + n).

Definition hex2 (n : N) : string :=
  String (hexdigit (n / 16)) (String (hexdigit (n mod 16)) "").

Fixpoint contains_char (c : ascii) (s : string) : bool :=
  match s with
  | "" => false
  | String a s' => if decide (a = c) then true else contains_char c s'
  end.

(** [Py_UNICODE_ISPRINTABLE] restricted to the code points 0..255: the
    controls 0..31 and 127..159, the no-break space 160 and the soft
    hyphen 173 are not printable. *)
Definition isprintable (c : ascii) : bool :=
  let n := code c in
  negb ((n <? 32)%N || ((127 <=? n)%N && (n <=? 160)%N) || (n =? 173)%N).

(** One character of [repr] of a [str], for the chosen quote. *)
Definition repr_char (quote c : ascii) : string :=
  let n := code c in
  if decide (c = quote) then String "\" (String c "")
  else if decide (c = "\"%char) then "\\"
  else if (n =? 9)%N then "\t"
  else if (n =? 10)%N then "\n"
  else if (n =? 13)%N then "\r"
  else if (n <? 32)%N || (n =? 127)%N then "\x" +:+ hex2 n
  else if (n <? 127)%N then String c ""
  else if isprintable c then String c ""
  else "\x" +:+ hex2 n.

Fixpoint repr_chars (quote : ascii) (s : string) : string :=
  match s with
  | "" => ""
  | String c s' => repr_char quote c +:+ repr_chars quote s'
  end.

(** The quote of [repr]: a single quote, unless the text has a single
    quote and no double quote. *)
Definition double_quote : ascii := chr 34.

Definition repr_quote (s : string) : ascii :=
  if contains_char "'" s && negb (contains_char double_quote s)
  then double_quote else "'"%char.

Definition repr_str (s : string) : string :=
  let q := repr_quote s in
  String q (repr_chars q s +:+ String q "").

(** [repr] of an [int]: decimal digits, with a minus sign when negative. *)
Definition repr_int (n : Z) : string := NilZero.string_of_int (Z.to_int n).

(** [sep.join(parts)] *)
Fixpoint join (sep : string) (parts : list string) : string :=
  match parts with
  | [] => ""
  | [p] => p
  | p :: ps => p +:+ sep +:+ join sep ps
  end.

(** [needle in hay] on text. *)
Fixpoint startswith (prefix s : string) : bool :=
  match prefix, s with
  | "", _ => true
  | String a p', String b s' => if decide (a = b) then startswith p' s' else false
  | _, "" => false
  end.

Fixpoint str_contains (needle hay : string) : bool :=
  startswith needle hay ||
  match hay with
  | "" => false
  | String _ hay' => str_contains needle hay'
  end.

(** [s.rstrip(chars)] for a single character. *)
Fixpoint rstrip (c : ascii) (s : string) : string :=
  match s with
  | "" => ""
  | String a s' =>
      match rstrip c s' with
      | "" => if decide (a = c) then "" else String a ""
      | r => String a r
      end
  end.

(** ** JSON data *)

(** A float is carried as the text [repr] gives for it: the source only
    ever prints floats or hands them to the database. *)
#[warnings="-register-all"]
Inductive value : Type :=
| VNone
| VBool (b : bool)
| VInt (n : Z)
| VFloat (text : string)
| VStr (s : string)
| VList (items : list value)
| VDict (entries : list (string * value)).

Abbreviation dict := (list (string * value)).

Fixpoint repr (v : value) : string :=
  match v with
  | VNone => "None"
  | VBool true => "True"
  | VBool false => "False"
  | VInt n => repr_int n
  | VFloat t => t
  | VStr s => repr_str s
  | VList l => "[" +:+ join ", " (map repr l) +:+ "]"
  | VDict d =>
      "{" +:+ join ", " (map (λ kv, repr_str kv.1 +:+ ": " +:+ repr kv.2) d) +:+ "}"
  end.

(** [str(v)] *)
Definition str (v : value) : string :=
  match v with
  | VStr s => s
  | _ => repr v
  end.

(** [repr] of a 2-tuple [(key, v)] and of a list of them, as printed for
    [sorted(d.items())]. *)
Definition repr_item (kv : string * value) : string :=
  "(" +:+ repr_str kv.1 +:+ ", " +:+ repr kv.2 +:+ ")".

Definition repr_items (l : dict) : string :=
  "[" +:+ join ", " (map repr_item l) +:+ "]".

(** Truth value of [if v:] *)
Definition truthy (v : value) : bool :=
  match v with
  | VNone => false
  | VBool b => b
  | VInt n => negb (n =? 0)%Z
  | VFloat t => negb (bool_decide (t = "0.0") || bool_decide (t = "-0.0"))
  | VStr s => negb (bool_decide (s = ""))
  | VList l => negb (bool_decide (l = []))
  | VDict d => negb (bool_decide (d = []))
  end.

(** ** Dictionaries *)

(** [d.get(k)]: [None] of the option is the missing key. *)
Fixpoint lookup_key (k : string) (d : dict) : option value :=
  match d with
  | [] => None
  | (k', v) :: d' => if decide (k' = k) then Some v else lookup_key k d'
  end.

(** [d.get(k, default)] *)
Definition get (d : dict) (k : string) (default : value) : value :=
  from_option id default (lookup_key k d).

(** [d[k] = v]: an existing key keeps its place, a new one goes last. *)
Fixpoint set (k : string) (v : value) (d : dict) : dict :=
  match d with
  | [] => [(k, v)]
  | (k', v') :: d' => if decide (k' = k) then (k, v) :: d' else (k', v') :: set k v d'
  end.

(** [d.update(other)] *)
Definition update (d other : dict) : dict :=
  fold_left (λ acc kv, set kv.1 kv.2 acc) other d.

Definition keys (d : dict) : list string := d.*1.

(** *** Induction and equality on nested values *)

Definition value_rect' (P : value → Type) (Q : list value → Type) (R : dict → Type) :
  P VNone → (∀ b, P (VBool b)) → (∀ n, P (VInt n)) → (∀ t, P (VFloat t)) →
  (∀ s, P (VStr s)) →
  (∀ l, Q l → P (VList l)) → (∀ d, R d → P (VDict d)) →
  Q [] → (∀ v l, P v → Q l → Q (v :: l)) →
  R [] → (∀ k v d, P v → R d → R ((k, v) :: d)) →
  ∀ v, P v.
Proof.
  intros HN HB HI HF HS HL HD HQ0 HQ1 HR0 HR1.
  fix IH 1. intros [ | b | n | t | s | l | d ].
  - exact HN.
  - apply HB.
  - apply HI.
  - apply HF.
  - apply HS.
  - apply HL. induction l as [|v l IHl]; [exact HQ0|]. apply HQ1; [apply IH|exact IHl].
  - apply HD. induction d as [|[k v] d IHd]; [exact HR0|]. apply HR1; [apply IH|exact IHd].
Defined.

#[export] Instance value_eq_dec : EqDecision value.
Proof.
  refine (value_rect' (λ v, ∀ w, Decision (v = w))
            (λ l, ∀ l', Decision (l = l'))
            (λ d, ∀ d', Decision (d = d')) _ _ _ _ _ _ _ _ _ _ _);
    unfold Decision.
  - intros []; (by left) || (by right).
  - intros b [ | b' | | | | | ]; try (by right).
    destruct (decide (b = b')); [left|right]; congruence.
  - intros n [ | | n' | | | | ]; try (by right).
    destruct (decide (n = n')); [left|right]; congruence.
  - intros t [ | | | t' | | | ]; try (by right).
    destruct (decide (t = t')); [left|right]; congruence.
  - intros s [ | | | | s' | | ]; try (by right).
    destruct (decide (s = s')); [left|right]; congruence.
  - intros l IH [ | | | | | l' | ]; try (by right).
    destruct (IH l'); [left|right]; congruence.
  - intros d IH [ | | | | | | d' ]; try (by right).
    destruct (IH d'); [left|right]; congruence.
  - intros []; (by left) || (by right).
  - intros v l IHv IHl [|v' l']; [by right|].
    destruct (IHv v'); [|right; congruence].
    destruct (IHl l'); [left|right]; congruence.
  - intros []; (by left) || (by right).
  - intros k v d IHv IHd [|[k' v'] d']; [by right|].
    destruct (decide (k = k')); [|right; congruence].
    destruct (IHv v'); [|right; congruence].
    destruct (IHd d'); [left|right]; congruence.
Defined.

(** ** Exceptions and dynamically typed operations *)

(** The exception classes the program can meet; all derive from
    [Exception].  [DatabaseError] stands for [psycopg2.Error]. *)
Inductive exn : Type :=
| CanvasAPIError (msg : string)
| KeyError (key : string)
| IndexError (msg : string)
| TypeError (msg : string)
| AttributeError (msg : string)
| ValueError (msg : string)
| DatabaseError (msg : string).

(** [str(e)] *)
Definition exn_str (e : exn) : string :=
  match e with
  | KeyError k => repr_str k
  | CanvasAPIError m | IndexError m | TypeError m | AttributeError m
  | ValueError m | DatabaseError m => m
  end.

Inductive result (A : Type) : Type :=
| Ok (a : A)
| Raise (e : exn).
Arguments Ok {A} a.
Arguments Raise {A} e.

Definition type_name (v : value) : string :=
  match v with
  | VNone => "NoneType"
  | VBool _ => "bool"
  | VInt _ => "int"
  | VFloat _ => "float"
  | VStr _ => "str"
  | VList _ => "list"
  | VDict _ => "dict"
  end.

Definition no_attribute (v : value) (name : string) : exn :=
  AttributeError ("'" +:+ type_name v +:+ "' object has no attribute '" +:+ name +:+ "'").

(** [v[k]] for a text key [k] *)
Definition getitem (v : value) (k : string) : result value :=
  match v with
  | VDict d => from_option Ok (Raise (KeyError k)) (lookup_key k d)
  | VList _ => Raise (TypeError "list indices must be integers or slices, not str")
  | VStr _ => Raise (TypeError "string indices must be integers, not 'str'")
  | _ => Raise (TypeError ("'" +:+ type_name v +:+ "' object is not subscriptable"))
  end.

(** [v[0]] *)
Definition getitem0 (v : value) : result value :=
  match v with
  | VList (x :: _) => Ok x
  | VList [] => Raise (IndexError "list index out of range")
  | VStr (String c _) => Ok (VStr (String c ""))
  | VStr "" => Raise (IndexError "string index out of range")
  | VDict _ => Raise (KeyError "0")
  | _ => Raise (TypeError ("'" +:+ type_name v +:+ "' object is not subscriptable"))
  end.

(** [v.get(k, default)] *)
Definition get_method (v : value) (k : string) (default : value) : result value :=
  match v with
  | VDict d => Ok (get d k default)
  | _ => Raise (no_attribute v "get")
  end.

(** [v.update(other)] *)
Definition update_method (v : value) (other : dict) : result value :=
  match v with
  | VDict d => Ok (VDict (update d other))
  | _ => Raise (no_attribute v "update")
  end.

(** The items a [for] loop over [v] visits. *)
Definition iterate (v : value) : result (list value) :=
  match v with
  | VList l => Ok l
  | VDict d => Ok (map VStr (keys d))
  | VStr s => Ok (map (λ c, VStr (String c "")) (list_ascii_of_string s))
  | _ => Raise (TypeError ("'" +:+ type_name v +:+ "' object is not iterable"))
  end.

End Py.

Export Py.

(** * [hashlib.sha256]

    SHA-256 as in FIPS 180-4, on 32-bit words carried in [Z] with the
    wrap-around written out. *)

Module Sha256.
Local Open Scope Z_scope.

Definition add32 (a b : Z) : Z := (a + b) mod 2^32.
Definition not32 (x : Z) : Z := Z.lxor x 0xffffffff.
Definition rotr (n x : Z) : Z :=
  Z.lor (Z.shiftr x n) (Z.land (Z.shiftl x (32 - n)) 0xffffffff).
Definition shr (n x : Z) : Z := Z.shiftr x n.

Definition Ch (x y z : Z) : Z := Z.lxor (Z.land x y) (Z.land (not32 x) z).
Definition Maj (x y z : Z) : Z :=
  Z.lxor (Z.lxor (Z.land x y) (Z.land x z)) (Z.land y z).
Definition Sigma0 (x : Z) : Z := Z.lxor (Z.lxor (rotr 2 x) (rotr 13 x)) (rotr 22 x).
Definition Sigma1 (x : Z) : Z := Z.lxor (Z.lxor (rotr 6 x) (rotr 11 x)) (rotr 25 x).
Definition sigma0 (x : Z) : Z := Z.lxor (Z.lxor (rotr 7 x) (rotr 18 x)) (shr 3 x).
Definition sigma1 (x : Z) : Z := Z.lxor (Z.lxor (rotr 17 x) (rotr 19 x)) (shr 10 x).

(** The constants of FIPS 180-4 (4.2.2, 5.3.3): the first 32 bits of the
    fractional parts of the cube roots of the first 64 primes, and of
    the square roots of the first 8. *)
Definition is_prime (p : Z) : bool :=
  forallb (λ d, negb (p mod d =? 0)) (seqZ 2 (p - 2)).

Definition primes : list Z := List.filter is_prime (seqZ 2 310).

(** The integer part of the cube root of [n < 2^108]. *)
Definition cube_root (n : Z) : Z :=
  fold_left (λ r i, let r' := r + 2 ^ i in if r' * r' * r' <=? n then r' else r)
    (rev (seqZ 0 36)) 0.

Definition K : list Z :=
  Eval vm_compute in map (λ p, cube_root (p * 2 ^ 96) mod 2 ^ 32) primes.

(** The eight working variables, and the hash value between blocks. *)
Abbreviation words8 := (Z * Z * Z * Z * Z * Z * Z * Z)%type.

Definition H0 : words8 :=
  Eval vm_compute in
    match map (λ p, Z.sqrt (p * 2 ^ 64) mod 2 ^ 32) (take 8 primes) with
    | [a; b; c; d; e; f; g; h] => (a, b, c, d, e, f, g, h)
    | _ => (0, 0, 0, 0, 0, 0, 0, 0)
    end.

Definition bytes_of (s : string) : list Z :=
  map (λ c, Z.of_N (N_of_ascii c)) (list_ascii_of_string s).

(** Big-endian bytes of the 64-bit message length. *)
Definition be64 (n : Z) : list Z :=
  map (λ i, (n / 2 ^ (8 * i)) mod 256) [7; 6; 5; 4; 3; 2; 1; 0].

Definition pad (msg : list Z) : list Z :=
  let len := Z.of_nat (length msg) in
  msg ++ [0x80] ++ replicate (Z.to_nat ((55 - len) mod 64)) 0 ++ be64 (8 * len).

Fixpoint chunks (n : nat) (l : list Z) : list (list Z) :=
  match n with
  | O => []
  | S n' => take 64 l :: chunks n' (drop 64 l)
  end.

Fixpoint be_words (n : nat) (l : list Z) : list Z :=
  match n, l with
  | S n', a :: b :: c :: d :: rest =>
      (((a * 256 + b) * 256 + c) * 256 + d) :: be_words n' rest
  | _, _ => []
  end.

(** The message schedule, most recent word first. *)
Fixpoint schedule (n : nat) (w : list Z) : list Z :=
  match n with
  | O => w
  | S n' =>
      let x := add32 (add32 (add32 (sigma1 (nth 1 w 0)) (nth 6 w 0))
                            (sigma0 (nth 14 w 0))) (nth 15 w 0) in
      schedule n' (x :: w)
  end.

Definition round (s : words8) (kw : Z * Z) : words8 :=
  let '(a, b, c, d, e, f, g, h) := s in
  let t1 := add32 (add32 (add32 (add32 h (Sigma1 e)) (Ch e f g)) kw.1) kw.2 in
  let t2 := add32 (Sigma0 a) (Maj a b c) in
  (add32 t1 t2, a, b, c, add32 d t1, e, f, g).

Definition compress (hv : words8) (block : list Z) : words8 :=
  let w := rev (schedule 48 (rev (be_words 16 block))) in
  let '(a, b, c, d, e, f, g, h) := fold_left round (zip K w) hv in
  let '(a0, b0, c0, d0, e0, f0, g0, h0) := hv in
  (add32 a0 a, add32 b0 b, add32 c0 c, add32 d0 d,
   add32 e0 e, add32 f0 f, add32 g0 g, add32 h0 h).

Definition sha256 (msg : string) : words8 :=
  let p := pad (bytes_of msg) in
  fold_left compress (chunks (length p / 64) p) H0.

Definition words (hv : words8) : list Z :=
  let '(a, b, c, d, e, f, g, h) := hv in [a; b; c; d; e; f; g; h].

Definition hex8 (w : Z) : string :=
  string_of_list_ascii
    (map (λ i, hexdigit (Z.to_N ((w / 2 ^ (4 * i)) mod 16))) [7; 6; 5; 4; 3; 2; 1; 0]).

(** [hashlib.sha256(msg).hexdigest()] *)
Definition hexdigest (msg : string) : string :=
  foldr (λ w acc, hex8 w +:+ acc) "" (words (sha256 msg)).


End Sha256.

(** * The outside world and the monad of effects *)

Module Runtime.

(** ** What the Canvas server sends *)

Inductive body : Type :=
| Json (v : value)        (* [response.json()] returns [v] *)
| NotJson (err : string). (* [response.json()] raises a decode error *)

Record response : Type := Response {
  status_code : Z;
  reason : string;
  url : string;
  content : body;
  link_next : option string  (* the [rel="next"] link of a paginated answer *)
}.

Inductive reply : Type :=
| Unreachable (err : string) (* connection error or timeout *)
| Reply (r : response).

(** ** What the database holds *)

Inductive cell : Type :=
| Val (v : value)  (* a bound Python value *)
| Time (t : Z).    (* a reading of [NOW()] *)

#[export] Instance cell_eq_dec : EqDecision cell.
Proof. solve_decision. Defined.

Abbreviation row := (gmap string cell).
Abbreviation database := (gmap string (list row)).

(** ** The environment

    The oracles are indexed by the number of requests, or of persistence
    calls, made before: the world may answer the same question
    differently later on. *)
Record env : Type := Env {
  CANVAS_API_TOKEN : string;
  CANVAS_BASE_URL : string;
  server : nat → string → reply;
  today : nat → Z;  (* [datetime.now()], in days since 1970-01-01 *)
  pool_getconn : nat → option string;
  db_execute : nat → string → row → database → option string;
  db_rollback : nat → option string;
  db_now : nat → Z
}.

(** ** The state *)

Record state : Type := State {
  requests : list string;           (* GETs sent, oldest first *)
  db : database;
  db_calls : nat;                   (* persistence calls begun *)
  pool_in_use : nat;                (* connections checked out *)
  stdout : list string;             (* lines printed, as bytes *)
  log : list (string * string);     (* logger records: level, message *)
  stats : dict;                     (* the report under construction *)
  calls : list (string * dict * bool)
    (* persistence calls that returned: function, argument, result;
       kept for the statements below, never read by the program *)
}.

Definition set_requests (f : list string → list string) (st : state) : state :=
  State (f (requests st)) (db st) (db_calls st) (pool_in_use st) (stdout st)
        (log st) (stats st) (calls st).
Definition set_db (f : database → database) (st : state) : state :=
  State (requests st) (f (db st)) (db_calls st) (pool_in_use st) (stdout st)
        (log st) (stats st) (calls st).
Definition set_db_calls (f : nat → nat) (st : state) : state :=
  State (requests st) (db st) (f (db_calls st)) (pool_in_use st) (stdout st)
        (log st) (stats st) (calls st).
Definition set_pool_in_use (f : nat → nat) (st : state) : state :=
  State (requests st) (db st) (db_calls st) (f (pool_in_use st)) (stdout st)
        (log st) (stats st) (calls st).
Definition set_stdout (f : list string → list string) (st : state) : state :=
  State (requests st) (db st) (db_calls st) (pool_in_use st) (f (stdout st))
        (log st) (stats st) (calls st).
Definition set_log (f : list (string * string) → list (string * string))
    (st : state) : state :=
  State (requests st) (db st) (db_calls st) (pool_in_use st) (stdout st)
        (f (log st)) (stats st) (calls st).
Definition set_stats (f : dict → dict) (st : state) : state :=
  State (requests st) (db st) (db_calls st) (pool_in_use st) (stdout st)
        (log st) (f (stats st)) (calls st).
Definition set_calls
    (f : list (string * dict * bool) → list (string * dict * bool))
    (st : state) : state :=
  State (requests st) (db st) (db_calls st) (pool_in_use st) (stdout st)
        (log st) (stats st) (f (calls st)).

(** A state before anything ran, over a given database. *)
Definition initial (d : database) : state := State [] d 0 0 [] [] [] [].

(** ** The monad *)

Definition M (A : Type) : Type := state → result A * state.

Definition ret {A} (a : A) : M A := λ st, (Ok a, st).

Definition bind {A B} (m : M A) (k : A → M B) : M B :=
  λ st, match m st with
        | (Ok a, st') => k a st'
        | (Raise e, st') => (Raise e, st')
        end.

Definition raise {A} (e : exn) : M A := λ st, (Raise e, st).

Definition lift {A} (r : result A) : M A := λ st, (r, st).

(** [try: m  except Exception as e: handler e] *)
Definition try_except {A} (m : M A) (handler : exn → M A) : M A :=
  λ st, match m st with
        | (Ok a, st') => (Ok a, st')
        | (Raise e, st') => handler e st'
        end.

(** [try: m  finally: cleanup]; an exception of [cleanup] wins. *)
Definition try_finally {A} (m : M A) (cleanup : M unit) : M A :=
  λ st, let '(r, st') := m st in
        match cleanup st' with
        | (Ok _, st'') => (r, st'')
        | (Raise e, st'') => (Raise e, st'')
        end.

Definition gets {A} (f : state → A) : M A := λ st, (Ok (f st), st).
Definition modify (f : state → state) : M unit := λ st, (Ok tt, f st).

#[export] Instance M_ret : MRet M := @ret.
#[export] Instance M_bind : MBind M := λ A B k m, bind m k.

(** [for x in xs: body x] *)
Fixpoint for_ {A} (xs : list A) (body : A → M unit) : M unit :=
  match xs with
  | [] => ret tt
  | x :: xs' => body x;; for_ xs' body
  end.

(** [[f x for x in xs]] *)
Fixpoint for_list {A B} (xs : list A) (f : A → M B) : M (list B) :=
  match xs with
  | [] => ret []
  | x :: xs' => y ← f x; ys ← for_list xs' f; ret (y :: ys)
  end.

(** [print(line)]; the line is given as the bytes written. *)
Definition print (line : string) : M unit :=
  modify (set_stdout (λ out, out ++ [line])).

(** [logger.info], [logger.error], [logger.exception] *)
Definition logger (level msg : string) : M unit :=
  modify (set_log (λ l, l ++ [(level, msg)])).
Definition logger_info : string → M unit := logger "INFO".
Definition logger_error : string → M unit := logger "ERROR".
Definition logger_exception : string → M unit := logger "ERROR".

End Runtime.

Export Runtime.

(** * [src/storage.py] *)

Module Storage.

(** [s.encode()]: UTF-8; a code point 128..255 takes two bytes. *)
Definition encode_char (c : ascii) : string :=
  let n := code c in
  if (n <? 128)%N then String c ""
  else String (chr (192 + n / 64)) (String (chr (128 + n mod 64)) "").

Fixpoint encode (s : string) : string :=
  match s with
  | "" => ""
  | String c s' => encode_char c +:+ encode s'
  end.

(** Order of the tuples [(key, v)] of [data.items()]: the keys of a
    dictionary are distinct, so the comparison of two of its items is
    decided by their keys, compared code point by code point. *)
Definition item_le (x y : string * value) : Prop := String.le x.1 y.1.

#[export] Instance item_le_dec : RelDecision item_le.
Proof. intros x y. unfold item_le. apply _. Defined.

(** [sorted(data.items())] *)
Definition sorted_items (data : dict) : dict := merge_sort item_le data.

(** [generate_content_hash]:
    [hashlib.sha256(str(sorted(data.items())).encode()).hexdigest()] *)
Definition generate_content_hash (data : dict) : string :=
  let content_string := repr_items (sorted_items data) in
  Sha256.hexdigest (encode content_string).

(** ** The connection pool and the statements *)

(** [connection_pool = SimpleConnectionPool(1, 10, DATABASE_URL)] *)
Definition maxconn : nat := 10.

(** [get_connection()]; the connection is named by the number of the
    persistence call that took it. *)
Definition get_connection (e : env) : M nat := λ st,
  let n := db_calls st in
  let st' := set_db_calls S st in
  if decide (maxconn ≤ pool_in_use st)
  then (Raise (DatabaseError "connection pool exhausted"), st')
  else match pool_getconn e n with
       | Some err => (Raise (DatabaseError err), st')
       | None => (Ok n, set_pool_in_use S st')
       end.

(** [return_connection(conn)] *)
Definition return_connection (conn : nat) : M unit :=
  modify (set_pool_in_use pred).

(** [conn.rollback()] *)
Definition rollback (e : env) (conn : nat) : M unit :=
  match db_rollback e conn with
  | Some err => raise (DatabaseError err)
  | None => ret tt
  end.

(** A value of the [VALUES] list, and of the [DO UPDATE SET] list. *)
Inductive sql_expr : Type :=
| Param (name : string)  (* [%(name)s] *)
| Now.                   (* [NOW()] *)

Inductive set_expr : Type :=
| Excluded (column : string)  (* [EXCLUDED.column] *)
| SetNow.                     (* [NOW()] *)

(** [INSERT INTO table (columns) VALUES (...) ON CONFLICT (conflict)
    DO UPDATE SET ...] *)
Record upsert : Type := Upsert {
  table : string;
  columns : list (string * sql_expr);
  conflict : string;
  on_conflict : list (string * set_expr)
}.

(** The row proposed for insertion; a placeholder without a parameter
    raises [KeyError], as [query % params] does. *)
Fixpoint bind_params (cols : list (string * sql_expr)) (params : dict) (now : Z)
    : result row :=
  match cols with
  | [] => Ok ∅
  | (c, ex) :: cols' =>
      match ex with
      | Param name =>
          match lookup_key name params with
          | None => Raise (KeyError name)
          | Some v =>
              match bind_params cols' params now with
              | Ok r => Ok (<[c := Val v]> r)
              | Raise err => Raise err
              end
          end
      | Now =>
          match bind_params cols' params now with
          | Ok r => Ok (<[c := Time now]> r)
          | Raise err => Raise err
          end
      end
  end.

(** [DO UPDATE SET]: the listed columns of the stored row are assigned,
    the others are left as stored. *)
Definition do_update (sets : list (string * set_expr)) (excluded : row) (now : Z)
    (stored : row) : row :=
  fold_left
    (λ r cs, match cs.2 with
             | Excluded c' => partial_alter (λ _, excluded !! c') cs.1 r
             | SetNow => <[cs.1 := Time now]> r
             end)
    sets stored.

(** The rows of the table after the statement: the row in conflict on
    the key is updated in place; without one, the proposed row is added.
    A column the statement does not name is absent from the added row:
    it takes the default of the schema. *)
Fixpoint apply_upsert (q : upsert) (excluded : row) (now : Z) (rows : list row)
    : list row :=
  match rows with
  | [] => [excluded]
  | r :: rows' =>
      if decide (r !! conflict q = excluded !! conflict q)
      then do_update (on_conflict q) excluded now r :: rows'
      else r :: apply_upsert q excluded now rows'
  end.

Definition rows_of (d : database) (t : string) : list row := default [] (d !! t).

(** [cursor.execute(query, params)]: the database as the transaction
    sees it afterwards, or the error the server raises. *)
Definition execute (e : env) (conn : nat) (q : upsert) (params : dict) : M database :=
  d ← gets db;
  excluded ← lift (bind_params (columns q) params (db_now e conn));
  match db_execute e conn (table q) excluded d with
  | Some err => raise (DatabaseError err)
  | None =>
      ret (<[table q := apply_upsert q excluded (db_now e conn) (rows_of d (table q))]> d)
  end.

(** [conn.commit()] *)
Definition commit (pending : database) : M unit := modify (set_db (λ _, pending)).

(** The frame shared by the four functions:
[[
    conn = None
    try:
        conn = get_connection()
        cursor = conn.cursor()
        ...
        return True
    except Exception as e:
        if conn:
            conn.rollback()
        print(f"<error_prefix>{e}")
        return False
    finally:
        if conn:
            return_connection(conn)
]]
*)
Definition persist (e : env) (name : string) (arg : dict) (error_prefix : string)
    (body : nat → M unit) : M bool :=
  let failed (ex : exn) : M bool :=
    print (encode (error_prefix +:+ exn_str ex));; ret false in
  conn ← try_except (c ← get_connection e; ret (Some c))
                    (λ ex, failed ex;; ret None);
  returned ← match conn with
             | None => ret false
             | Some c =>
                 try_finally
                   (try_except (body c;; ret true)
                               (λ ex, rollback e c;; failed ex))
                   (return_connection c)
             end;
  modify (set_calls (λ l, l ++ [(name, arg, returned)]));;
  ret returned.

(** [d[k]] on a dictionary, in the monad *)
Definition item (d : dict) (k : string) : M value := lift (getitem (VDict d) k).

(** The bytes of the check mark U+2705 that opens the success lines. *)
Definition check_mark : string := "✅".

(** ** [insert_course] *)

Definition courses_query : upsert :=
  {| table := "courses";
     columns := [("course_id", Param "course_id"); ("course_code", Param "course_code");
                 ("course_name", Param "course_name"); ("last_synced_at", Now)];
     conflict := "course_id";
     on_conflict := [("course_code", Excluded "course_code");
                     ("course_name", Excluded "course_name");
                     ("last_synced_at", SetNow)] |}.

Definition insert_course (e : env) (course_data : dict) : M bool :=
  persist e "insert_course" course_data "Error inserting course: " (λ conn,
    pending ← execute e conn courses_query course_data;
    commit pending;;
    course_name ← item course_data "course_name";
    print (check_mark +:+ encode (" Inserted/updated course: " +:+ str course_name))).

(** ** [insert_assignment] *)

Definition assignments_query : upsert :=
  {| table := "assignments";
     columns := [("assignment_id", Param "assignment_id"); ("course_id", Param "course_id");
                 ("course_name", Param "course_name"); ("name", Param "name");
                 ("description", Param "description"); ("due_at", Param "due_at");
                 ("points_possible", Param "points_possible");
                 ("html_url", Param "html_url");
                 ("submission_status", Param "submission_status");
                 ("content_hash", Param "content_hash"); ("last_synced_at", Now)];
     conflict := "assignment_id";
     on_conflict := [("name", Excluded "name"); ("description", Excluded "description");
                     ("due_at", Excluded "due_at");
                     ("points_possible", Excluded "points_possible");
                     ("submission_status", Excluded "submission_status");
                     ("content_hash", Excluded "content_hash");
                     ("last_synced_at", SetNow); ("updated_at", SetNow)] |}.

Definition assignment_hash_data (assignment_data : dict) : dict :=
  [("name", get assignment_data "name" VNone);
   ("due_at", get assignment_data "due_at" VNone);
   ("description", get assignment_data "description" VNone);
   ("points_possible", get assignment_data "points_possible" VNone)].

Definition insert_assignment (e : env) (assignment_data : dict) : M bool :=
  persist e "insert_assignment" assignment_data "Error inserting assignment: " (λ conn,
    let hash_data := assignment_hash_data assignment_data in
    let content_hash := generate_content_hash hash_data in
    assignment_id ← item assignment_data "assignment_id";
    course_id ← item assignment_data "course_id";
    course_name ← item assignment_data "course_name";
    name ← item assignment_data "name";
    let query_data :=
      [("assignment_id", assignment_id); ("course_id", course_id);
       ("course_name", course_name); ("name", name);
       ("description", get assignment_data "description" VNone);
       ("due_at", get assignment_data "due_at" VNone);
       ("points_possible", get assignment_data "points_possible" VNone);
       ("html_url", get assignment_data "html_url" VNone);
       ("submission_status", get assignment_data "submission_status" VNone);
       ("content_hash", VStr content_hash)] in
    pending ← execute e conn assignments_query query_data;
    commit pending;;
    name ← item assignment_data "name";
    print (check_mark +:+ encode (" Inserted/updated assignment: " +:+ str name))).

(** ** [insert_announcement] *)

Definition announcements_query : upsert :=
  {| table := "announcements";
     columns := [("announcement_id", Param "announcement_id");
                 ("course_id", Param "course_id"); ("course_name", Param "course_name");
                 ("title", Param "title"); ("message", Param "message");
                 ("posted_at", Param "posted_at"); ("html_url", Param "html_url");
                 ("content_hash", Param "content_hash"); ("last_synced_at", Now)];
     conflict := "announcement_id";
     on_conflict := [("title", Excluded "title"); ("message", Excluded "message");
                     ("posted_at", Excluded "posted_at");
                     ("content_hash", Excluded "content_hash");
                     ("last_synced_at", SetNow)] |}.

Definition announcement_hash_data (announcement_data : dict) : dict :=
  [("title", get announcement_data "title" VNone);
   ("message", get announcement_data "message" VNone);
   ("posted_at", get announcement_data "posted_at" VNone)].

Definition insert_announcement (e : env) (announcement_data : dict) : M bool :=
  persist e "insert_announcement" announcement_data "Error inserting announcement: "
    (λ conn,
    let hash_data := announcement_hash_data announcement_data in
    let content_hash := generate_content_hash hash_data in
    id ← item announcement_data "id";
    course_id ← item announcement_data "course_id";
    course_name ← item announcement_data "course_name";
    let query_data :=
      [("announcement_id", id); ("course_id", course_id);
       ("course_name", course_name);
       ("title", get announcement_data "title" (VStr "Untitled"));
       ("message", get announcement_data "message" VNone);
       ("posted_at", get announcement_data "posted_at" VNone);
       ("html_url", get announcement_data "html_url" VNone);
       ("content_hash", VStr content_hash)] in
    pending ← execute e conn announcements_query query_data;
    commit pending;;
    print (check_mark +:+
           encode (" Inserted/updated announcement: " +:+
                   str (get announcement_data "title" (VStr "Untitled"))))).

(** ** [insert_front_page] *)

Definition front_pages_query : upsert :=
  {| table := "front_pages";
     columns := [("course_id", Param "course_id"); ("course_name", Param "course_name");
                 ("title", Param "title"); ("body", Param "body");
                 ("updated_at", Param "updated_at");
                 ("content_hash", Param "content_hash"); ("last_synced_at", Now)];
     conflict := "course_id";
     on_conflict := [("title", Excluded "title"); ("body", Excluded "body");
                     ("updated_at", Excluded "updated_at");
                     ("content_hash", Excluded "content_hash");
                     ("last_synced_at", SetNow)] |}.

Definition front_page_hash_data (front_page_data : dict) : dict :=
  [("title", get front_page_data "title" VNone);
   ("body", get front_page_data "body" VNone);
   ("updated_at", get front_page_data "updated_at" VNone)].

Definition insert_front_page (e : env) (front_page_data : dict) : M bool :=
  persist e "insert_front_page" front_page_data " Error inserting front page: " (λ conn,
    let hash_data := front_page_hash_data front_page_data in
    let content_hash := generate_content_hash hash_data in
    course_id ← item front_page_data "course_id";
    course_name ← item front_page_data "course_name";
    let query_data :=
      [("course_id", course_id); ("course_name", course_name);
       ("title", get front_page_data "title" VNone);
       ("body", get front_page_data "body" VNone);
       ("updated_at", get front_page_data "updated_at" VNone);
       ("content_hash", VStr content_hash)] in
    pending ← execute e conn front_pages_query query_data;
    commit pending;;
    print (check_mark +:+ encode (" Inserted/updated front page for: " +:+ str course_name))).

End Storage.

Export Storage.

(** * [src/utils/config.py] and [src/agents/canvas_agent.py] *)

Module CanvasAgent.
Local Open Scope Z_scope.

Definition newline : string := String (chr 10) "".

(** [Config.validate_canvas] *)
Definition validate_canvas (e : env) : M unit :=
  if decide (CANVAS_API_TOKEN e = "")
  then raise (ValueError
    ("CANVAS_API_TOKEN is not found in .env file! " +:+ newline +:+
     "To retreive your Canvas API token, follow these steps:" +:+ newline +:+
     "Canvas > Account > Settings > Approved Integrations > New Access Token" +:+
     newline))
  else ret tt.

(** The fields of a [CanvasAgent]; the session sends [api_token] as a
    bearer token with every request. *)
Record agent : Type := Agent {
  base_url : string;
  api_token : string
}.

(** [CanvasAgent.__init__] *)
Definition init (e : env) : M agent :=
  validate_canvas e;;
  ret (Agent (rstrip "/" (CANVAS_BASE_URL e)) (CANVAS_API_TOKEN e)).

(** [self.session.get(url, timeout=30)] *)
Definition session_get (e : env) (url : string) : M reply := λ st,
  (Ok (server e (length (requests st)) url),
   set_requests (λ l, l ++ [url]) st).

(** The text of the [HTTPError] of [response.raise_for_status()], for a
    status 400..599. *)
Definition http_error_msg (r : response) : string :=
  repr_int (status_code r) +:+
  (if status_code r <? 500 then " Client Error: " else " Server Error: ") +:+
  reason r +:+ " for url: " +:+ url r.

(** [response.json()] *)
Definition json (r : response) : M value :=
  match content r with
  | Json v => ret v
  | NotJson err => raise (ValueError err)
  end.

(** [_make_request] *)
Definition make_request (e : env) (self : agent) (endpoint : string) : M value :=
  let url := base_url self +:+ endpoint in
  answer ← session_get e url;
  match answer with
  | Unreachable err => raise (CanvasAPIError ("Network error: " +:+ err))
  | Reply response =>
      if (400 <=? status_code response) && (status_code response <? 600)
      then
        (* except requests.exceptions.HTTPError as e *)
        let str_e := http_error_msg response in
        error_msg ←
          try_except
            (body ← json response;
             errors ← lift (get_method body "errors" (VList [VDict []]));
             first ← lift (getitem0 errors);
             lift (get_method first "message" (VStr str_e)))
            (λ _, ret (VStr str_e));
        raise (CanvasAPIError ("Canvas API error: " +:+ str error_msg))
      else
        (* a decode error of [response.json()] is a [RequestException] *)
        try_except (json response)
          (λ ex, raise (CanvasAPIError ("Network error: " +:+ exn_str ex)))
  end.

(** [get_active_courses] *)
Definition get_active_courses (e : env) (self : agent) : M (list value) :=
  let endpoint := "/api/v1/users/self/favorites/courses" in
  courses ← make_request e self endpoint;
  items ← lift (iterate courses);
  for_list items (λ course,
    id ← lift (getitem course "id");
    name ← lift (get_method course "name" (VStr "Unnamed Course"));
    course_code ← lift (get_method course "course_code" (VStr "N/A"));
    ret (VDict [("id", id); ("name", name); ("course_code", course_code)])).

(** [get_course_assignments] *)
Definition get_course_assignments (e : env) (self : agent) (course_id : value)
    : M value :=
  let endpoint := "/api/v1/courses/" +:+ str course_id +:+ "/assignments?per_page=100" in
  assignments ← make_request e self endpoint;
  if decide (assignments = VNone) then ret (VList []) else ret assignments.

(** The civil date of a day number, and [strftime('%Y-%m-%d')]. *)
Definition civil_from_days (days : Z) : Z * Z * Z :=
  let z := days + 719468 in
  let era := z / 146097 in
  let doe := z - era * 146097 in
  let yoe := (doe - doe / 1460 + doe / 36524 - doe / 146096) / 365 in
  let doy := doe - (365 * yoe + yoe / 4 - yoe / 100) in
  let mp := (5 * doy + 2) / 153 in
  let d := doy - (153 * mp + 2) / 5 + 1 in
  let m := if mp <? 10 then mp + 3 else mp - 9 in
  let y := yoe + era * 400 + (if m <=? 2 then 1 else 0) in
  (y, m, d).

Definition two_digits (n : Z) : string :=
  if n <? 10 then "0" +:+ repr_int n else repr_int n.

Definition strftime_ymd (days : Z) : string :=
  let '(y, m, d) := civil_from_days days in
  repr_int y +:+ "-" +:+ two_digits m +:+ "-" +:+ two_digits d.

(** [datetime.now()], as a day number *)
Definition datetime_now (e : env) : M Z :=
  gets (λ st, today e (length (requests st))).

(** [get_course_announcements] *)
Definition get_course_announcements (e : env) (self : agent) (course_id : value)
    (days_back : Z) : M value :=
  now ← datetime_now e;
  let start_date := strftime_ymd (now - days_back) in
  now ← datetime_now e;
  let end_date := strftime_ymd now in
  let endpoint :=
    "/api/v1/announcements?" +:+
    "context_codes[]=course_" +:+ str course_id +:+ "&" +:+
    "start_date=" +:+ start_date +:+ "&" +:+
    "end_date=" +:+ end_date +:+ "&" +:+
    "per_page=100" in
  announcements ← make_request e self endpoint;
  if decide (announcements = VNone) then ret (VList []) else ret announcements.

(** [get_course_front_page] *)
Definition get_course_front_page (e : env) (self : agent) (course_id : value)
    : M value :=
  let endpoint := "/api/v1/courses/" +:+ str course_id +:+ "/front_page" in
  front_page ← make_request e self endpoint;
  if decide (front_page = VNone) then ret (VDict []) else ret front_page.

(** [get_course_quizzes] *)
Definition get_course_quizzes (e : env) (self : agent) (course_id : value)
    : M value :=
  let endpoint := "/api/v1/courses/" +:+ str course_id +:+ "/quizzes" in
  try_except
    (quizzes ← make_request e self endpoint;
     if decide (quizzes = VNone) then ret (VList []) else ret quizzes)
    (λ ex, match ex with
           | CanvasAPIError _ =>
               if str_contains "404" (exn_str ex) then ret (VList [])
               else raise ex
           | _ => raise ex
           end).

(** [get_course_modules] *)
Definition get_course_modules (e : env) (self : agent) (course_id : value)
    : M value :=
  let endpoint := "/api/v1/courses/" +:+ str course_id +:+ "/modules" in
  modules ← make_request e self endpoint;
  if decide (modules = VNone) then ret (VList []) else ret modules.

(** The dictionary [fetch_all] returns; its six keys are fixed. *)
Record canvas_data : Type := CanvasData {
  courses : list value;
  assignments : list value;
  announcements : list value;
  front_pages : list value;
  quizzes : list value;
  modules : list value
}.

(** [for item in items: item.update(course_context)], giving the items
    that [extend] then adds. *)
Definition annotate (items : value) (course_context : dict) : M (list value) :=
  l ← lift (iterate items);
  for_list l (λ x, lift (update_method x course_context)).

(** A [for] loop that carries a value along. *)
Fixpoint fold_for {A S} (xs : list A) (s : S) (body : S → A → M S) : M S :=
  match xs with
  | [] => ret s
  | x :: xs' => s' ← body s x; fold_for xs' s' body
  end.

(** [fetch_all] *)
Definition fetch_all (e : env) (self : agent) : M canvas_data :=
  courses ← get_active_courses e self;
  let result := CanvasData courses [] [] [] [] [] in
  fold_for courses result (λ result course,
    course_id ← lift (getitem course "id");
    course_name ← lift (getitem course "name");
    course_code ← lift (getitem course "course_code");
    let course_context :=
      [("course_id", course_id); ("course_name", course_name);
       ("course_code", course_code)] in
    assignments ← get_course_assignments e self course_id;
    assignments ← annotate assignments course_context;
    announcements ← get_course_announcements e self course_id 120;
    announcements ← annotate announcements course_context;
    front_page ← get_course_front_page e self course_id;
    front_page ← (if truthy front_page
                  then fp ← lift (update_method front_page course_context); ret [fp]
                  else ret []);
    quizzes ← get_course_quizzes e self course_id;
    quizzes ← annotate quizzes course_context;
    modules ← get_course_modules e self course_id;
    modules ← annotate modules course_context;
    ret (CanvasData (CanvasAgent.courses result)
           (CanvasAgent.assignments result ++ assignments)
           (CanvasAgent.announcements result ++ announcements)
           (CanvasAgent.front_pages result ++ front_page)
           (CanvasAgent.quizzes result ++ quizzes)
           (CanvasAgent.modules result ++ modules))).

End CanvasAgent.

(** * [src/sync_canvas.py] *)

Module Sync.
Import CanvasAgent.
Local Open Scope Z_scope.

Definition initial_stats : dict :=
  [("courses", VInt 0); ("assignments", VInt 0); ("announcements", VInt 0);
   ("front_pages", VInt 0); ("errors", VList [])].

(** [v + 1] *)
Definition add_one (v : value) : result value :=
  match v with
  | VInt n => Ok (VInt (n + 1))
  | VBool b => Ok (VInt ((if b then 1 else 0) + 1))
  | _ => Raise (TypeError ("unsupported operand type(s) for +=: '" +:+ type_name v +:+
                           "' and 'int'"))
  end.

(** [stats[k] += 1] *)
Definition increment (k : string) : M unit :=
  s ← gets stats;
  v ← item s k;
  v' ← lift (add_one v);
  modify (set_stats (set k v')).

(** [stats['errors'].append(error_msg)] *)
Definition append_error (error_msg : string) : M unit :=
  s ← gets stats;
  errors ← item s "errors";
  match errors with
  | VList l => modify (set_stats (set "errors" (VList (l ++ [VStr error_msg]))))
  | _ => raise (no_attribute errors "append")
  end.

Definition len (l : list value) : string := repr_int (Z.of_nat (length l)).

(** The bodies of the four [for] loops of [sync_canvas_to_database]. *)
Definition sync_course (e : env) (course : value) : M unit :=
  id ← lift (getitem course "id");
  course_code ← lift (getitem course "course_code");
  name ← lift (getitem course "name");
  let course_data :=
    [("course_id", id); ("course_code", course_code); ("course_name", name)] in
  inserted ← insert_course e course_data;
  if inserted : bool then increment "courses" else ret tt.

Definition sync_assignment (e : env) (assignment : value) : M unit :=
  id ← lift (getitem assignment "id");
  course_id ← lift (getitem assignment "course_id");
  course_name ← lift (getitem assignment "course_name");
  name ← lift (get_method assignment "name" (VStr "Untitled"));
  description ← lift (get_method assignment "description" VNone);
  due_at ← lift (get_method assignment "due_at" VNone);
  points_possible ← lift (get_method assignment "points_possible" VNone);
  html_url ← lift (get_method assignment "html_url" VNone);
  submission_types ← lift (get_method assignment "submission_types" VNone);
  let assignment_data :=
    [("assignment_id", id); ("course_id", course_id); ("course_name", course_name);
     ("name", name); ("description", description); ("due_at", due_at);
     ("points_possible", points_possible); ("html_url", html_url);
     ("submission_status", submission_types)] in
  inserted ← insert_assignment e assignment_data;
  if inserted : bool then increment "assignments" else ret tt.

Definition sync_announcement (e : env) (announcement : value) : M unit :=
  id ← lift (getitem announcement "id");
  course_id ← lift (getitem announcement "course_id");
  course_name ← lift (getitem announcement "course_name");
  title ← lift (get_method announcement "title" (VStr "Untitled"));
  message ← lift (get_method announcement "message" VNone);
  posted_at ← lift (get_method announcement "posted_at" VNone);
  html_url ← lift (get_method announcement "html_url" VNone);
  let announcement_data :=
    [("id", id); ("course_id", course_id); ("course_name", course_name);
     ("title", title); ("message", message); ("posted_at", posted_at);
     ("html_url", html_url)] in
  inserted ← insert_announcement e announcement_data;
  if inserted : bool then increment "announcements" else ret tt.

Definition sync_front_page (e : env) (front_page : value) : M unit :=
  course_id ← lift (getitem front_page "course_id");
  course_name ← lift (getitem front_page "course_name");
  title ← lift (get_method front_page "title" VNone);
  body ← lift (get_method front_page "body" VNone);
  updated_at ← lift (get_method front_page "updated_at" VNone);
  let front_page_data :=
    [("course_id", course_id); ("course_name", course_name); ("title", title);
     ("body", body); ("updated_at", updated_at)] in
  inserted ← insert_front_page e front_page_data;
  if inserted : bool then increment "front_pages" else ret tt.

(** The persistence part of the [try]: the four loops, in order. *)
Definition persist_all (e : env) (data : canvas_data) : M unit :=
  logger_info "Syncing courses to database";;
  for_ (courses data) (sync_course e);;
  logger_info "Syncing assignments to database";;
  for_ (assignments data) (sync_assignment e);;
  logger_info "Syncing announcements to database";;
  for_ (announcements data) (sync_announcement e);;
  logger_info "Syncing front pages to database";;
  for_ (front_pages data) (sync_front_page e).

(** The body of the [try] of [sync_canvas_to_database]. *)
Definition sync_body (e : env) : M dict :=
  logger_info "Initializing Canvas agent";;
  agent ← init e;
  logger_info "Fetching data from Canvas API";;
  canvas_data ← fetch_all e agent;
  logger_info ("Retrieved " +:+ len (courses canvas_data) +:+ " courses");;
  logger_info ("Retrieved " +:+ len (assignments canvas_data) +:+ " assignments");;
  logger_info ("Retrieved " +:+ len (announcements canvas_data) +:+ " announcements");;
  logger_info ("Retrieved " +:+ len (front_pages canvas_data) +:+ " front pages");;
  persist_all e canvas_data;;
  logger_info "Sync completed successfully";;
  s ← gets stats;
  synced ← item s "courses";
  logger_info ("Synced " +:+ str synced +:+ " courses");;
  synced ← item s "assignments";
  logger_info ("Synced " +:+ str synced +:+ " assignments");;
  synced ← item s "announcements";
  logger_info ("Synced " +:+ str synced +:+ " announcements");;
  synced ← item s "front_pages";
  logger_info ("Synced " +:+ str synced +:+ " front pages");;
  gets stats.

(** [sync_canvas_to_database] *)
Definition sync_canvas_to_database (e : env) : M dict :=
  modify (set_stats (λ _, initial_stats));;
  try_except (sync_body e)
    (λ ex,
      match ex with
      | CanvasAPIError _ =>
          let error_msg := "Canvas API error: " +:+ exn_str ex in
          logger_error error_msg;;
          append_error error_msg;;
          gets stats
      | _ =>
          let error_msg := "Unexpected error during sync: " +:+ exn_str ex in
          logger_exception error_msg;;
          append_error error_msg;;
          gets stats
      end).

(** [main]; the value is the code given to [sys.exit]. *)
Definition main (e : env) : M Z :=
  logger_info "Starting Canvas sync process";;
  s ← sync_canvas_to_database e;
  errors ← item s "errors";
  if truthy errors
  then
    l ← lift (iterate errors);
    logger_error ("Sync completed with " +:+ len l +:+ " errors");;
    ret 1
  else
    logger_info "Sync process completed successfully";;
    ret 0.

End Sync.

Import CanvasAgent Sync.

(** * Vocabulary of the statements *)

Module Spec.

Section digest.
Import Sha256.
Local Open Scope Z_scope.

Definition word (x : Z) : Prop := 0 ≤ x < 2^32.

Definition in_range (hv : words8) : Prop := Forall word (words hv).

(** The digest as a number below [2^256]. *)
Fixpoint number (ws : list Z) : Z :=
  match ws with
  | [] => 0
  | w :: ws' => w + 2^32 * number ws'
  end.

(** Text made of the digits [0..9] and the letters [a..f]. *)
Definition hex_lower (s : string) : Prop :=
  Forall (λ c, c ∈ list_ascii_of_string "0123456789abcdef") (list_ascii_of_string s).

End digest.

(** The stored row of a natural identity, and how many rows carry it. *)
Fixpoint find_row (col : string) (key : option cell) (rows : list row) : option row :=
  match rows with
  | [] => None
  | r :: rows' => if decide (r !! col = key) then Some r else find_row col key rows'
  end.

Fixpoint count_rows (col : string) (key : option cell) (rows : list row) : nat :=
  match rows with
  | [] => 0
  | r :: rows' => (if decide (r !! col = key) then 1 else 0) + count_rows col key rows'
  end.

(** The row [insert_assignment] proposes. *)
Definition assignment_query_data (assignment_data : dict) : result dict :=
  match getitem (VDict assignment_data) "assignment_id",
        getitem (VDict assignment_data) "course_id",
        getitem (VDict assignment_data) "course_name",
        getitem (VDict assignment_data) "name" with
  | Ok assignment_id, Ok course_id, Ok course_name, Ok name =>
      Ok [("assignment_id", assignment_id); ("course_id", course_id);
          ("course_name", course_name); ("name", name);
          ("description", get assignment_data "description" VNone);
          ("due_at", get assignment_data "due_at" VNone);
          ("points_possible", get assignment_data "points_possible" VNone);
          ("html_url", get assignment_data "html_url" VNone);
          ("submission_status", get assignment_data "submission_status" VNone);
          ("content_hash",
           VStr (generate_content_hash (assignment_hash_data assignment_data)))]
  | Raise ex, _, _, _ | _, Raise ex, _, _ | _, _, Raise ex, _ | _, _, _, Raise ex =>
      Raise ex
  end.

(** The row [insert_announcement] proposes. *)
Definition announcement_query_data (announcement_data : dict) : result dict :=
  match getitem (VDict announcement_data) "id",
        getitem (VDict announcement_data) "course_id",
        getitem (VDict announcement_data) "course_name" with
  | Ok id, Ok course_id, Ok course_name =>
      Ok [("announcement_id", id); ("course_id", course_id);
          ("course_name", course_name);
          ("title", get announcement_data "title" (VStr "Untitled"));
          ("message", get announcement_data "message" VNone);
          ("posted_at", get announcement_data "posted_at" VNone);
          ("html_url", get announcement_data "html_url" VNone);
          ("content_hash",
           VStr (generate_content_hash (announcement_hash_data announcement_data)))]
  | Raise ex, _, _ | _, Raise ex, _ | _, _, Raise ex => Raise ex
  end.

(** The row [insert_front_page] proposes. *)
Definition front_page_query_data (front_page_data : dict) : result dict :=
  match getitem (VDict front_page_data) "course_id",
        getitem (VDict front_page_data) "course_name" with
  | Ok course_id, Ok course_name =>
      Ok [("course_id", course_id); ("course_name", course_name);
          ("title", get front_page_data "title" VNone);
          ("body", get front_page_data "body" VNone);
          ("updated_at", get front_page_data "updated_at" VNone);
          ("content_hash",
           VStr (generate_content_hash (front_page_hash_data front_page_data)))]
  | Raise ex, _ | _, Raise ex => Raise ex
  end.

Fixpoint assoc {A} (c : string) (l : list (string * A)) : option A :=
  match l with
  | [] => None
  | (c', a) :: l' => if decide (c' = c) then Some a else assoc c l'
  end.

Inductive entity : Type := Assignment | Announcement | FrontPage.

Definition insert_entity (k : entity) : env → dict → M bool :=
  match k with
  | Assignment => insert_assignment
  | Announcement => insert_announcement
  | FrontPage => insert_front_page
  end.

Definition query (k : entity) : upsert :=
  match k with
  | Assignment => assignments_query
  | Announcement => announcements_query
  | FrontPage => front_pages_query
  end.

Definition query_data (k : entity) : dict → result dict :=
  match k with
  | Assignment => assignment_query_data
  | Announcement => announcement_query_data
  | FrontPage => front_page_query_data
  end.

(** The rows of the table of [k], and its key column. *)
Definition table_rows (k : entity) (st : state) : list row :=
  rows_of (db st) (table (query k)).

Definition key (k : entity) : string := conflict (query k).

End Spec.

Export Spec.

(** ** A concrete world *)

Module Demo.
Local Open Scope Z_scope.

(** A database server that accepts every statement and a Canvas server
    that cannot be reached. *)
Definition accepting : env :=
  {| CANVAS_API_TOKEN := "token";
     CANVAS_BASE_URL := "https://canvas.test/";
     server := λ _ _, Unreachable "connection refused";
     today := λ _, 20396;
     pool_getconn := λ _, None;
     db_execute := λ _ _ _ _, None;
     db_rollback := λ _, None;
     db_now := λ n, 1000 + Z.of_nat n |}.

Definition old_assignment_row : row :=
  list_to_map
    [("assignment_id", Val (VInt 123456)); ("course_id", Val (VInt 147355));
     ("course_name", Val (VStr "Software Development"));
     ("name", Val (VStr "Old name")); ("description", Val VNone);
     ("due_at", Val VNone); ("points_possible", Val (VInt 50));
     ("html_url", Val (VStr "https://canvas.test/old"));
     ("submission_status", Val VNone);
     ("content_hash", Val (VStr "0000")); ("last_synced_at", Time 7)].

Definition seeded : database := {[ "assignments" := [old_assignment_row] ]}.

Definition test_assignment : dict :=
  [("assignment_id", VInt 123456); ("course_id", VInt 147355);
   ("course_name", VStr "Advanced Software Development");
   ("name", VStr "Test Assignment"); ("description", VStr "This is a test");
   ("due_at", VStr "2025-10-30T23:59:00Z"); ("points_possible", VInt 100);
   ("html_url", VStr "https://canvas.test/courses/147355/assignments/123456");
   ("submission_status", VStr "not_submitted")].

(** The same assignment as another course copy sees it: other identity,
    course, link and submission state, same hashed fields. *)
Definition other_assignment : dict :=
  [("assignment_id", VInt 999); ("course_id", VInt 5);
   ("course_name", VStr "Another course");
   ("name", VStr "Test Assignment"); ("description", VStr "This is a test");
   ("due_at", VStr "2025-10-30T23:59:00Z"); ("points_possible", VInt 100);
   ("html_url", VStr "https://canvas.test/courses/5/assignments/999");
   ("submission_status", VStr "submitted")].

Definition test_announcement : dict :=
  [("id", VInt 789012); ("course_id", VInt 147355);
   ("course_name", VStr "Advanced Software Development");
   ("title", VStr "Test Announcement");
   ("message", VStr "This is a test announcement");
   ("posted_at", VStr "2025-10-20T10:00:00Z");
   ("html_url", VStr "https://canvas.test/courses/147355/discussion_topics/789012")].

End Demo.

(** * Vocabulary of the statements: the Source Client *)

Module SpecAgent.
Local Open Scope Z_scope.

(** The text [_make_request] takes from the body of an error answer: the
    [message] of the first of its [errors], and the text of the
    [HTTPError] when anything on the way to it is missing. *)
Definition error_text (r : response) : value :=
  let str_e := http_error_msg r in
  match content r with
  | Json body =>
      match get_method body "errors" (VList [VDict []]) with
      | Ok errors =>
          match getitem0 errors with
          | Ok first =>
              match get_method first "message" (VStr str_e) with
              | Ok msg => msg
              | Raise _ => VStr str_e
              end
          | Raise _ => VStr str_e
          end
      | Raise _ => VStr str_e
      end
  | NotJson _ => VStr str_e
  end.

(** What [_make_request] returns or raises for an answer of the server. *)
Definition request_result (a : reply) : result value :=
  match a with
  | Unreachable err => Raise (CanvasAPIError ("Network error: " +:+ err))
  | Reply r =>
      if (400 <=? status_code r) && (status_code r <? 600)
      then Raise (CanvasAPIError ("Canvas API error: " +:+ str (error_text r)))
      else match content r with
           | Json v => Ok v
           | NotJson err => Raise (CanvasAPIError ("Network error: " +:+ err))
           end
  end.

(** The state after one more GET, and the answer that GET receives. *)
Definition sent (url : string) (st : state) : state :=
  set_requests (λ l, l ++ [url]) st.

Definition answer (e : env) (url : string) (st : state) : reply :=
  server e (length (requests st)) url.

(** [[] if v is None else v] *)
Definition none_as_empty (v : value) : value :=
  if decide (v = VNone) then VList [] else v.

Definition map_result {A B} (f : A → B) (r : result A) : result B :=
  match r with
  | Ok a => Ok (f a)
  | Raise ex => Raise ex
  end.

(** What [get_course_quizzes] makes of the outcome of its request. *)
Definition quizzes_result (r : result value) : result value :=
  match r with
  | Ok v => Ok (none_as_empty v)
  | Raise (CanvasAPIError msg) =>
      if str_contains "404" msg then Ok (VList []) else Raise (CanvasAPIError msg)
  | Raise ex => Raise ex
  end.

(** [{} if v is None else v] *)
Definition none_as_empty_dict (v : value) : value :=
  if decide (v = VNone) then VDict [] else v.

(** An answer without its link to a next page. *)
Definition forget_next (a : reply) : reply :=
  match a with
  | Reply r => Reply (Response (status_code r) (reason r) (url r) (content r) None)
  | Unreachable err => Unreachable err
  end.

(** The addresses the fetch operations ask for. *)
Definition courses_url (self : agent) : string :=
  base_url self +:+ "/api/v1/users/self/favorites/courses".

Definition assignments_url (self : agent) (course_id : value) : string :=
  base_url self +:+ "/api/v1/courses/" +:+ str course_id +:+ "/assignments?per_page=100".

Definition announcements_url (self : agent) (course_id : value) (today days_back : Z)
    : string :=
  base_url self +:+ "/api/v1/announcements?" +:+
  "context_codes[]=course_" +:+ str course_id +:+ "&" +:+
  "start_date=" +:+ strftime_ymd (today - days_back) +:+ "&" +:+
  "end_date=" +:+ strftime_ymd today +:+ "&" +:+
  "per_page=100".

Definition front_page_url (self : agent) (course_id : value) : string :=
  base_url self +:+ "/api/v1/courses/" +:+ str course_id +:+ "/front_page".

Definition quizzes_url (self : agent) (course_id : value) : string :=
  base_url self +:+ "/api/v1/courses/" +:+ str course_id +:+ "/quizzes".

Definition modules_url (self : agent) (course_id : value) : string :=
  base_url self +:+ "/api/v1/courses/" +:+ str course_id +:+ "/modules".

(** The reading of the specification: ask for page after page, as long
    as the source names a next one (at most [fuel] pages). *)
Fixpoint follow_pages (e : env) (fuel n : nat) (url : string) : list value :=
  match fuel with
  | O => []
  | S fuel' =>
      match server e n url with
      | Reply r =>
          match content r with
          | Json (VList items) =>
              items ++ match link_next r with
                       | Some next => follow_pages e fuel' (S n) next
                       | None => []
                       end
          | _ => []
          end
      | Unreachable _ => []
      end
  end.

End SpecAgent.

Export SpecAgent.

(** Concrete Canvas servers. *)
Module DemoAgent.
Local Open Scope Z_scope.

Definition self : agent := Agent "https://canvas.test" "token".

Definition quiet (srv : nat → string → reply) : env :=
  {| CANVAS_API_TOKEN := "token";
     CANVAS_BASE_URL := "https://canvas.test/";
     server := srv;
     today := λ _, 20396;
     pool_getconn := λ _, None;
     db_execute := λ _ _ _ _, None;
     db_rollback := λ _, None;
     db_now := λ n, 1000 + Z.of_nat n |}.

Definition ok (v : value) (next : option string) : reply :=
  Reply (Response 200 "OK" "" (Json v) next).

Definition hw (n : Z) : value := VDict [("id", VInt n); ("name", VStr "Homework")].

Definition page2_url : string :=
  "https://canvas.test/api/v1/courses/7/assignments?page=2&per_page=100".

(** A course with three assignments, served two and then one. *)
Definition paging : env :=
  quiet (λ _ url,
    if decide (url = assignments_url self (VInt 7))
    then ok (VList [hw 1; hw 2]) (Some page2_url)
    else if decide (url = page2_url) then ok (VList [hw 3]) None
    else ok (VList []) None).

(** A server that answers 404 with the error body Canvas sends. *)
Definition not_found : env :=
  quiet (λ _ url,
    Reply (Response 404 "Not Found" url
             (Json (VDict [("errors",
                VList [VDict [("message",
                   VStr "The specified resource does not exist.")]])]))
             None)).

(** A server that answers 500 without a JSON body. *)
Definition broken : env :=
  quiet (λ _ url,
    Reply (Response 500 "Internal Server Error" url (NotJson "Expecting value") None)).

(** A server that answers every request with the JSON value [null]. *)
Definition null_body : env := quiet (λ _ _, ok VNone None).

End DemoAgent.

(** * Vocabulary of the statements: the run *)

Module SpecSync.
Local Open Scope Z_scope.

(** ** Frame conditions *)

(** Whatever the outcome of [m], the state it leaves is related by [R]
    to the state it started in. *)
Definition maintains {A} (R : relation state) (m : M A) : Prop :=
  ∀ st, R st (m st).2.

Definition unchanged {A} (f : state → A) : relation state :=
  λ st st', f st' = f st.

Definition preserved (P : state → Prop) : relation state :=
  λ st st', P st → P st'.

(** What the body of a persistence call does to the state: when it
    returns, it has replaced the database and printed one line that
    opens with the check mark; when it raises, it has changed nothing. *)
Definition transaction (body : M unit) : Prop :=
  ∀ st, match body st with
        | (Ok _, st') =>
            ∃ d text, st' = set_stdout (λ out, out ++ [check_mark +:+ encode text])
                              (set_db (λ _, d) st)
        | (Raise _, st') => st' = st
        end.

(** ** The report *)

Definition report (c a n f : Z) (errors : list value) : dict :=
  [("courses", VInt c); ("assignments", VInt a); ("announcements", VInt n);
   ("front_pages", VInt f); ("errors", VList errors)].

(** A report under construction: counts that are not negative, and no
    error yet. *)
Definition counting (s : dict) : Prop :=
  ∃ c a n f, s = report c a n f [] ∧ 0 ≤ c ∧ 0 ≤ a ∧ 0 ≤ n ∧ 0 ≤ f.

Abbreviation counts_kept := (preserved (λ st, counting (stats st))).

(** The entry the handlers of [sync_canvas_to_database] add for [ex]. *)
Definition error_msg (ex : exn) : string :=
  match ex with
  | CanvasAPIError _ => "Canvas API error: " +:+ exn_str ex
  | _ => "Unexpected error during sync: " +:+ exn_str ex
  end.

(** The state in which the [try] of [sync_canvas_to_database] begins,
    and the one in which [main] calls it. *)
Definition started (st : state) : state := set_stats (λ _, initial_stats) st.

Definition launched (st : state) : state :=
  started (set_log (λ l, l ++ [("INFO", "Starting Canvas sync process")]) st).

(** ** The two phases of the [try] *)

(** Up to the return of [fetch_all]: the work of the Source Client. *)
Definition source_phase (e : env) : M canvas_data :=
  logger_info "Initializing Canvas agent";;
  agent ← init e;
  logger_info "Fetching data from Canvas API";;
  fetch_all e agent.

(** From there to [return stats]. *)
Definition persist_phase (e : env) (canvas_data : canvas_data) : M dict :=
  logger_info ("Retrieved " +:+ len (courses canvas_data) +:+ " courses");;
  logger_info ("Retrieved " +:+ len (assignments canvas_data) +:+ " assignments");;
  logger_info ("Retrieved " +:+ len (announcements canvas_data) +:+ " announcements");;
  logger_info ("Retrieved " +:+ len (front_pages canvas_data) +:+ " front pages");;
  persist_all e canvas_data;;
  logger_info "Sync completed successfully";;
  s ← gets stats;
  synced ← item s "courses";
  logger_info ("Synced " +:+ str synced +:+ " courses");;
  synced ← item s "assignments";
  logger_info ("Synced " +:+ str synced +:+ " assignments");;
  synced ← item s "announcements";
  logger_info ("Synced " +:+ str synced +:+ " announcements");;
  synced ← item s "front_pages";
  logger_info ("Synced " +:+ str synced +:+ " front pages");;
  gets stats.

(** ** The records of a batch *)

Definition fields (x : value) : option dict :=
  match x with
  | VDict d => Some d
  | _ => None
  end.

(** The records the four loops hand to the persistence layer, for the
    items that have the keys the loops subscript. *)
Definition course_record (course : value) : option dict :=
  d ← fields course;
  id ← lookup_key "id" d;
  course_code ← lookup_key "course_code" d;
  name ← lookup_key "name" d;
  Some [("course_id", id); ("course_code", course_code); ("course_name", name)].

Definition assignment_record (assignment : value) : option dict :=
  d ← fields assignment;
  id ← lookup_key "id" d;
  course_id ← lookup_key "course_id" d;
  course_name ← lookup_key "course_name" d;
  Some [("assignment_id", id); ("course_id", course_id); ("course_name", course_name);
        ("name", get d "name" (VStr "Untitled"));
        ("description", get d "description" VNone);
        ("due_at", get d "due_at" VNone);
        ("points_possible", get d "points_possible" VNone);
        ("html_url", get d "html_url" VNone);
        ("submission_status", get d "submission_types" VNone)].

Definition announcement_record (announcement : value) : option dict :=
  d ← fields announcement;
  id ← lookup_key "id" d;
  course_id ← lookup_key "course_id" d;
  course_name ← lookup_key "course_name" d;
  Some [("id", id); ("course_id", course_id); ("course_name", course_name);
        ("title", get d "title" (VStr "Untitled"));
        ("message", get d "message" VNone);
        ("posted_at", get d "posted_at" VNone);
        ("html_url", get d "html_url" VNone)].

Definition front_page_record (front_page : value) : option dict :=
  d ← fields front_page;
  course_id ← lookup_key "course_id" d;
  course_name ← lookup_key "course_name" d;
  Some [("course_id", course_id); ("course_name", course_name);
        ("title", get d "title" VNone);
        ("body", get d "body" VNone);
        ("updated_at", get d "updated_at" VNone)].

Inductive batch : Type := Courses | Assignments | Announcements | FrontPages.

#[export] Instance batch_eq_dec : EqDecision batch.
Proof. solve_decision. Defined.

Definition record_of (b : batch) : value → option dict :=
  match b with
  | Courses => course_record
  | Assignments => assignment_record
  | Announcements => announcement_record
  | FrontPages => front_page_record
  end.

Definition insert_name (b : batch) : string :=
  match b with
  | Courses => "insert_course"
  | Assignments => "insert_assignment"
  | Announcements => "insert_announcement"
  | FrontPages => "insert_front_page"
  end.

Definition insert_of (b : batch) : env → dict → M bool :=
  match b with
  | Courses => insert_course
  | Assignments => insert_assignment
  | Announcements => insert_announcement
  | FrontPages => insert_front_page
  end.

Definition error_prefix (b : batch) : string :=
  match b with
  | Courses => "Error inserting course: "
  | Assignments => "Error inserting assignment: "
  | Announcements => "Error inserting announcement: "
  | FrontPages => " Error inserting front page: "
  end.

Definition counter (b : batch) : string :=
  match b with
  | Courses => "courses"
  | Assignments => "assignments"
  | Announcements => "announcements"
  | FrontPages => "front_pages"
  end.

Definition loop_body (b : batch) : env → value → M unit :=
  match b with
  | Courses => sync_course
  | Assignments => sync_assignment
  | Announcements => sync_announcement
  | FrontPages => sync_front_page
  end.

Definition items_of (b : batch) : canvas_data → list value :=
  match b with
  | Courses => courses
  | Assignments => assignments
  | Announcements => announcements
  | FrontPages => front_pages
  end.

(** A persistence call that returned: the batch, the record, the result. *)
Definition attempt : Type := batch * dict * bool.

Definition call_of (a : attempt) : string * dict * bool :=
  (insert_name a.1.1, a.1.2, a.2).

(** The calls a batch asks for, in order, when all its items have the
    keys subscripted. *)
Definition planned_batch (b : batch) (data : canvas_data) : option (list (batch * dict)) :=
  fmap (M := list) (pair b) <$> mapM (record_of b) (items_of b data).

Definition planned (data : canvas_data) : option (list (batch * dict)) :=
  c ← planned_batch Courses data;
  a ← planned_batch Assignments data;
  n ← planned_batch Announcements data;
  f ← planned_batch FrontPages data;
  Some (c ++ a ++ n ++ f).

(** How many attempts of a batch succeeded. *)
Definition succeeded (b : batch) (l : list attempt) : Z :=
  Z.of_nat (length (filter (λ a : attempt, a.1.1 = b ∧ a.2 = true) l)).

(** The line an attempt leaves on the standard output. *)
Definition reported (a : attempt) (line : string) : Prop :=
  if a.2 then ∃ text, line = check_mark +:+ encode text
  else ∃ msg, line = encode (error_prefix a.1.1 +:+ msg).

End SpecSync.

Export SpecSync.

(** A run with one course and five assignments, of which the database
    rejects the third. *)
Module DemoSync.
Local Open Scope Z_scope.

Definition algebra : value :=
  VDict [("id", VInt 7); ("name", VStr "Algebra"); ("course_code", VStr "MATH 101")].

Definition homework (n : Z) : value :=
  VDict [("id", VInt n); ("name", VStr "Homework"); ("points_possible", VInt 10)].

Definition canvas (url : string) : value :=
  if decide (url = courses_url DemoAgent.self) then VList [algebra]
  else if decide (url = assignments_url DemoAgent.self (VInt 7))
  then VList (homework <$> [1; 2; 3; 4; 5])
  else if decide (url = front_page_url DemoAgent.self (VInt 7)) then VNone
  else VList [].

Definition five : env :=
  {| CANVAS_API_TOKEN := "token";
     CANVAS_BASE_URL := "https://canvas.test/";
     server := λ _ url, DemoAgent.ok (canvas url) None;
     today := λ _, 20396;
     pool_getconn := λ _, None;
     db_execute := λ _ _ excluded _,
       if decide (excluded !! "assignment_id" = Some (Val (VInt 3)))
       then Some "new row violates check constraint"
       else None;
     db_rollback := λ _, None;
     db_now := λ n, 1000 + Z.of_nat n |}.

End DemoSync.

(** ** How the persistence part of a run can end *)

Module SpecRun.
Local Open Scope Z_scope.

(** The report after the attempts [new]: each count has grown by the
    number of attempts of its batch that returned success, the list of
    errors is as it was. *)
Definition bumped (new : list attempt) (s s' : dict) : Prop :=
  ∀ c a n f errors,
    s = report c a n f errors →
    s' = report (c + succeeded Courses new) (a + succeeded Assignments new)
           (n + succeeded Announcements new) (f + succeeded FrontPages new) errors.

(** The planned calls were cut short after the attempts [new]: the call
    for the next record did not return, because the rollback after its
    failure raised [ex]. *)
Definition stopped (e : env) (plan : list (batch * dict)) (new : list attempt)
    (ex : exn) : Prop :=
  ∃ rest n err,
    plan = new.*1 ++ rest ∧ rest ≠ [] ∧
    db_rollback e n = Some err ∧ ex = DatabaseError err.

(** From [st], the calls of [plan] were made in order and ended with
    [r] in [st']. *)
Definition persisted (e : env) (plan : list (batch * dict)) (st : state)
    (r : result unit) (st' : state) : Prop :=
  ∃ (new : list attempt) lines,
    calls st' = calls st ++ (call_of <$> new) ∧
    stdout st' = stdout st ++ lines ∧ Forall2 reported new lines ∧
    bumped new (stats st) (stats st') ∧
    match r with
    | Ok _ => new.*1 = plan
    | Raise ex => stopped e plan new ex
    end.

End SpecRun.

Export SpecRun.

(** The run of [DemoSync.five] over a database connection that breaks
    with the rejected statement: the rollback raises too. *)
Module DemoStuck.
Local Open Scope Z_scope.

Definition five_stuck : env :=
  {| CANVAS_API_TOKEN := "token";
     CANVAS_BASE_URL := "https://canvas.test/";
     server := server DemoSync.five;
     today := today DemoSync.five;
     pool_getconn := λ _, None;
     db_execute := db_execute DemoSync.five;
     db_rollback := λ _, Some "connection already closed";
     db_now := db_now DemoSync.five |}.

End DemoStuck.

(** * Vocabulary of the further statements *)

Module SpecMore.
Local Open Scope Z_scope.

(** The keys an [insert_*] function subscripts or binds: without one of
    them it cannot succeed. *)
Definition required (b : batch) : list string :=
  match b with
  | Courses => ["course_id"; "course_code"; "course_name"]
  | Assignments => ["assignment_id"; "course_id"; "course_name"; "name"]
  | Announcements => ["id"; "course_id"; "course_name"]
  | FrontPages => ["course_id"; "course_name"]
  end.

Definition query_of (b : batch) : upsert :=
  match b with
  | Courses => courses_query
  | Assignments => assignments_query
  | Announcements => announcements_query
  | FrontPages => front_pages_query
  end.

(** The parameters bound to the statement. *)
Definition params_of (b : batch) (data : dict) : result dict :=
  match b with
  | Courses => Ok data
  | Assignments => assignment_query_data data
  | Announcements => announcement_query_data data
  | FrontPages => front_page_query_data data
  end.

(** The fields that enter the fingerprint. *)
Definition hash_data_of (k : entity) : dict → dict :=
  match k with
  | Assignment => assignment_hash_data
  | Announcement => announcement_hash_data
  | FrontPage => front_page_hash_data
  end.

Definition hashed_fields (k : entity) : list string :=
  match k with
  | Assignment => ["name"; "due_at"; "description"; "points_possible"]
  | Announcement => ["title"; "message"; "posted_at"]
  | FrontPage => ["title"; "body"; "updated_at"]
  end.

(** The key of the input under which the identity of the record is
    found. *)
Definition identity_key (b : batch) : string :=
  match b with
  | Courses => "course_id"
  | Assignments => "assignment_id"
  | Announcements => "id"
  | FrontPages => "course_id"
  end.

(** No two rows of the table carry the same value in the column. *)
Definition unique_key (col : string) (rows : list row) : Prop :=
  ∀ key, (count_rows col key rows ≤ 1)%nat.

(** The rows of another identity, in order. *)
Definition others (col : string) (key : option cell) (rows : list row) : list row :=
  filter (λ r, r !! col ≠ key) rows.

(** What [get_active_courses] keeps of a course of the response. *)
Definition course_of (item course : value) : Prop :=
  ∃ d id,
    item = VDict d ∧ lookup_key "id" d = Some id ∧
    course = VDict [("id", id); ("name", get d "name" (VStr "Unnamed Course"));
                    ("course_code", get d "course_code" (VStr "N/A"))].

End SpecMore.

Export SpecMore.

(** A store that holds one course, and the record of another. *)
Module DemoMore.
Local Open Scope Z_scope.

Definition geometry_row : row :=
  list_to_map
    [("course_id", Val (VInt 8)); ("course_code", Val (VStr "MATH 102"));
     ("course_name", Val (VStr "Geometry")); ("last_synced_at", Time 7)].

Definition one_course : database := {[ "courses" := [geometry_row] ]}.

Definition algebra_record : dict :=
  [("course_id", VInt 7); ("course_code", VStr "MATH 101");
   ("course_name", VStr "Algebra")].

Definition geometry_record : dict :=
  [("course_id", VInt 8); ("course_code", VStr "MATH 102");
   ("course_name", VStr "Geometry and Topology")].

(** A Canvas server whose only course has neither name nor code. *)
Definition unnamed : env :=
  DemoAgent.quiet (λ _ _, DemoAgent.ok (VList [VDict [("id", VInt 9)]]) None).

End DemoMore.

(** * Vocabulary of the statements: the text that is hashed *)

Module SpecText.

(** The bytes [generate_content_hash] hands to SHA-256. *)
Definition canonical (data : dict) : string := encode (repr_items (sorted_items data)).

(** Two different messages with the same digest. *)
Definition collision (m1 m2 : string) : Prop :=
  m1 ≠ m2 ∧ Sha256.hexdigest m1 = Sha256.hexdigest m2.

(** The text [repr] gives for a float: digits with a point or an
    exponent, or one of [inf], [-inf], [nan].  It is made of the
    characters below and has a point, an [e] or an [n]. *)
Definition float_char (c : ascii) : bool := contains_char c "0123456789+-.einfa".

Fixpoint all_chars (p : ascii → bool) (s : string) : bool :=
  match s with
  | "" => true
  | String c s' => p c && all_chars p s'
  end.

Definition float_text (t : string) : bool :=
  all_chars float_char t &&
  (contains_char "." t || contains_char "e" t || contains_char "n" t).

(** JSON data whose floats carry such a text. *)
Fixpoint well_formed (v : value) : bool :=
  match v with
  | VFloat t => float_text t
  | VList l => forallb well_formed l
  | VDict d => forallb (λ kv, well_formed kv.2) d
  | _ => true
  end.

(** The characters that can follow a value inside the text of a list, a
    dictionary or a tuple. *)
Definition closing (c : ascii) : bool := contains_char c ",]})".

Definition delimited (r : string) : Prop :=
  ∃ c r', r = String c r' ∧ closing c = true.

(** The characters of the text of an integer. *)
Definition int_char (c : ascii) : bool := contains_char c "0123456789-".

(** What a value is, and what the first character of its text says it
    is. *)
Inductive kind : Type := KNone | KBool | KNumber | KStr | KList | KDict.

#[export] Instance kind_eq_dec : EqDecision kind.
Proof. solve_decision. Defined.

Definition kind_of (v : value) : kind :=
  match v with
  | VNone => KNone
  | VBool _ => KBool
  | VInt _ | VFloat _ => KNumber
  | VStr _ => KStr
  | VList _ => KList
  | VDict _ => KDict
  end.

Definition kind_of_char (c : ascii) : option kind :=
  if decide (c = "N"%char) then Some KNone
  else if contains_char c "TF" then Some KBool
  else if float_char c then Some KNumber
  else if decide (c = "'"%char) then Some KStr
  else if decide (c = double_quote) then Some KStr
  else if decide (c = "["%char) then Some KList
  else if decide (c = "{"%char) then Some KDict
  else None.

(** The 256 characters. *)
Definition all_ascii : list ascii := (λ n, ascii_of_nat n) <$> seq 0 256.

(** [code] maps different characters to texts neither of which begins
    the other, and no character to the empty text. *)
Definition prefix_code (code : ascii → string) : bool :=
  forallb (λ c1,
    negb (bool_decide (code c1 = "")) &&
    forallb (λ c2, bool_decide (c1 = c2) || negb (startswith (code c1) (code c2)))
      all_ascii)
    all_ascii.

End SpecText.

Export SpecText.
(** * Induction on nested values *)

Lemma value_ind' (P : value → Prop) :
  P VNone → (∀ b, P (VBool b)) → (∀ n, P (VInt n)) → (∀ t, P (VFloat t)) →
  (∀ s, P (VStr s)) →
  (∀ l, Forall P l → P (VList l)) →
  (∀ d, Forall (λ kv, P kv.2) d → P (VDict d)) →
  ∀ v, P v.
Proof.
  intros HN HB HI HF HS HL HD.
  apply (value_rect' P (Forall P) (Forall (λ kv, P kv.2))); auto.
Qed.

(** * Test vectors *)

Example sha256_abc :
  Sha256.hexdigest "abc"
  = "ba7816bf8f01cfea414140de5dae2223b00361a396177a9cb410ff61f20015ad".
Proof. vm_compute. reflexivity. Qed.

Example sha256_empty :
  Sha256.hexdigest ""
  = "e3b0c44298fc1c149afbf4c8996fb92427ae41e4649b934ca495991b7852b855".
Proof. vm_compute. reflexivity. Qed.

Example sha256_two_blocks :
  Sha256.hexdigest "abcdbcdecdefdefgefghfghighijhijkijkljklmklmnlmnomnopnopq"
  = "248d6a61d20638b8e5c026930c3e6039a33ce45964ff2167f6ecedd419db06c1".
Proof. vm_compute. reflexivity. Qed.

Example content_string_example :
  repr_items (sorted_items
    [("name", VStr "HW1"); ("due_at", VNone); ("description", VStr "d");
     ("points_possible", VInt 10)])
  = "[('description', 'd'), ('due_at', None), ('name', 'HW1'), ('points_possible', 10)]".
Proof. vm_compute. reflexivity. Qed.

Example generate_content_hash_example :
  generate_content_hash
    [("name", VStr "HW1"); ("due_at", VNone); ("description", VStr "d");
     ("points_possible", VInt 10)]
  = "2535b6045966a44939ef0a964cc4f64f4bea67a8f23d6903c1b94ea4f2cf260a".
Proof. vm_compute. reflexivity. Qed.

Example repr_str_quotes :
  repr_str "a'b" = String double_quote ("a'b" +:+ String double_quote "") ∧
  repr_str "plain" = "'plain'".
Proof. split; reflexivity. Qed.

(** * Facts about the fingerprint *)

Section sorted_items.

#[local] Instance item_le_trans : Transitive item_le.
Proof. intros x y z. unfold item_le. apply transitivity. Qed.

#[local] Instance item_le_total : Total item_le.
Proof. intros x y. unfold item_le. apply (total String.le). Qed.

(** Two items of a dictionary with the same key are the same item. *)
Lemma same_key_same_item (d : dict) x y :
  NoDup (keys d) → x ∈ d → y ∈ d → x.1 = y.1 → x = y.
Proof.
  unfold keys. induction d as [|z d IH]; intros Hnd Hx Hy Hk; [by inv Hx|].
  rewrite fmap_cons in Hnd. apply NoDup_cons in Hnd as [Hz Hnd].
  inv Hx; inv Hy; try done.
  - exfalso. apply Hz. rewrite Hk. by apply list_elem_of_fmap_2.
  - exfalso. apply Hz. rewrite <-Hk. by apply list_elem_of_fmap_2.
  - by apply IH.
Qed.

Lemma sorted_items_permutation (d1 d2 : dict) :
  NoDup (keys d1) → d1 ≡ₚ d2 → sorted_items d1 = sorted_items d2.
Proof.
  intros Hnd Hp. unfold sorted_items.
  apply (Sorted_unique_strong item_le).
  - intros x1 x2 Hx1 Hx2 H12 H21.
    rewrite merge_sort_Permutation in Hx1, Hx2. rewrite <-Hp in Hx2.
    apply (same_key_same_item d1); [done..|].
    by apply (anti_symm String.le).
  - apply Sorted_merge_sort; apply _.
  - apply Sorted_merge_sort; apply _.
  - by rewrite !merge_sort_Permutation.
Qed.

End sorted_items.

Module Sha256Facts.
Import Sha256.
Local Open Scope Z_scope.

Lemma add32_word a b : word (add32 a b).
Proof. unfold word, add32. apply Z.mod_pos_bound. lia. Qed.

Lemma compress_in_range hv block : in_range (compress hv block).
Proof.
  unfold compress.
  destruct (fold_left round _ hv) as [[[[[[[a b] c] d] e] f] g] h].
  destruct hv as [[[[[[[a0 b0] c0] d0] e0] f0] g0] h0].
  unfold in_range, words. repeat constructor; apply add32_word.
Qed.

Lemma H0_in_range : in_range H0.
Proof. unfold in_range, H0, words, word. repeat constructor; lia. Qed.

Lemma fold_left_invariant {A B} (P : A → Prop) (f : A → B → A) l a :
  P a → (∀ a b, P a → P (f a b)) → P (fold_left f l a).
Proof.
  intros Ha Hf. revert a Ha. induction l as [|b l IH]; intros a Ha; [exact Ha|].
  simpl. apply IH, Hf, Ha.
Qed.

Lemma sha256_in_range msg : in_range (sha256 msg).
Proof.
  unfold sha256. apply (fold_left_invariant in_range compress).
  - apply H0_in_range.
  - intros hv b _. apply compress_in_range.
Qed.

Lemma words_length hv : length (words hv) = 8%nat.
Proof. by destruct hv as [[[[[[[a b] c] d] e] f] g] h]. Qed.

Lemma number_bound ws : Forall word ws → 0 ≤ number ws < 2 ^ (32 * Z.of_nat (length ws)).
Proof.
  unfold word. induction 1 as [|w ws Hw _ IH]; simpl length; simpl number; [lia|].
  replace (32 * Z.of_nat (S (length ws))) with (32 + 32 * Z.of_nat (length ws)) by lia.
  rewrite Z.pow_add_r by lia. nia.
Qed.

Lemma number_inj ws1 ws2 :
  Forall word ws1 → Forall word ws2 → length ws1 = length ws2 →
  number ws1 = number ws2 → ws1 = ws2.
Proof.
  unfold word. intros H1. revert ws2.
  induction H1 as [|w1 ws1 Hw1 _ IH]; intros [|w2 ws2] H2 Hlen Hnum; try done.
  inv H2. simpl in Hnum, Hlen.
  assert (w1 = w2) as -> by nia.
  f_equal. apply IH; [done|lia|nia].
Qed.

Lemma hexdigest_of_words m1 m2 :
  words (sha256 m1) = words (sha256 m2) → hexdigest m1 = hexdigest m2.
Proof. unfold hexdigest. by intros ->. Qed.

Lemma hexdigit_lower n : (n < 16)%N → hexdigit n ∈ list_ascii_of_string "0123456789abcdef".
Proof.
  intros Hn.
  assert (n ∈ N.of_nat <$> seq 0 16) as Hin.
  { apply list_elem_of_fmap. exists (N.to_nat n). split; [lia|]. apply elem_of_seq. lia. }
  simpl in Hin. repeat (apply elem_of_cons in Hin as [->|Hin]; [vm_compute; set_solver|]).
  by apply elem_of_nil in Hin.
Qed.

Lemma hex8_length w : String.length (hex8 w) = 8%nat.
Proof. reflexivity. Qed.

Lemma string_length_app (s1 s2 : string) :
  String.length (s1 +:+ s2) = (String.length s1 + String.length s2)%nat.
Proof. induction s1; simpl; auto. Qed.

Lemma hex_words_length (ws : list Z) :
  String.length (foldr (λ w acc, hex8 w +:+ acc) "" ws) = (8 * length ws)%nat.
Proof.
  induction ws as [|w ws IH]; [reflexivity|].
  cbn [foldr length]. rewrite string_length_app, hex8_length, IH. lia.
Qed.

Lemma hexdigest_length msg : String.length (hexdigest msg) = 64%nat.
Proof. unfold hexdigest. rewrite hex_words_length, words_length. reflexivity. Qed.

End Sha256Facts.

(** Among more values than there are digests, two collide. *)
Section pigeonhole.
Local Open Scope Z_scope.

Lemma bounded_search (f : Z → Z) (v : Z) n :
  0 ≤ n → (∃ i, 0 ≤ i < n ∧ f i = v) ∨ (∀ i, 0 ≤ i < n → f i ≠ v).
Proof.
  intros Hn. pattern n. apply natlike_ind; [| |done].
  - right. lia.
  - intros m Hm [(i & Hi & Hf)|Hnone].
    + left. exists i. split; [lia|done].
    + destruct (decide (f m = v)) as [Heq|Hne].
      * left. exists m. split; [lia|done].
      * right. intros i Hi. destruct (decide (i = m)) as [->|]; [done|]. apply Hnone. lia.
Qed.

Lemma pigeonhole n :
  0 ≤ n → ∀ f : Z → Z, (∀ i, 0 ≤ i ≤ n → 0 ≤ f i < n) →
  ∃ i j, (0 ≤ i ∧ i < j ∧ j ≤ n) ∧ f i = f j.
Proof.
  intros Hn. pattern n. apply natlike_ind; [| |done].
  - intros f Hf. specialize (Hf 0). lia.
  - clear n Hn. intros n Hn IH f Hf.
    destruct (bounded_search f (f (Z.succ n)) (Z.succ n)) as [(i & Hi & Heq)|Hnone]; [lia| |].
    { exists i, (Z.succ n). split; [lia|done]. }
    destruct (IH (λ i, if f i <? f (Z.succ n) then f i else f i - 1))
      as (i & j & Hij & Heq).
    { intros i Hi. pose proof (Hf i). pose proof (Hnone i).
      pose proof (Hf (Z.succ n)). destruct (Z.ltb_spec (f i) (f (Z.succ n))); lia. }
    exists i, j. split; [lia|].
    pose proof (Hnone i). pose proof (Hnone j).
    destruct (Z.ltb_spec (f i) (f (Z.succ n))), (Z.ltb_spec (f j) (f (Z.succ n))); lia.
Qed.

End pigeonhole.

Import Sha256 Sha256Facts.

Lemma collision_exists (text : Z → string) :
  ∃ i j : Z, (0 ≤ i ∧ i < j ∧ j ≤ 2 ^ 256)%Z ∧ hexdigest (text i) = hexdigest (text j).
Proof.
  destruct (pigeonhole (2^256) ltac:(lia) (λ i, number (words (sha256 (text i)))))
    as (i & j & Hij & Heq).
  { intros i _. pose proof (number_bound _ (sha256_in_range (text i))) as Hb.
    rewrite words_length in Hb. exact Hb. }
  exists i, j. split; [exact Hij|]. apply hexdigest_of_words.
  apply number_inj; [apply sha256_in_range..| |done].
  by rewrite !words_length.
Qed.


(** ** The fingerprint *)

Lemma list_ascii_app (s1 s2 : string) :
  list_ascii_of_string (s1 +:+ s2) = list_ascii_of_string s1 ++ list_ascii_of_string s2.
Proof. induction s1 as [|c s1 IH]; simpl; [done|]. by rewrite IH. Qed.

Lemma hex8_lower w : hex_lower (hex8 w).
Proof.
  unfold hex_lower, hex8. rewrite list_ascii_of_string_of_list_ascii.
  apply Forall_fmap, Forall_forall. intros i _. simpl.
  apply hexdigit_lower.
  pose proof (Z.mod_pos_bound (w / 2 ^ (4 * i)) 16 ltac:(lia)). lia.
Qed.

Lemma hexdigest_lower msg : hex_lower (hexdigest msg).
Proof.
  unfold hexdigest. induction (words (sha256 msg)) as [|w ws IH]; [constructor|].
  cbn [foldr]. unfold hex_lower. rewrite list_ascii_app.
  apply Forall_app. split; [apply hex8_lower|exact IH].
Qed.


(** * The text that is hashed determines the mapping *)

Section canonical_text.
Local Arguments String.append !_ _ / : simpl nomatch.

(** ** Texts *)

Lemma str_app_assoc (a b c : string) : (a +:+ b) +:+ c = a +:+ (b +:+ c).
Proof. induction a as [|x a IH]; simpl; [done|]. by rewrite IH. Qed.

Lemma str_app_nil_r (a : string) : a +:+ "" = a.
Proof. induction a as [|x a IH]; simpl; [done|]. by rewrite IH. Qed.

Lemma str_app_inv_head (a b c : string) : a +:+ b = a +:+ c → b = c.
Proof. induction a as [|x a IH]; simpl; [done|]. intros [= H]. by apply IH. Qed.

Lemma startswith_app p r : startswith p (p +:+ r) = true.
Proof.
  induction p as [|x p IH]; simpl; [by destruct r|]. by rewrite decide_True.
Qed.

Lemma app_eq_startswith (a b r1 r2 : string) :
  a +:+ r1 = b +:+ r2 → startswith a b = true ∨ startswith b a = true.
Proof.
  revert b. induction a as [|x a IH]; intros b H.
  - left. by destruct b.
  - destruct b as [|y b]; [by right|].
    simpl in H. injection H as -> H. simpl. rewrite !decide_True by done.
    by apply IH.
Qed.

(** Cutting a text where the characters of a class end. *)
Lemma span_eq (p : ascii → bool) (s1 s2 r1 r2 : string) c1 c2 :
  all_chars p s1 = true → all_chars p s2 = true → p c1 = false → p c2 = false →
  s1 +:+ String c1 r1 = s2 +:+ String c2 r2 → s1 = s2 ∧ String c1 r1 = String c2 r2.
Proof.
  intros H1 H2 Hc1 Hc2. revert s2 H2.
  induction s1 as [|x s1 IH]; intros [|y s2] H2 H; simpl in *.
  - done.
  - injection H as -> _. apply andb_true_iff in H2 as [? _]. congruence.
  - injection H as -> _. apply andb_true_iff in H1 as [? _]. congruence.
  - injection H as -> H.
    apply andb_true_iff in H1 as [_ H1]. apply andb_true_iff in H2 as [_ H2].
    destruct (IH H1 s2 H2 H) as [-> ?]. done.
Qed.

(** ** Prefix codes *)

Lemma elem_of_all_ascii c : c ∈ all_ascii.
Proof.
  unfold all_ascii. apply list_elem_of_fmap. exists (nat_of_ascii c).
  split; [by rewrite ascii_nat_embedding|].
  apply elem_of_seq. pose proof (nat_ascii_bounded c). lia.
Qed.

Lemma prefix_code_nonempty code c : prefix_code code = true → code c ≠ "".
Proof.
  unfold prefix_code. rewrite forallb_forall. intros H.
  specialize (H c (proj1 (list_elem_of_In _ _) (elem_of_all_ascii c))).
  apply andb_true_iff in H as [H _]. apply negb_true_iff in H.
  by apply bool_decide_eq_false in H.
Qed.

Lemma prefix_code_head code c1 c2 r1 r2 :
  prefix_code code = true → code c1 +:+ r1 = code c2 +:+ r2 → c1 = c2.
Proof.
  unfold prefix_code. rewrite forallb_forall. intros H Heq.
  assert (∀ a b, startswith (code a) (code b) = true → a = b) as Hpre.
  { intros a b Hs.
    specialize (H a (proj1 (list_elem_of_In _ _) (elem_of_all_ascii a))).
    apply andb_true_iff in H as [_ H]. rewrite forallb_forall in H.
    specialize (H b (proj1 (list_elem_of_In _ _) (elem_of_all_ascii b))).
    apply orb_true_iff in H as [H|H]; [by apply bool_decide_eq_true in H|].
    by rewrite Hs in H. }
  destruct (app_eq_startswith _ _ _ _ Heq) as [Hs|Hs]; [|symmetry]; by apply Hpre.
Qed.

Lemma encode_char_code : prefix_code encode_char = true.
Proof. vm_compute. reflexivity. Qed.

Lemma encode_inj s1 s2 : encode s1 = encode s2 → s1 = s2.
Proof.
  revert s2. induction s1 as [|c1 s1 IH]; intros [|c2 s2] H; simpl in H.
  - done.
  - exfalso. pose proof (prefix_code_nonempty _ c2 encode_char_code).
    destruct (encode_char c2); [done|discriminate H].
  - exfalso. pose proof (prefix_code_nonempty _ c1 encode_char_code).
    destruct (encode_char c1); [done|discriminate H].
  - pose proof (prefix_code_head _ _ _ _ _ encode_char_code H) as ->.
    apply str_app_inv_head in H. by rewrite (IH s2 H).
Qed.

(** ** The text of a [str] *)

Lemma repr_quote_cases s : repr_quote s = "'"%char ∨ repr_quote s = double_quote.
Proof. unfold repr_quote. destruct (_ && _); auto. Qed.

Lemma repr_char_code q :
  q = "'"%char ∨ q = double_quote → prefix_code (repr_char q) = true.
Proof. intros [->| ->]; vm_compute; reflexivity. Qed.

Lemma repr_char_no_quote q c r :
  q = "'"%char ∨ q = double_quote → ∀ s, repr_char q c +:+ s ≠ String q r.
Proof.
  intros Hq s H.
  assert (forallb (λ c, negb (startswith (String q "") (repr_char q c))) all_ascii = true)
    as Hall by (destruct Hq as [->| ->]; vm_compute; reflexivity).
  rewrite forallb_forall in Hall.
  specialize (Hall c (proj1 (list_elem_of_In _ _) (elem_of_all_ascii c))).
  apply negb_true_iff in Hall.
  pose proof (prefix_code_nonempty _ c (repr_char_code q Hq)) as Hne.
  destruct (repr_char q c) as [|x w]; [done|].
  simpl in H. injection H as -> _. simpl in Hall. by rewrite decide_True in Hall.
Qed.

Lemma repr_chars_inj q s1 s2 r1 r2 :
  q = "'"%char ∨ q = double_quote →
  repr_chars q s1 +:+ String q r1 = repr_chars q s2 +:+ String q r2 →
  s1 = s2 ∧ r1 = r2.
Proof.
  intros Hq. revert s2. induction s1 as [|c1 s1 IH]; intros [|c2 s2] H; simpl in H.
  - by injection H as ->.
  - exfalso. rewrite str_app_assoc in H. symmetry in H.
    by apply repr_char_no_quote in H.
  - exfalso. rewrite str_app_assoc in H. by apply repr_char_no_quote in H.
  - rewrite !str_app_assoc in H.
    pose proof (prefix_code_head _ _ _ _ _ (repr_char_code q Hq) H) as ->.
    apply str_app_inv_head in H. destruct (IH s2 H) as [-> ->]. done.
Qed.

Lemma repr_str_delimited s1 s2 r1 r2 :
  repr_str s1 +:+ r1 = repr_str s2 +:+ r2 → s1 = s2 ∧ r1 = r2.
Proof.
  unfold repr_str. simpl. intros H. injection H as Hq H.
  rewrite <-Hq in H. rewrite !str_app_assoc in H. simpl in H.
  eapply repr_chars_inj; [apply repr_quote_cases|exact H].
Qed.

(** ** The text of a number *)

Lemma uint_text_digits d : all_chars int_char (NilEmpty.string_of_uint d) = true.
Proof. induction d; simpl; try done; by rewrite IHd. Qed.

Lemma repr_int_chars n : all_chars int_char (repr_int n) = true.
Proof.
  unfold repr_int, NilZero.string_of_int, NilZero.string_of_uint.
  destruct (Z.to_int n) as [d|d]; destruct d; try done;
    simpl; try rewrite uint_text_digits; done.
Qed.

Lemma repr_int_inj n m : repr_int n = repr_int m → n = m.
Proof.
  unfold repr_int. intros H.
  assert (∀ z, Z.to_int z ≠ Decimal.Pos Decimal.Nil ∧ Z.to_int z ≠ Decimal.Neg Decimal.Nil)
    as Hnonnil.
  { intros z. split; destruct z as [|p|p]; simpl; intros Hz; try discriminate Hz;
      injection Hz; apply DecimalPos.Unsigned.to_uint_nonnil. }
  assert (Some (Z.to_int n) = Some (Z.to_int m)) as Heq.
  { rewrite <-(NilZero.isi (Z.to_int n)), <-(NilZero.isi (Z.to_int m))
      by apply Hnonnil. by rewrite H. }
  injection Heq as Heq.
  by rewrite <-(DecimalZ.of_to n), <-(DecimalZ.of_to m), Heq.
Qed.

Lemma all_chars_impl (p q : ascii → bool) s :
  (∀ c, p c = true → q c = true) → all_chars p s = true → all_chars q s = true.
Proof.
  intros Hpq. induction s as [|c s IH]; simpl; [done|].
  intros [? ?]%andb_true_iff. rewrite Hpq, IH; done.
Qed.

Lemma all_chars_contains (p : ascii → bool) x s :
  p x = false → all_chars p s = true → contains_char x s = false.
Proof.
  intros Hx. induction s as [|c s IH]; simpl; [done|].
  intros [Hc Hs]%andb_true_iff. destruct (decide (c = x)) as [->|]; [congruence|auto].
Qed.

(** A fact about every character, checked on each. *)
Lemma for_all_ascii (p : ascii → bool) :
  forallb p all_ascii = true → ∀ c, p c = true.
Proof.
  rewrite forallb_forall. intros H c.
  apply H, list_elem_of_In, elem_of_all_ascii.
Qed.

Lemma int_char_float_char c : int_char c = true → float_char c = true.
Proof.
  assert (forallb (λ c, implb (int_char c) (float_char c)) all_ascii = true) as Hall
    by (vm_compute; reflexivity).
  pose proof (for_all_ascii _ Hall c) as H.
  simpl in H. intros Hc. by rewrite Hc in H.
Qed.

Lemma float_char_kind c : float_char c = true → kind_of_char c = Some KNumber.
Proof.
  assert (forallb (λ c, implb (float_char c) (bool_decide (kind_of_char c = Some KNumber))) all_ascii = true) as Hall
    by (vm_compute; reflexivity).
  pose proof (for_all_ascii _ Hall c) as H.
  simpl in H. intros Hc. rewrite Hc in H. by apply bool_decide_eq_true in H.
Qed.

Lemma closing_not_float c : closing c = true → float_char c = false.
Proof.
  assert (forallb (λ c, implb (closing c) (negb (float_char c))) all_ascii = true) as Hall
    by (vm_compute; reflexivity).
  pose proof (for_all_ascii _ Hall c) as H.
  simpl in H. intros Hc. rewrite Hc in H. by apply negb_true_iff in H.
Qed.

Lemma closing_no_kind c : closing c = true → kind_of_char c = None.
Proof.
  assert (forallb (λ c, implb (closing c) (bool_decide (kind_of_char c = None))) all_ascii = true) as Hall
    by (vm_compute; reflexivity).
  pose proof (for_all_ascii _ Hall c) as H.
  simpl in H. intros Hc. rewrite Hc in H. by apply bool_decide_eq_true in H.
Qed.

Lemma repr_int_float_chars n : all_chars float_char (repr_int n) = true.
Proof. eapply all_chars_impl; [apply int_char_float_char|apply repr_int_chars]. Qed.

Lemma repr_int_not_float n : float_text (repr_int n) = false.
Proof.
  unfold float_text. pose proof (repr_int_chars n) as H.
  rewrite (all_chars_contains int_char "." _ eq_refl H),
    (all_chars_contains int_char "e" _ eq_refl H),
    (all_chars_contains int_char "n" _ eq_refl H).
  by rewrite andb_false_r.
Qed.

Lemma float_text_chars t : float_text t = true → all_chars float_char t = true.
Proof. unfold float_text. by intros [? _]%andb_true_iff. Qed.

Lemma number_delimited (s1 s2 r1 r2 : string) :
  all_chars float_char s1 = true → all_chars float_char s2 = true →
  delimited r1 → delimited r2 →
  s1 +:+ r1 = s2 +:+ r2 → s1 = s2 ∧ r1 = r2.
Proof.
  intros H1 H2 (c1 & r1' & -> & Hc1) (c2 & r2' & -> & Hc2).
  apply span_eq with float_char; auto using closing_not_float.
Qed.

(** ** The first character of the text of a value *)

Lemma all_chars_head (p : ascii → bool) c s : all_chars p (String c s) = true → p c = true.
Proof. simpl. by intros [? _]%andb_true_iff. Qed.

Lemma repr_int_nonempty n : repr_int n ≠ "".
Proof.
  unfold repr_int, NilZero.string_of_int, NilZero.string_of_uint.
  destruct (Z.to_int n) as [d|d]; by destruct d.
Qed.

Lemma float_text_nonempty t : float_text t = true → t ≠ "".
Proof. by intros H ->. Qed.

Lemma repr_kind v :
  well_formed v = true →
  ∃ c s, repr v = String c s ∧ kind_of_char c = Some (kind_of v).
Proof.
  destruct v as [ |b|n|t|s|l|d]; simpl; intros Hwf.
  - by eexists _, _.
  - destruct b; by eexists _, _.
  - pose proof (repr_int_nonempty n). pose proof (repr_int_float_chars n) as Hc.
    destruct (repr_int n) as [|c s]; [done|].
    exists c, s. split; [done|]. by apply float_char_kind, (all_chars_head _ _ s).
  - pose proof (float_text_nonempty t Hwf). apply float_text_chars in Hwf.
    destruct t as [|c s]; [done|].
    exists c, s. split; [done|]. by apply float_char_kind, (all_chars_head _ _ s).
  - unfold repr_str. eexists _, _. split; [reflexivity|].
    by destruct (repr_quote_cases s) as [->| ->].
  - by eexists _, _.
  - by eexists _, _.
Qed.

Lemma repr_same_kind v v' r r' :
  well_formed v = true → well_formed v' = true →
  repr v +:+ r = repr v' +:+ r' → kind_of v = kind_of v'.
Proof.
  intros (c & s & -> & Hk)%repr_kind (c' & s' & -> & Hk')%repr_kind H.
  simpl in H. injection H as -> _. congruence.
Qed.

Lemma repr_not_closing v c s :
  well_formed v = true → closing c = true → repr v ≠ String c s.
Proof.
  intros (c' & s' & -> & Hk)%repr_kind Hc [= -> _].
  by rewrite (closing_no_kind _ Hc) in Hk.
Qed.

(** ** Texts joined by commas *)

Lemma join_cons_app sep p ps r :
  join sep (p :: ps) +:+ r
  = p +:+ match ps with
          | [] => r
          | _ => sep +:+ (join sep ps +:+ r)
          end.
Proof. destruct ps; [done|]. cbn [join]. by rewrite !str_app_assoc. Qed.

Section join.
Context {A : Type} (text : A → string) (close : ascii) (ok : A → Prop).
Hypothesis close_closing : closing close = true.
Hypothesis close_not_comma : close ≠ ","%char.
Hypothesis text_head : ∀ a s, ok a → text a ≠ "" ∧ text a ≠ String close s.

Lemma join_delimited l :
  Forall (λ a, ∀ a' r r', ok a' → delimited r → delimited r' →
                          text a +:+ r = text a' +:+ r' → a = a' ∧ r = r') l →
  Forall ok l →
  ∀ l' r r', Forall ok l' →
             join ", " (map text l) +:+ String close r
             = join ", " (map text l') +:+ String close r' →
             l = l' ∧ r = r'.
Proof.
  assert (∀ a x y, ok a → text a +:+ x ≠ String close y) as Hhead.
  { intros a x y Ha H. pose proof (λ s, text_head a s Ha) as Hth.
    destruct (text a) as [|c s]; [by destruct (Hth "")|].
    simpl in H. injection H as -> _. by destruct (Hth s). }
  induction 1 as [|a l Ha _ IH]; intros Hok l' r r' Hok' H.
  - destruct l' as [|a' l'].
    + simpl in H. by injection H as ->.
    + exfalso. apply Forall_cons in Hok' as [Ha' _].
      change (map text (a' :: l')) with (text a' :: map text l') in H.
      rewrite join_cons_app in H. symmetry in H. by apply Hhead in H.
  - apply Forall_cons in Hok as [Hoka Hok].
    change (map text (a :: l)) with (text a :: map text l) in H.
    rewrite join_cons_app in H.
    destruct l' as [|a' l'].
    { exfalso. simpl in H. by apply Hhead in H. }
    apply Forall_cons in Hok' as [Hoka' Hok'].
    change (map text (a' :: l')) with (text a' :: map text l') in H.
    rewrite join_cons_app in H.
    apply Ha in H as [-> H]; [|done| |].
    + destruct l as [|b l], l' as [|b' l']; simpl map in H.
      * by injection H as ->.
      * simpl in H. injection H as Hc _. by destruct close_not_comma.
      * simpl in H. injection H as Hc _. by destruct close_not_comma.
      * simpl in H. injection H as H.
        change (text b :: map text l) with (map text (b :: l)) in H.
        change (text b' :: map text l') with (map text (b' :: l')) in H.
        destruct (IH Hok _ _ _ Hok' H) as [-> ->]. done.
    + destruct (map text l); [by eexists _, _|].
      eexists _, _. split; [reflexivity|done].
    + destruct (map text l'); [by eexists _, _|].
      eexists _, _. split; [reflexivity|done].
Qed.

End join.

(** ** The text of a value determines the value *)

Lemma well_formed_list l : well_formed (VList l) = true → Forall (λ v, well_formed v = true) l.
Proof. simpl. rewrite forallb_forall, Forall_forall. intros H v Hv. by apply H, list_elem_of_In. Qed.

Lemma well_formed_dict d :
  well_formed (VDict d) = true → Forall (λ kv, well_formed kv.2 = true) d.
Proof. simpl. rewrite forallb_forall, Forall_forall. intros H v Hv. by apply H, list_elem_of_In. Qed.

Lemma entry_delimited (kv kv' : string * value) r r' :
  (∀ v' r r', well_formed v' = true → delimited r → delimited r' →
              repr kv.2 +:+ r = repr v' +:+ r' → kv.2 = v' ∧ r = r') →
  well_formed kv'.2 = true → delimited r → delimited r' →
  (repr_str kv.1 +:+ ": " +:+ repr kv.2) +:+ r
  = (repr_str kv'.1 +:+ ": " +:+ repr kv'.2) +:+ r' →
  kv = kv' ∧ r = r'.
Proof.
  destruct kv as [k v], kv' as [k' v']. cbn [fst snd]. intros IH Hwf Hr Hr' H.
  rewrite !str_app_assoc in H. apply repr_str_delimited in H as [-> H].
  simpl in H. injection H as H.
  by destruct (IH v' r r' Hwf Hr Hr' H) as [-> ->].
Qed.

Lemma repr_delimited v :
  well_formed v = true →
  ∀ v' r r', well_formed v' = true → delimited r → delimited r' →
             repr v +:+ r = repr v' +:+ r' → v = v' ∧ r = r'.
Proof.
  induction v as [ |b|n|t|s|l IH|d IH] using value_ind';
    intros Hwf v' r r' Hwf' Hr Hr' H;
    pose proof (repr_same_kind _ _ _ _ Hwf Hwf' H) as Hkind;
    destruct v' as [ |b'|n'|t'|s'|l'|d']; try discriminate Hkind; clear Hkind.
  - simpl in H. by injection H as ->.
  - destruct b, b'; simpl in H; try discriminate H; by injection H as ->.
  - simpl in H. apply number_delimited in H as [H ->]; [|apply repr_int_float_chars..|done|done].
    by rewrite (repr_int_inj _ _ H).
  - exfalso. simpl in H, Hwf'.
    apply number_delimited in H as [H _];
      [|apply repr_int_float_chars|by apply float_text_chars|done|done].
    by rewrite <-H, repr_int_not_float in Hwf'.
  - exfalso. simpl in H, Hwf.
    apply number_delimited in H as [H _];
      [|by apply float_text_chars|apply repr_int_float_chars|done|done].
    by rewrite H, repr_int_not_float in Hwf.
  - simpl in H, Hwf, Hwf'.
    apply number_delimited in H as [-> ->]; [done|by apply float_text_chars..|done|done].
  - simpl in H. by apply repr_str_delimited in H as [-> ->].
  - cbn [repr] in H. rewrite !str_app_assoc in H. simpl in H. injection H as H.
    apply well_formed_list in Hwf, Hwf'.
    assert (∀ a s, well_formed a = true → repr a ≠ "" ∧ repr a ≠ String "]" s) as Hhead.
    { intros a s Ha. split.
      - by destruct (repr_kind a Ha) as (c & s' & -> & _).
      - by apply repr_not_closing. }
    assert (Forall (λ a, ∀ a' r r', well_formed a' = true → delimited r → delimited r' →
                         repr a +:+ r = repr a' +:+ r' → a = a' ∧ r = r') l) as Hel.
    { rewrite Forall_forall in IH, Hwf. apply Forall_forall. intros a Ha a' x y Ha' Hx Hy.
      by apply IH; [|apply Hwf|..]. }
    by destruct (join_delimited repr "]" (λ v, well_formed v = true) eq_refl
                   ltac:(done) Hhead l Hel Hwf l' r r' Hwf' H) as [-> ->].
  - cbn [repr] in H. rewrite !str_app_assoc in H. simpl in H. injection H as H.
    apply well_formed_dict in Hwf, Hwf'.
    assert (∀ (kv : string * value) s, well_formed kv.2 = true →
              repr_str kv.1 +:+ ": " +:+ repr kv.2 ≠ ""
              ∧ repr_str kv.1 +:+ ": " +:+ repr kv.2 ≠ String "}" s) as Hhead.
    { intros [k v] s _. unfold repr_str. cbn [fst snd]. simpl.
      split; [done|]. intros [= Hq _].
      by destruct (repr_quote_cases k) as [Hk|Hk]; rewrite Hk in Hq. }
    assert (Forall (λ kv : string * value, ∀ kv' r r',
              well_formed kv'.2 = true → delimited r → delimited r' →
              (repr_str kv.1 +:+ ": " +:+ repr kv.2) +:+ r
              = (repr_str kv'.1 +:+ ": " +:+ repr kv'.2) +:+ r' → kv = kv' ∧ r = r') d)
      as Hel.
    { rewrite Forall_forall in IH, Hwf. apply Forall_forall.
      intros kv Hkv kv' x y Hkv' Hx Hy. apply entry_delimited; try done.
      by apply IH; [|apply Hwf]. }
    by destruct (join_delimited (λ kv : string * value,
                                   repr_str kv.1 +:+ ": " +:+ repr kv.2) "}"
                   (λ kv, well_formed kv.2 = true) eq_refl
                   ltac:(done) Hhead d Hel Hwf d' r r' Hwf' H) as [-> ->].
Qed.

(** ** The text that is hashed determines the mapping *)

Lemma str_cons_inv c (a b : string) : String c a = String c b → a = b.
Proof. by intros [= ?]. Qed.

Lemma item_delimited (kv kv' : string * value) r r' :
  well_formed kv.2 = true → well_formed kv'.2 = true →
  repr_item kv +:+ r = repr_item kv' +:+ r' → kv = kv' ∧ r = r'.
Proof.
  destruct kv as [k v], kv' as [k' v']. unfold repr_item. cbn [fst snd].
  intros Hwf Hwf' H. rewrite !str_app_assoc in H.
  apply (str_cons_inv "(" (repr_str k +:+ ", " +:+ repr v +:+ ")" +:+ r)
           (repr_str k' +:+ ", " +:+ repr v' +:+ ")" +:+ r')) in H.
  apply repr_str_delimited in H as [-> H].
  apply (str_cons_inv "," (String " " (repr v +:+ ")" +:+ r))
           (String " " (repr v' +:+ ")" +:+ r'))) in H.
  apply str_cons_inv in H.
  apply repr_delimited in H as [-> H]; [|done|done|by eexists _, _..].
  apply (str_cons_inv ")" r r') in H. by subst.
Qed.

Lemma repr_items_inj (l l' : dict) :
  Forall (λ kv, well_formed kv.2 = true) l → Forall (λ kv, well_formed kv.2 = true) l' →
  repr_items l = repr_items l' → l = l'.
Proof.
  intros Hwf Hwf' H. unfold repr_items in H. simpl in H. injection H as H.
  assert (∀ (kv : string * value) s, well_formed kv.2 = true →
            repr_item kv ≠ "" ∧ repr_item kv ≠ String "]" s) as Hhead by done.
  assert (Forall (λ kv : string * value, ∀ kv' r r',
            well_formed kv'.2 = true → delimited r → delimited r' →
            repr_item kv +:+ r = repr_item kv' +:+ r' → kv = kv' ∧ r = r') l) as Hel.
  { rewrite Forall_forall in Hwf. apply Forall_forall.
    intros kv Hkv kv' x y Hkv' _ _. apply item_delimited; auto. }
  by destruct (join_delimited repr_item "]" (λ kv, well_formed kv.2 = true) eq_refl
                 ltac:(done) Hhead l Hel Hwf l' "" "" Hwf' H) as [-> _].
Qed.

Lemma elem_of_set k v (d : dict) : (k, v) ∈ set k v d.
Proof.
  induction d as [|[k0 v0] d IH]; simpl; [by left|].
  destruct (decide (k0 = k)); [by left|by right].
Qed.

Lemma Forall_set (P : string * value → Prop) k v (d : dict) :
  P (k, v) → Forall P d → Forall P (set k v d).
Proof.
  intros Hv. induction 1 as [|[k0 v0] d H0 Hd IH]; simpl; [by repeat constructor|].
  destruct (decide (k0 = k)); by constructor.
Qed.

Lemma elem_of_lookup_key k v (d : dict) : lookup_key k d = Some v → (k, v) ∈ d.
Proof.
  induction d as [|[k0 v0] d IH]; simpl; [done|].
  destruct (decide (k0 = k)) as [->|]; [intros [= ->]; by left|].
  intros H. right. by apply IH.
Qed.

Lemma canonical_changed (d : dict) k v v' :
  NoDup (keys d) → lookup_key k d = Some v → v' ≠ v →
  Forall (λ kv, well_formed kv.2 = true) d → well_formed v' = true →
  canonical (set k v' d) ≠ canonical d.
Proof.
  intros Hnd Hk Hne Hwf Hwf' H. unfold canonical in H.
  apply encode_inj, repr_items_inj in H.
  - assert (set k v' d ≡ₚ d) as Hp.
    { unfold sorted_items in H.
      by rewrite <-(merge_sort_Permutation item_le (set k v' d)), H,
        merge_sort_Permutation. }
    apply Hne.
    assert ((k, v') ∈ d) as Hin by (rewrite <-Hp; apply elem_of_set).
    by injection (same_key_same_item d (k, v') (k, v) Hnd Hin
                    (elem_of_lookup_key _ _ _ Hk) eq_refl).
  - unfold sorted_items. rewrite merge_sort_Permutation. by apply Forall_set.
  - unfold sorted_items. by rewrite merge_sort_Permutation.
Qed.

End canonical_text.



(** On this mapping the change of the due date is seen: the two
    fingerprints, as Python computes them. *)
Example fingerprint_differs_on_due_date :
  let d1 := [("name", VStr "Essay"); ("due_at", VNone); ("points_possible", VFloat "10.0")] in
  let d3 := set "due_at" (VStr "2025-11-01T23:59:00Z") d1 in
  generate_content_hash d1
  = "c40ad0bf4c14d0a2204a22cf5e4802485cca673f781b510f10d02283605647a6" ∧
  generate_content_hash d3
  = "8c62cfc22adf3843d6fe929d46031c49b8f72548456c9e99cc48384c6cdf8947".
Proof. by vm_compute. Qed.


(** * Facts about the persistence layer *)

Section upsert_facts.

Lemma do_update_other sets excluded now stored c :
  c ∉ sets.*1 → do_update sets excluded now stored !! c = stored !! c.
Proof.
  unfold do_update. revert stored.
  induction sets as [|[c' ex] sets IH]; intros stored Hc; [done|].
  rewrite fmap_cons in Hc. apply not_elem_of_cons in Hc as [Hne Hc].
  simpl. rewrite IH by done. destruct ex; simpl.
  - by rewrite lookup_partial_alter_ne.
  - by rewrite lookup_insert_ne.
Qed.

Lemma count_rows_zero_find col key rows :
  count_rows col key rows = 0 ↔ find_row col key rows = None.
Proof.
  induction rows as [|r rows IH]; simpl; [done|].
  destruct (decide (r !! col = key)); simpl; [split; [lia|done]|done].
Qed.

Variable q : upsert.
Hypothesis key_kept : conflict q ∉ (on_conflict q).*1.

Lemma find_row_apply_upsert excluded now rows :
  find_row (conflict q) (excluded !! conflict q) (apply_upsert q excluded now rows)
  = Some (match find_row (conflict q) (excluded !! conflict q) rows with
          | Some stored => do_update (on_conflict q) excluded now stored
          | None => excluded
          end).
Proof.
  induction rows as [|r rows IH]; simpl.
  - by rewrite decide_True.
  - destruct (decide (r !! conflict q = excluded !! conflict q)) as [Heq|Hne]; simpl.
    + by rewrite decide_True by (by rewrite do_update_other).
    + by rewrite decide_False.
Qed.

Lemma count_rows_apply_upsert excluded now rows :
  count_rows (conflict q) (excluded !! conflict q) (apply_upsert q excluded now rows)
  = max 1 (count_rows (conflict q) (excluded !! conflict q) rows).
Proof.
  induction rows as [|r rows IH]; simpl.
  - by rewrite decide_True.
  - destruct (decide (r !! conflict q = excluded !! conflict q)) as [Heq|Hne]; simpl.
    + rewrite decide_True by (by rewrite do_update_other). lia.
    + rewrite decide_False by done. simpl. exact IH.
Qed.

Lemma find_row_apply_upsert_other excluded now rows key :
  key ≠ excluded !! conflict q →
  find_row (conflict q) key (apply_upsert q excluded now rows)
  = find_row (conflict q) key rows.
Proof.
  intros Hne. induction rows as [|r rows IH]; simpl.
  - by rewrite decide_False.
  - destruct (decide (r !! conflict q = excluded !! conflict q)) as [Heq|Hne']; simpl.
    + rewrite do_update_other by done.
      rewrite !decide_False by congruence. done.
    + destruct (decide (r !! conflict q = key)); [done|exact IH].
Qed.

End upsert_facts.

(** ** What a successful call did *)

Ltac run_step :=
  match goal with
  | H : context [match ?x with _ => _ end] |- _ =>
      lazymatch x with
      | context [match _ with _ => _ end] => fail
      | _ => destruct x eqn:?; simplify_eq/=
      end
  end.

Lemma persist_true e name arg prefix body st st' :
  persist e name arg prefix body st = (Ok true, st') →
  pool_getconn e (db_calls st) = None ∧
  ∃ st2, body (db_calls st) (set_pool_in_use S (set_db_calls S st)) = (Ok tt, st2) ∧
         db st' = db st2 ∧ db_calls st' = db_calls st2.
Proof.
  unfold persist, get_connection, try_except, try_finally, return_connection, rollback,
    print, modify, mbind, M_bind, bind, mret, M_ret, ret.
  intros H. simpl in H.
  repeat run_step. destruct a. eauto.
Qed.

Lemma execute_ok e conn q params st pending st' :
  execute e conn q params st = (Ok pending, st') →
  st' = st ∧
  ∃ excluded, bind_params (columns q) params (db_now e conn) = Ok excluded ∧
    db_execute e conn (table q) excluded (db st) = None ∧
    pending = <[table q := apply_upsert q excluded (db_now e conn)
                             (rows_of (db st) (table q))]> (db st).
Proof.
  unfold execute, gets, lift, raise, mbind, M_bind, bind, mret, M_ret, ret.
  intros H. simpl in H. repeat run_step. eauto.
Qed.

Ltac run_in H :=
  repeat match type of H with
  | context [match ?x with _ => _ end] =>
      lazymatch x with
      | context [match _ with _ => _ end] => fail
      | _ => destruct x eqn:?; try discriminate H; simpl in H
      end
  end.

Ltac unfold_monad H :=
  unfold item, lift, commit, print, modify, gets, raise,
    mbind, M_bind, bind, mret, M_ret, ret in H; simpl in H.

Lemma insert_assignment_true e data st st' :
  insert_assignment e data st = (Ok true, st') →
  ∃ params excluded,
    assignment_query_data data = Ok params ∧
    bind_params (columns assignments_query) params (db_now e (db_calls st)) = Ok excluded ∧
    db_execute e (db_calls st) "assignments" excluded (db st) = None ∧
    db st' = <["assignments" := apply_upsert assignments_query excluded
                                  (db_now e (db_calls st))
                                  (rows_of (db st) "assignments")]> (db st) ∧
    db_calls st' = S (db_calls st).
Proof.
  intros H. apply persist_true in H as (_ & st2 & H & -> & ->).
  unfold assignment_query_data.
  Opaque getitem execute.
  unfold_monad H.
  destruct (getitem (VDict data) "assignment_id") eqn:?; [|discriminate H].
  destruct (getitem (VDict data) "course_id") eqn:?; [|discriminate H].
  destruct (getitem (VDict data) "course_name") eqn:?; [|discriminate H].
  destruct (getitem (VDict data) "name") eqn:?; [|discriminate H].
  simpl in H.
  destruct (execute _ _ _ _ _) as [[pending|] s] eqn:Hex; [|discriminate H].
  apply execute_ok in Hex as (-> & excluded & Hb & Hv & ->).
  injection H as <-.
  eexists _, excluded. split; [reflexivity|]. done.
  Transparent getitem execute.
Qed.

Lemma insert_announcement_true e data st st' :
  insert_announcement e data st = (Ok true, st') →
  ∃ params excluded,
    announcement_query_data data = Ok params ∧
    bind_params (columns announcements_query) params (db_now e (db_calls st)) = Ok excluded ∧
    db_execute e (db_calls st) "announcements" excluded (db st) = None ∧
    db st' = <["announcements" := apply_upsert announcements_query excluded
                                    (db_now e (db_calls st))
                                    (rows_of (db st) "announcements")]> (db st) ∧
    db_calls st' = S (db_calls st).
Proof.
  intros H. apply persist_true in H as (_ & st2 & H & -> & ->).
  unfold announcement_query_data.
  Opaque getitem execute.
  unfold_monad H.
  destruct (getitem (VDict data) "id") eqn:?; [|discriminate H].
  destruct (getitem (VDict data) "course_id") eqn:?; [|discriminate H].
  destruct (getitem (VDict data) "course_name") eqn:?; [|discriminate H].
  simpl in H.
  destruct (execute _ _ _ _ _) as [[pending|] s] eqn:Hex; [|discriminate H].
  apply execute_ok in Hex as (-> & excluded & Hb & Hv & ->).
  injection H as <-.
  eexists _, excluded. split; [reflexivity|]. done.
  Transparent getitem execute.
Qed.

Lemma insert_front_page_true e data st st' :
  insert_front_page e data st = (Ok true, st') →
  ∃ params excluded,
    front_page_query_data data = Ok params ∧
    bind_params (columns front_pages_query) params (db_now e (db_calls st)) = Ok excluded ∧
    db_execute e (db_calls st) "front_pages" excluded (db st) = None ∧
    db st' = <["front_pages" := apply_upsert front_pages_query excluded
                                  (db_now e (db_calls st))
                                  (rows_of (db st) "front_pages")]> (db st) ∧
    db_calls st' = S (db_calls st).
Proof.
  intros H. apply persist_true in H as (_ & st2 & H & -> & ->).
  unfold front_page_query_data.
  Opaque getitem execute.
  unfold_monad H.
  destruct (getitem (VDict data) "course_id") eqn:?; [|discriminate H].
  destruct (getitem (VDict data) "course_name") eqn:?; [|discriminate H].
  simpl in H.
  destruct (execute _ _ _ _ _) as [[pending|] s] eqn:Hex; [|discriminate H].
  apply execute_ok in Hex as (-> & excluded & Hb & Hv & ->).
  injection H as <-.
  eexists _, excluded. split; [reflexivity|]. done.
  Transparent getitem execute.
Qed.

(** ** The columns of the proposed and of the updated row *)

Lemma assoc_None {A} c (l : list (string * A)) : assoc c l = None ↔ c ∉ l.*1.
Proof.
  induction l as [|[c' a] l IH]; simpl.
  - split; [intros _; apply not_elem_of_nil|done].
  - rewrite not_elem_of_cons. destruct (decide (c' = c)); naive_solver.
Qed.

Lemma bind_params_lookup cols params now excluded c :
  bind_params cols params now = Ok excluded →
  excluded !! c = match assoc c cols with
                  | Some (Param name) => Val <$> lookup_key name params
                  | Some Now => Some (Time now)
                  | None => None
                  end.
Proof.
  revert excluded. induction cols as [|[c' ex] cols IH]; intros excluded H; simpl in *.
  - by simplify_eq.
  - destruct ex as [name|].
    + destruct (lookup_key name params) as [v|] eqn:Hv; [|done].
      destruct (bind_params cols params now) as [r|]; [|done]. simplify_eq.
      destruct (decide (c' = c)) as [->|].
      * by rewrite lookup_insert_eq, Hv.
      * rewrite lookup_insert_ne by done. by apply IH.
    + destruct (bind_params cols params now) as [r|]; [|done]. simplify_eq.
      destruct (decide (c' = c)) as [->|].
      * by rewrite lookup_insert_eq.
      * rewrite lookup_insert_ne by done. by apply IH.
Qed.

Lemma do_update_lookup sets excluded now stored c :
  NoDup sets.*1 →
  do_update sets excluded now stored !! c
  = match assoc c sets with
    | Some (Excluded c') => excluded !! c'
    | Some SetNow => Some (Time now)
    | None => stored !! c
    end.
Proof.
  revert stored. induction sets as [|[c' ex] sets IH]; intros stored Hnd; [done|].
  rewrite fmap_cons in Hnd. apply NoDup_cons in Hnd as [Hc' Hnd].
  change (do_update ((c', ex) :: sets) excluded now stored)
    with (do_update sets excluded now
            (match ex with
             | Excluded c'' => partial_alter (λ _, excluded !! c'') c' stored
             | SetNow => <[c' := Time now]> stored
             end)).
  simpl assoc. destruct (decide (c' = c)) as [->|Hne].
  - rewrite do_update_other by done. destruct ex.
    + by rewrite lookup_partial_alter_eq.
    + by rewrite lookup_insert_eq.
  - rewrite IH by done. destruct (assoc c sets) as [[]|]; try done.
    destruct ex.
    + by rewrite lookup_partial_alter_ne.
    + by rewrite lookup_insert_ne.
Qed.

Lemma rows_of_insert (d : database) t rows : rows_of (<[t := rows]> d) t = rows.
Proof. unfold rows_of. by rewrite lookup_insert_eq. Qed.

(** ** The three hashed entity types at once *)

Lemma insert_true k e data st st' :
  insert_entity k e data st = (Ok true, st') →
  ∃ params excluded,
    query_data k data = Ok params ∧
    bind_params (columns (query k)) params (db_now e (db_calls st)) = Ok excluded ∧
    db_execute e (db_calls st) (table (query k)) excluded (db st) = None ∧
    table_rows k st' = apply_upsert (query k) excluded (db_now e (db_calls st))
                         (table_rows k st) ∧
    db_calls st' = S (db_calls st).
Proof.
  unfold table_rows.
  destruct k; simpl; intros H;
    [apply insert_assignment_true in H|apply insert_announcement_true in H
    |apply insert_front_page_true in H];
    destruct H as (params & excluded & ? & ? & ? & -> & ?);
    exists params, excluded; rewrite rows_of_insert; done.
Qed.

Lemma key_kept k : key k ∉ (on_conflict (query k)).*1.
Proof. destruct k; vm_compute; set_solver. Qed.

Lemma sets_NoDup k : NoDup (on_conflict (query k)).*1.
Proof. destruct k; vm_compute; repeat constructor; set_solver. Qed.

Lemma key_column k : assoc (key k) (columns (query k)) = Some (Param (key k)).
Proof. by destruct k. Qed.

Lemma synced_column k : assoc "last_synced_at" (on_conflict (query k)) = Some SetNow.
Proof. by destruct k. Qed.

Lemma params_columns k data params c v :
  query_data k data = Ok params → lookup_key c params = Some v →
  assoc c (columns (query k)) = Some (Param c).
Proof.
  destruct k; simpl; unfold assignment_query_data, announcement_query_data,
    front_page_query_data; intros H Hc;
    repeat (match type of H with context [match ?x with _ => _ end] =>
              destruct x; try discriminate H end);
    simplify_eq; simpl in Hc;
    repeat (case_decide; [by subst|]); done.
Qed.

Lemma params_key k data params :
  query_data k data = Ok params → is_Some (lookup_key (key k) params).
Proof.
  destruct k; simpl; unfold assignment_query_data, announcement_query_data,
    front_page_query_data; intros H;
    repeat (match type of H with context [match ?x with _ => _ end] =>
              destruct x; try discriminate H end);
    simplify_eq; eexists; reflexivity.
Qed.

(** C2, amended: after two successful upserts of the same record of an
    assignment, an announcement or a front page, the store has a row for
    the natural identity of the record, and exactly one if it had at
    most one before.  The columns that the update on conflict assigns
    hold the values of the input, and [last_synced_at] the time of the
    second call.  If the identity was new, every column of the input
    holds its value; if a row was there before the first call, the
    columns the update does not assign ([course_id], [course_name],
    [html_url]) are as they were stored. *)
Theorem upsert_twice k e data st st1 st2 :
  insert_entity k e data st = (Ok true, st1) →
  insert_entity k e data st1 = (Ok true, st2) →
  ∃ params id stored,
    query_data k data = Ok params ∧
    lookup_key (key k) params = Some id ∧
    find_row (key k) (Some (Val id)) (table_rows k st2) = Some stored ∧
    (count_rows (key k) (Some (Val id)) (table_rows k st) ≤ 1 →
     count_rows (key k) (Some (Val id)) (table_rows k st2) = 1) ∧
    (∀ c v, assoc c (on_conflict (query k)) = Some (Excluded c) →
            lookup_key c params = Some v → stored !! c = Some (Val v)) ∧
    stored !! "last_synced_at" = Some (Time (db_now e (db_calls st1))) ∧
    match find_row (key k) (Some (Val id)) (table_rows k st) with
    | None => ∀ c v, lookup_key c params = Some v → stored !! c = Some (Val v)
    | Some old => ∀ c, c ∉ (on_conflict (query k)).*1 → stored !! c = old !! c
    end.
Proof.
  intros H1 H2.
  apply insert_true in H1 as (params & ex1 & Hq & Hb1 & _ & Hr1 & Hn1).
  apply insert_true in H2 as (params' & ex2 & Hq' & Hb2 & _ & Hr2 & _).
  rewrite Hq in Hq'. injection Hq' as <-.
  destruct (params_key k data params Hq) as [id Hid].
  pose proof (key_kept k) as Hkept. pose proof (sets_NoDup k) as Hnd.
  assert (ex1 !! key k = Some (Val id)) as Hk1.
  { rewrite (bind_params_lookup _ _ _ _ _ Hb1), key_column, Hid. done. }
  assert (ex2 !! key k = Some (Val id)) as Hk2.
  { rewrite (bind_params_lookup _ _ _ _ _ Hb2), key_column, Hid. done. }
  assert (∀ c v, lookup_key c params = Some v → ex2 !! c = Some (Val v)) as Hex2.
  { intros c v Hc. rewrite (bind_params_lookup _ _ _ _ _ Hb2).
    rewrite (params_columns k data params c v Hq Hc), Hc. done. }
  assert (∀ c v, lookup_key c params = Some v → ex1 !! c = Some (Val v)) as Hex1.
  { intros c v Hc. rewrite (bind_params_lookup _ _ _ _ _ Hb1).
    rewrite (params_columns k data params c v Hq Hc), Hc. done. }
  pose proof (find_row_apply_upsert (query k) Hkept ex1 (db_now e (db_calls st))
                (table_rows k st)) as Hf1.
  pose proof (find_row_apply_upsert (query k) Hkept ex2 (db_now e (db_calls st1))
                (table_rows k st1)) as Hf2.
  pose proof (count_rows_apply_upsert (query k) Hkept ex1 (db_now e (db_calls st))
                (table_rows k st)) as Hc1.
  pose proof (count_rows_apply_upsert (query k) Hkept ex2 (db_now e (db_calls st1))
                (table_rows k st1)) as Hc2.
  fold (key k) in Hf1, Hf2, Hc1, Hc2.
  rewrite <-Hr1, Hk1 in Hf1, Hc1. rewrite <-Hr2, Hk2 in Hf2, Hc2.
  rewrite Hf1 in Hf2.
  eexists params, id, _. split_and!; [done|done|exact Hf2| | | |].
  - intros Hle. rewrite Hc2, Hc1. lia.
  - intros c v Hset Hc. rewrite do_update_lookup, Hset by done. by apply Hex2.
  - by rewrite do_update_lookup, synced_column.
  - destruct (find_row (key k) (Some (Val id)) (table_rows k st)) as [old|].
    + intros c Hc. by rewrite !do_update_other.
    + intros c v Hc. rewrite do_update_lookup by done.
      destruct (assoc c (on_conflict (query k))) as [[c'|]|] eqn:Hset.
      * assert (c' = c) as ->.
        { revert Hset. clear. destruct k; simpl;
            repeat (case_decide; [intros; by simplify_eq|]); done. }
        by apply Hex2.
      * exfalso. revert Hset. pose proof (params_columns k data params c v Hq Hc) as Hcol.
        revert Hcol. clear. destruct k; simpl;
          repeat (case_decide; [subst; simpl; by intros|]); done.
      * by apply Hex1.
Qed.

(** C2, as stated, fails: after two successful upserts of the same
    assignment over a store that already holds it, there is one row, but
    its [html_url] and [course_name] are not those of the input. *)
Lemma upsert_twice_stale_columns :
  let first := insert_assignment Demo.accepting Demo.test_assignment
                 (initial Demo.seeded) in
  let second := insert_assignment Demo.accepting Demo.test_assignment first.2 in
  let stored := find_row "assignment_id" (Some (Val (VInt 123456)))
                  (rows_of (db second.2) "assignments") in
  first.1 = Ok true ∧ second.1 = Ok true ∧
  length (rows_of (db second.2) "assignments") = 1 ∧
  stored ≫= (.!! "name") = Val <$> lookup_key "name" Demo.test_assignment ∧
  stored ≫= (.!! "html_url") ≠ Val <$> lookup_key "html_url" Demo.test_assignment ∧
  stored ≫= (.!! "course_name")
  ≠ Val <$> lookup_key "course_name" Demo.test_assignment.
Proof. vm_compute. split_and!; [reflexivity..|discriminate|discriminate]. Qed.

Lemma upsert_twice_witness :
  ∃ st1 st2 stored,
    insert_entity Assignment Demo.accepting Demo.test_assignment (initial ∅)
    = (Ok true, st1) ∧
    insert_entity Assignment Demo.accepting Demo.test_assignment st1 = (Ok true, st2) ∧
    find_row "assignment_id" (Some (Val (VInt 123456))) (table_rows Assignment st2)
    = Some stored ∧
    stored !! "html_url"
    = Some (Val (VStr "https://canvas.test/courses/147355/assignments/123456")).
Proof.
  pose (r1 := insert_entity Assignment Demo.accepting Demo.test_assignment (initial ∅)).
  assert (r1 = (Ok true, r1.2)) as H1 by (vm_compute; reflexivity).
  pose (r2 := insert_entity Assignment Demo.accepting Demo.test_assignment r1.2).
  assert (r2 = (Ok true, r2.2)) as H2 by (vm_compute; reflexivity).
  destruct (upsert_twice Assignment _ _ _ _ _ H1 H2)
    as (params & id & stored & Hq & Hid & Hf & _ & _ & _ & Hfresh).
  vm_compute in Hq. injection Hq as <-.
  vm_compute in Hid. injection Hid as <-.
  exists r1.2, r2.2, stored. split_and!; [exact H1|exact H2|exact Hf|].
  change (find_row _ _ (table_rows Assignment (initial ∅))) with (@None row) in Hfresh.
  apply Hfresh. reflexivity.
Defined.

(** What one successful call leaves at the identity of its record. *)
Lemma insert_stored k e data st st' :
  insert_entity k e data st = (Ok true, st') →
  ∃ params id excluded,
    query_data k data = Ok params ∧
    lookup_key (key k) params = Some id ∧
    bind_params (columns (query k)) params (db_now e (db_calls st)) = Ok excluded ∧
    find_row (key k) (Some (Val id)) (table_rows k st')
    = Some (match find_row (key k) (Some (Val id)) (table_rows k st) with
            | Some old => do_update (on_conflict (query k)) excluded
                            (db_now e (db_calls st)) old
            | None => excluded
            end).
Proof.
  intros H. apply insert_true in H as (params & ex & Hq & Hb & _ & Hr & _).
  destruct (params_key k data params Hq) as [id Hid].
  exists params, id, ex. split_and!; [done..|].
  assert (ex !! key k = Some (Val id)) as Hk.
  { rewrite (bind_params_lookup _ _ _ _ _ Hb), key_column, Hid. done. }
  rewrite Hr, <-Hk. apply find_row_apply_upsert, key_kept.
Qed.

Ltac column k H :=
  rewrite do_update_lookup by exact (sets_NoDup k); simpl;
  rewrite ?(bind_params_lookup _ _ _ _ _ H); reflexivity.

(** C5, amended: a successful upsert of an assignment whose identity is
    already stored overwrites [name], [description], [due_at],
    [points_possible] and [submission_status] with the values of the
    input, stores the fingerprint computed from the input and sets
    [last_synced_at] and [updated_at] to the time of the call, whatever
    the fingerprint stored before; every other column, [html_url] among
    them, stays as stored.  For an announcement the same holds with
    [title], [message], [posted_at], the fingerprint and
    [last_synced_at]. *)
Theorem on_conflict_overwrites e data st st' :
  (insert_assignment e data st = (Ok true, st') →
   ∃ id name, lookup_key "assignment_id" data = Some id ∧
     lookup_key "name" data = Some name ∧
     ∀ old, find_row "assignment_id" (Some (Val id)) (rows_of (db st) "assignments")
            = Some old →
     ∃ stored,
       find_row "assignment_id" (Some (Val id)) (rows_of (db st') "assignments")
       = Some stored ∧
       stored !! "name" = Some (Val name) ∧
       stored !! "description" = Some (Val (get data "description" VNone)) ∧
       stored !! "due_at" = Some (Val (get data "due_at" VNone)) ∧
       stored !! "points_possible" = Some (Val (get data "points_possible" VNone)) ∧
       stored !! "submission_status" = Some (Val (get data "submission_status" VNone)) ∧
       stored !! "content_hash"
       = Some (Val (VStr (generate_content_hash (assignment_hash_data data)))) ∧
       stored !! "last_synced_at" = Some (Time (db_now e (db_calls st))) ∧
       stored !! "updated_at" = Some (Time (db_now e (db_calls st))) ∧
       ∀ c, c ∉ ["name"; "description"; "due_at"; "points_possible";
                 "submission_status"; "content_hash"; "last_synced_at"; "updated_at"] →
            stored !! c = old !! c) ∧
  (insert_announcement e data st = (Ok true, st') →
   ∃ id, lookup_key "id" data = Some id ∧
     ∀ old, find_row "announcement_id" (Some (Val id)) (rows_of (db st) "announcements")
            = Some old →
     ∃ stored,
       find_row "announcement_id" (Some (Val id)) (rows_of (db st') "announcements")
       = Some stored ∧
       stored !! "title" = Some (Val (get data "title" (VStr "Untitled"))) ∧
       stored !! "message" = Some (Val (get data "message" VNone)) ∧
       stored !! "posted_at" = Some (Val (get data "posted_at" VNone)) ∧
       stored !! "content_hash"
       = Some (Val (VStr (generate_content_hash (announcement_hash_data data)))) ∧
       stored !! "last_synced_at" = Some (Time (db_now e (db_calls st))) ∧
       ∀ c, c ∉ ["title"; "message"; "posted_at"; "content_hash"; "last_synced_at"] →
            stored !! c = old !! c).
Proof.
  Opaque do_update.
  split; intros H.
  - apply (insert_stored Assignment) in H as (params & id & ex & Hq & Hid & Hb & Hf).
    simpl in Hq. unfold assignment_query_data in Hq. unfold getitem in Hq.
    destruct (lookup_key "assignment_id" data) as [id'|] eqn:E1; [|done].
    destruct (lookup_key "course_id" data) as [cid|] eqn:E2; [|done].
    destruct (lookup_key "course_name" data) as [cn|] eqn:E3; [|done].
    destruct (lookup_key "name" data) as [name|] eqn:E4; [|done].
    simpl in Hq. injection Hq as <-. simpl in Hid. injection Hid as <-.
    exists id', name. split_and!; [done..|]. intros old Hold.
    unfold table_rows, key in Hf. simpl in Hf. rewrite Hold in Hf.
    eexists. split; [exact Hf|].
    split_and!; try column Assignment Hb.
    intros c Hc. apply do_update_other. exact Hc.
  - apply (insert_stored Announcement) in H as (params & id & ex & Hq & Hid & Hb & Hf).
    simpl in Hq. unfold announcement_query_data in Hq. unfold getitem in Hq.
    destruct (lookup_key "id" data) as [id'|] eqn:E1; [|done].
    destruct (lookup_key "course_id" data) as [cid|] eqn:E2; [|done].
    destruct (lookup_key "course_name" data) as [cn|] eqn:E3; [|done].
    simpl in Hq. injection Hq as <-. simpl in Hid. injection Hid as <-.
    exists id'. split; [done|]. intros old Hold.
    unfold table_rows, key in Hf. simpl in Hf. rewrite Hold in Hf.
    eexists. split; [exact Hf|].
    split_and!; try column Announcement Hb.
    intros c Hc. apply do_update_other. exact Hc.
  Transparent do_update.
Qed.

(** C5, as stated, fails: the update on conflict leaves [html_url] as
    stored, though it overwrites [name]. *)
Lemma on_conflict_keeps_html_url :
  let call := insert_assignment Demo.accepting Demo.test_assignment
                (initial Demo.seeded) in
  let stored := find_row "assignment_id" (Some (Val (VInt 123456)))
                  (rows_of (db call.2) "assignments") in
  call.1 = Ok true ∧
  stored ≫= (.!! "name") = Val <$> lookup_key "name" Demo.test_assignment ∧
  stored ≫= (.!! "html_url") ≠ Val <$> lookup_key "html_url" Demo.test_assignment ∧
  stored ≫= (.!! "html_url") = Demo.old_assignment_row !! "html_url".
Proof. vm_compute. split_and!; [reflexivity|reflexivity|discriminate|reflexivity]. Qed.

Lemma on_conflict_overwrites_witness :
  ∃ st' stored,
    insert_assignment Demo.accepting Demo.test_assignment (initial Demo.seeded)
    = (Ok true, st') ∧
    find_row "assignment_id" (Some (Val (VInt 123456))) (rows_of (db st') "assignments")
    = Some stored ∧
    stored !! "name" = Some (Val (VStr "Test Assignment")) ∧
    stored !! "html_url" = Demo.old_assignment_row !! "html_url".
Proof.
  pose (r := insert_assignment Demo.accepting Demo.test_assignment (initial Demo.seeded)).
  assert (r = (Ok true, r.2)) as H by (vm_compute; reflexivity).
  destruct (proj1 (on_conflict_overwrites _ _ _ _) H)
    as (id & name & Hid & Hname & Hold).
  vm_compute in Hid. injection Hid as <-.
  vm_compute in Hname. injection Hname as <-.
  destruct (Hold Demo.old_assignment_row) as (stored & Hf & Hn & _ & _ & _ & _ & _ & _ & _ & Hkept).
  { vm_compute. reflexivity. }
  exists r.2, stored. split_and!; [exact H|exact Hf|exact Hn|].
  apply Hkept.
  repeat (apply not_elem_of_cons; split; [discriminate|]). apply not_elem_of_nil.
Defined.

(** The fingerprint a successful [insert_assignment] stores. *)
Lemma insert_assignment_stored_hash e data st st' :
  insert_assignment e data st = (Ok true, st') →
  ∃ id stored,
    lookup_key "assignment_id" data = Some id ∧
    find_row "assignment_id" (Some (Val id)) (rows_of (db st') "assignments")
    = Some stored ∧
    stored !! "content_hash"
    = Some (Val (VStr (generate_content_hash (assignment_hash_data data)))).
Proof.
  Opaque do_update.
  intros H.
  apply (insert_stored Assignment) in H as (params & id & ex & Hq & Hid & Hb & Hf).
  simpl in Hq. unfold assignment_query_data in Hq. unfold getitem in Hq.
  destruct (lookup_key "assignment_id" data) as [id'|] eqn:E1; [|done].
  destruct (lookup_key "course_id" data) as [cid|] eqn:E2; [|done].
  destruct (lookup_key "course_name" data) as [cn|] eqn:E3; [|done].
  destruct (lookup_key "name" data) as [name|] eqn:E4; [|done].
  simpl in Hq. injection Hq as <-. simpl in Hid. injection Hid as <-.
  unfold table_rows, key in Hf. simpl in Hf.
  eexists id', _. split; [done|]. split; [exact Hf|].
  destruct (find_row _ _ (rows_of (db st) _)) as [old|].
  - column Assignment Hb.
  - rewrite (bind_params_lookup _ _ _ _ _ Hb). reflexivity.
  Transparent do_update.
Qed.

(** C7: two assignment records that agree on [name], [due_at],
    [description] and [points_possible] have the same fingerprint,
    whatever their other fields; and the fingerprint stored by a
    successful upsert of either is that fingerprint. *)
Theorem fingerprint_hashed_fields_only (a1 a2 : dict) :
  (∀ field, field ∈ ["name"; "due_at"; "description"; "points_possible"] →
            get a1 field VNone = get a2 field VNone) →
  generate_content_hash (assignment_hash_data a1)
  = generate_content_hash (assignment_hash_data a2) ∧
  ∀ e1 e2 st1 st1' st2 st2',
    insert_assignment e1 a1 st1 = (Ok true, st1') →
    insert_assignment e2 a2 st2 = (Ok true, st2') →
    ∃ id1 id2 stored1 stored2,
      lookup_key "assignment_id" a1 = Some id1 ∧
      lookup_key "assignment_id" a2 = Some id2 ∧
      find_row "assignment_id" (Some (Val id1)) (rows_of (db st1') "assignments")
      = Some stored1 ∧
      find_row "assignment_id" (Some (Val id2)) (rows_of (db st2') "assignments")
      = Some stored2 ∧
      stored1 !! "content_hash" = stored2 !! "content_hash" ∧
      stored1 !! "content_hash"
      = Some (Val (VStr (generate_content_hash (assignment_hash_data a1)))).
Proof.
  intros Hagree.
  assert (assignment_hash_data a1 = assignment_hash_data a2) as Hdata.
  { unfold assignment_hash_data.
    rewrite (Hagree "name"), (Hagree "due_at"), (Hagree "description"),
      (Hagree "points_possible") by set_solver. done. }
  split; [by rewrite Hdata|].
  intros e1 e2 st1 st1' st2 st2' H1 H2.
  apply insert_assignment_stored_hash in H1 as (id1 & r1 & Hid1 & Hf1 & Hh1).
  apply insert_assignment_stored_hash in H2 as (id2 & r2 & Hid2 & Hf2 & Hh2).
  exists id1, id2, r1, r2. split_and!; try done.
  by rewrite Hh1, Hh2, Hdata.
Qed.

Lemma fingerprint_hashed_fields_only_witness :
  generate_content_hash (assignment_hash_data Demo.test_assignment)
  = generate_content_hash (assignment_hash_data Demo.other_assignment).
Proof.
  apply (fingerprint_hashed_fields_only Demo.test_assignment Demo.other_assignment).
  intros field Hin.
  repeat (apply elem_of_cons in Hin as [->|Hin]; [reflexivity|]).
  by apply elem_of_nil in Hin.
Defined.

(** * Facts about the Source Client *)

Lemma make_request_run e self endpoint st :
  make_request e self endpoint st
  = (request_result (answer e (base_url self +:+ endpoint) st),
     sent (base_url self +:+ endpoint) st).
Proof.
  unfold make_request, session_get, request_result, answer, sent, error_text, json,
    try_except, lift, raise, mbind, M_bind, bind, mret, M_ret, ret.
  simpl.
  destruct (server e (length (requests st)) (base_url self +:+ endpoint)) as [err|r];
    [done|].
  destruct ((400 <=? status_code r)%Z && (status_code r <? 600)%Z).
  - destruct (content r) as [body|err]; [|done].
    destruct (get_method body "errors" _) as [errors|]; [|done].
    destruct (getitem0 errors) as [first|]; [|done].
    destruct (get_method first "message" _); done.
  - destruct (content r); done.
Qed.

Ltac run :=
  unfold try_except, item, lift, commit, print, modify, gets, raise,
    mbind, M_bind, bind, mret, M_ret, ret; simpl.

Ltac fetch_run :=
  run; rewrite make_request_run;
  unfold none_as_empty, none_as_empty_dict, map_result;
  destruct (request_result _) as [v|ex]; [destruct (decide (v = VNone))|]; done.

Lemma get_course_assignments_run e self course_id st :
  get_course_assignments e self course_id st
  = (map_result none_as_empty (request_result (answer e (assignments_url self course_id) st)),
     sent (assignments_url self course_id) st).
Proof. unfold get_course_assignments, assignments_url. fetch_run. Qed.

Lemma get_course_modules_run e self course_id st :
  get_course_modules e self course_id st
  = (map_result none_as_empty (request_result (answer e (modules_url self course_id) st)),
     sent (modules_url self course_id) st).
Proof. unfold get_course_modules, modules_url. fetch_run. Qed.

Lemma get_course_front_page_run e self course_id st :
  get_course_front_page e self course_id st
  = (map_result none_as_empty_dict
       (request_result (answer e (front_page_url self course_id) st)),
     sent (front_page_url self course_id) st).
Proof. unfold get_course_front_page, front_page_url. fetch_run. Qed.

Lemma get_course_announcements_run e self course_id days_back st :
  let url := announcements_url self course_id (today e (length (requests st))) days_back in
  get_course_announcements e self course_id days_back st
  = (map_result none_as_empty (request_result (answer e url st)), sent url st).
Proof.
  unfold get_course_announcements, announcements_url, datetime_now. fetch_run.
Qed.

Lemma get_course_quizzes_run e self course_id st :
  get_course_quizzes e self course_id st
  = (quizzes_result (request_result (answer e (quizzes_url self course_id) st)),
     sent (quizzes_url self course_id) st).
Proof.
  unfold get_course_quizzes, quizzes_url. run. rewrite make_request_run.
  unfold quizzes_result, none_as_empty.
  destruct (request_result _) as [v|ex]; [destruct (decide (v = VNone)); done|].
  destruct ex; try done. simpl. destruct (str_contains _ _); done.
Qed.

Lemma request_result_forget_next a : request_result (forget_next a) = request_result a.
Proof. by destruct a. Qed.

(** C3, amended: each of the four fetch operations sends exactly one GET
    request, to an address fixed by the course (and, for announcements,
    the date), and returns what that one answer holds: its JSON value,
    with [null] read as the empty list.  The answer's link to a next
    page plays no part, and no second request follows it.  The addresses
    of assignments and announcements end in [per_page=100]; those of
    quizzes and modules name no page size. *)
Theorem fetch_sends_one_request e self course_id days_back st :
  let fetched (url : string) (result : result value → result value) :=
    (result (request_result (forget_next (answer e url st))), sent url st) in
  get_course_assignments e self course_id st
    = fetched (assignments_url self course_id) (map_result none_as_empty) ∧
  get_course_announcements e self course_id days_back st
    = fetched (announcements_url self course_id (today e (length (requests st))) days_back)
              (map_result none_as_empty) ∧
  get_course_quizzes e self course_id st
    = fetched (quizzes_url self course_id) quizzes_result ∧
  get_course_modules e self course_id st
    = fetched (modules_url self course_id) (map_result none_as_empty).
Proof.
  simpl. rewrite !request_result_forget_next.
  rewrite get_course_assignments_run, get_course_announcements_run,
    get_course_quizzes_run, get_course_modules_run. done.
Qed.

(** C3 as written fails: the source answers the first request for the
    assignments of course 7 with two items and the address of a second
    page holding a third; the fetch returns the two items after a single
    request, where following the pages gives three. *)
Lemma fetch_stops_after_first_page :
  let fetch := get_course_assignments DemoAgent.paging DemoAgent.self (VInt 7) (initial ∅) in
  fetch.1 = Ok (VList [DemoAgent.hw 1; DemoAgent.hw 2]) ∧
  requests fetch.2 = ["https://canvas.test/api/v1/courses/7/assignments?per_page=100"] ∧
  (∃ r, server DemoAgent.paging 0 (assignments_url DemoAgent.self (VInt 7)) = Reply r ∧
        link_next r = Some DemoAgent.page2_url) ∧
  follow_pages DemoAgent.paging 5 0 (assignments_url DemoAgent.self (VInt 7))
    = [DemoAgent.hw 1; DemoAgent.hw 2; DemoAgent.hw 3].
Proof. vm_compute. split_and!; [done|done|eexists; split; reflexivity|done]. Qed.

(** C4, the behaviour of the code: whether a failed quiz request counts
    as absence is decided by the characters 404 occurring in the error
    text.  The 404 answer of Canvas carries its own message, which has
    no such characters, and is raised; a 500 answer for course 1404 has
    them in its address and is taken for an empty list; and the front
    page fetch raises on a 404 like on any other error. *)
Lemma not_found_decided_by_text :
  let st := initial ∅ in
  (get_course_quizzes DemoAgent.not_found DemoAgent.self (VInt 7) st).1
    = Raise (CanvasAPIError "Canvas API error: The specified resource does not exist.") ∧
  (get_course_quizzes DemoAgent.broken DemoAgent.self (VInt 1404) st).1 = Ok (VList []) ∧
  (get_course_quizzes DemoAgent.broken DemoAgent.self (VInt 7) st).1
    = Raise (CanvasAPIError "Canvas API error: 500 Server Error: Internal Server Error for url: https://canvas.test/api/v1/courses/7/quizzes") ∧
  (get_course_front_page DemoAgent.not_found DemoAgent.self (VInt 7) st).1
    = Raise (CanvasAPIError "Canvas API error: The specified resource does not exist.").
Proof. vm_compute. done. Qed.

(** C9, the behaviour of the code: on the JSON value [null] the fetch of
    the active courses raises a [TypeError], where the fetches of
    assignments, announcements, quizzes and modules return the empty
    list. *)
Lemma active_courses_null_raises :
  let st := initial ∅ in
  (get_active_courses DemoAgent.null_body DemoAgent.self st).1
    = Raise (TypeError "'NoneType' object is not iterable") ∧
  (get_course_assignments DemoAgent.null_body DemoAgent.self (VInt 7) st).1 = Ok (VList []) ∧
  (get_course_announcements DemoAgent.null_body DemoAgent.self (VInt 7) 120 st).1
    = Ok (VList []) ∧
  (get_course_quizzes DemoAgent.null_body DemoAgent.self (VInt 7) st).1 = Ok (VList []) ∧
  (get_course_modules DemoAgent.null_body DemoAgent.self (VInt 7) st).1 = Ok (VList []).
Proof. vm_compute. done. Qed.

(** * Facts about the run *)

(** ** Frame conditions *)

Section maintains.
Context (R : relation state) `{!PreOrder R}.

Lemma maintains_ret {A} (a : A) : maintains R (ret a).
Proof. intros st. reflexivity. Qed.

Lemma maintains_raise {A} ex : maintains R (raise (A := A) ex).
Proof. intros st. reflexivity. Qed.

Lemma maintains_lift {A} (r : result A) : maintains R (lift r).
Proof. intros st. reflexivity. Qed.

Lemma maintains_gets {A} (f : state → A) : maintains R (gets f).
Proof. intros st. reflexivity. Qed.

Lemma maintains_modify f : (∀ st, R st (f st)) → maintains R (modify f).
Proof. intros H st. apply H. Qed.

Lemma maintains_bind {A B} (m : M A) (k : A → M B) :
  maintains R m → (∀ a, maintains R (k a)) → maintains R (m ≫= k).
Proof.
  intros Hm Hk st. unfold mbind, M_bind, bind. specialize (Hm st).
  destruct (m st) as [[a|ex] st1]; [|exact Hm].
  etrans; [exact Hm|apply Hk].
Qed.

Lemma maintains_try_except {A} (m : M A) handler :
  maintains R m → (∀ ex, maintains R (handler ex)) → maintains R (try_except m handler).
Proof.
  intros Hm Hh st. unfold try_except. specialize (Hm st).
  destruct (m st) as [[a|ex] st1]; [exact Hm|].
  etrans; [exact Hm|apply Hh].
Qed.

Lemma maintains_try_finally {A} (m : M A) cleanup :
  maintains R m → maintains R cleanup → maintains R (try_finally m cleanup).
Proof.
  intros Hm Hc st. unfold try_finally. specialize (Hm st).
  destruct (m st) as [r st1]. specialize (Hc st1).
  destruct (cleanup st1) as [[[]|ex] st2]; (etrans; [exact Hm|exact Hc]).
Qed.

Lemma maintains_for {A} (xs : list A) body :
  (∀ x, maintains R (body x)) → maintains R (for_ xs body).
Proof.
  intros H. induction xs as [|x xs IH]; [apply maintains_ret|].
  apply maintains_bind; [apply H|intros _; exact IH].
Qed.

Lemma maintains_for_list {A B} (xs : list A) (f : A → M B) :
  (∀ x, maintains R (f x)) → maintains R (for_list xs f).
Proof.
  intros H. induction xs as [|x xs IH]; [apply maintains_ret|].
  apply maintains_bind; [apply H|intros y].
  apply maintains_bind; [exact IH|intros ys; apply maintains_ret].
Qed.

Lemma maintains_fold_for {A S} (xs : list A) (s : S) body :
  (∀ s x, maintains R (body s x)) → maintains R (fold_for xs s body).
Proof.
  intros H. revert s. induction xs as [|x xs IH]; intros s; [apply maintains_ret|].
  apply maintains_bind; [apply H|intros s'; apply IH].
Qed.

End maintains.

#[export] Instance unchanged_preorder {A} (f : state → A) : PreOrder (unchanged f).
Proof.
  split; [intros x; reflexivity|].
  intros x y z H1 H2. unfold unchanged in *. congruence.
Qed.

#[export] Instance preserved_preorder P : PreOrder (preserved P).
Proof. split; [intros x H; exact H|]. intros x y z H1 H2 H. auto. Qed.

(** One step of the proof of a frame condition. *)
Ltac frame_step :=
  lazymatch goal with
  | |- maintains _ (mbind _ _) => apply maintains_bind; [apply _| |intros]
  | |- maintains _ (mret _) => apply maintains_ret; apply _
  | |- maintains _ (ret _) => apply maintains_ret; apply _
  | |- maintains _ (raise _) => apply maintains_raise; apply _
  | |- maintains _ (lift _) => apply maintains_lift; apply _
  | |- maintains _ (gets _) => apply maintains_gets; apply _
  | |- maintains _ (modify _) => apply maintains_modify; intros []; done
  | |- maintains _ (try_except _ _) => apply maintains_try_except; [apply _| |intros]
  | |- maintains _ (try_finally _ _) => apply maintains_try_finally; [apply _| |]
  | |- maintains _ (for_ _ _) => apply maintains_for; [apply _|intros]
  | |- maintains _ (for_list _ _) => apply maintains_for_list; [apply _|intros]
  | |- maintains _ (fold_for _ _ _) => apply maintains_fold_for; [apply _|intros]
  | |- maintains _ (match ?x with _ => _ end) => destruct x
  | |- maintains _ (let _ := _ in _) => cbv zeta
  end.

Ltac frame := repeat frame_step.

Ltac head_of t := lazymatch t with ?f _ => head_of f | _ => t end.

Ltac unfold_head :=
  lazymatch goal with
  | |- maintains _ ?m => let h := head_of m in unfold h
  end.

(** The Source Client touches the requests sent and the log only. *)
Section source_frames.
Context (R : relation state) `{!PreOrder R}.
Context (R_requests : ∀ f st, R st (set_requests f st)).
Context (R_log : ∀ f st, R st (set_log f st)).

Lemma maintains_logger level msg : maintains R (logger level msg).
Proof. intros st. apply R_log. Qed.

Lemma maintains_make_request e self endpoint : maintains R (make_request e self endpoint).
Proof. intros st. rewrite make_request_run. apply R_requests. Qed.

Ltac source_frame :=
  repeat first
    [ apply maintains_logger | apply maintains_make_request | frame_step | unfold_head ].

Lemma maintains_init e : maintains R (init e).
Proof. source_frame. Qed.

Lemma maintains_get_active_courses e self : maintains R (get_active_courses e self).
Proof. source_frame. Qed.

Lemma maintains_get_course_assignments e self course_id :
  maintains R (get_course_assignments e self course_id).
Proof. source_frame. Qed.

Lemma maintains_get_course_announcements e self course_id days_back :
  maintains R (get_course_announcements e self course_id days_back).
Proof. source_frame. Qed.

Lemma maintains_get_course_front_page e self course_id :
  maintains R (get_course_front_page e self course_id).
Proof. source_frame. Qed.

Lemma maintains_get_course_quizzes e self course_id :
  maintains R (get_course_quizzes e self course_id).
Proof. source_frame. Qed.

Lemma maintains_get_course_modules e self course_id :
  maintains R (get_course_modules e self course_id).
Proof. source_frame. Qed.

Lemma maintains_annotate items course_context : maintains R (annotate items course_context).
Proof. source_frame. Qed.

Ltac source_leaf :=
  lazymatch goal with
  | |- maintains _ (logger_info _) => apply maintains_logger
  | |- maintains _ (init _) => apply maintains_init
  | |- maintains _ (get_active_courses _ _) => apply maintains_get_active_courses
  | |- maintains _ (get_course_assignments _ _ _) => apply maintains_get_course_assignments
  | |- maintains _ (get_course_announcements _ _ _ _) =>
      apply maintains_get_course_announcements
  | |- maintains _ (get_course_front_page _ _ _) => apply maintains_get_course_front_page
  | |- maintains _ (get_course_quizzes _ _ _) => apply maintains_get_course_quizzes
  | |- maintains _ (get_course_modules _ _ _) => apply maintains_get_course_modules
  | |- maintains _ (annotate _ _) => apply maintains_annotate
  end.

Lemma maintains_fetch_all e self : maintains R (fetch_all e self).
Proof. unfold fetch_all. repeat first [ source_leaf | frame_step ]. Qed.

Lemma maintains_source_phase e : maintains R (source_phase e).
Proof.
  unfold source_phase.
  repeat first [ apply maintains_fetch_all | source_leaf | frame_step ].
Qed.

End source_frames.

(** The persistence layer leaves the requests, the log and the report
    under construction alone. *)
Section storage_frames.
Context (R : relation state) `{!PreOrder R}.
Context (R_db : ∀ f st, R st (set_db f st)).
Context (R_db_calls : ∀ f st, R st (set_db_calls f st)).
Context (R_pool_in_use : ∀ f st, R st (set_pool_in_use f st)).
Context (R_stdout : ∀ f st, R st (set_stdout f st)).
Context (R_calls : ∀ f st, R st (set_calls f st)).

Lemma maintains_get_connection e : maintains R (get_connection e).
Proof.
  intros st. unfold get_connection.
  destruct (decide _); [apply R_db_calls|].
  destruct (pool_getconn _ _); simpl; [apply R_db_calls|].
  etrans; [apply (R_db_calls S)|apply R_pool_in_use].
Qed.

Lemma maintains_print line : maintains R (print line).
Proof. intros st. apply R_stdout. Qed.

Lemma maintains_execute e conn q params : maintains R (execute e conn q params).
Proof. unfold execute. frame. Qed.

Ltac storage_leaf :=
  lazymatch goal with
  | |- maintains _ (get_connection _) => apply maintains_get_connection
  | |- maintains _ (print _) => apply maintains_print
  | |- maintains _ (execute _ _ _ _) => apply maintains_execute
  | |- maintains _ (return_connection _) => intros st; apply R_pool_in_use
  | |- maintains _ (commit _) => intros st; apply R_db
  | |- maintains _ (modify (set_calls _)) => intros st; apply R_calls
  | |- maintains _ (item _ _) => apply maintains_lift; apply _
  | |- maintains _ (rollback _ _) => unfold rollback
  end.

Lemma maintains_persist e name arg error_prefix body :
  (∀ conn, maintains R (body conn)) →
  maintains R (persist e name arg error_prefix body).
Proof.
  intros Hbody. unfold persist.
  repeat first [ apply Hbody | storage_leaf | frame_step ].
Qed.

Ltac insert_frame :=
  apply maintains_persist; intros conn; repeat first [ storage_leaf | frame_step ].

Lemma maintains_insert_course e course_data : maintains R (insert_course e course_data).
Proof. insert_frame. Qed.

Lemma maintains_insert_assignment e assignment_data :
  maintains R (insert_assignment e assignment_data).
Proof. insert_frame. Qed.

Lemma maintains_insert_announcement e announcement_data :
  maintains R (insert_announcement e announcement_data).
Proof. insert_frame. Qed.

Lemma maintains_insert_front_page e front_page_data :
  maintains R (insert_front_page e front_page_data).
Proof. insert_frame. Qed.

Lemma maintains_insert_of b e data : maintains R (insert_of b e data).
Proof.
  destruct b; [apply maintains_insert_course|apply maintains_insert_assignment
              |apply maintains_insert_announcement|apply maintains_insert_front_page].
Qed.

End storage_frames.

(** ** How a persistence call can end *)

Lemma execute_run e conn q params st :
  (execute e conn q params st).2 = st.
Proof.
  unfold execute, gets, lift, raise, mbind, M_bind, bind, mret, M_ret, ret.
  destruct (bind_params _ _ _); [|done]. by destruct (db_execute _ _ _ _ _).
Qed.

Lemma execute_params e conn q params st pending st' k :
  execute e conn q params st = (Ok pending, st') →
  Param k ∈ (columns q).*2 → is_Some (lookup_key k params).
Proof.
  intros H Hk. apply execute_ok in H as (_ & excluded & H & _).
  revert excluded H. induction (columns q) as [|[c ex] cols IH]; intros excluded H.
  - by apply elem_of_nil in Hk.
  - simpl in H. rewrite fmap_cons in Hk. apply elem_of_cons in Hk as [Hk|Hk].
    + simpl in Hk. subst ex. destruct (lookup_key k params); [by eexists|done].
    + destruct ex.
      * destruct (lookup_key name params); [|done].
        destruct (bind_params cols params _) eqn:?; [by eapply IH|done].
      * destruct (bind_params cols params _) eqn:?; [by eapply IH|done].
Qed.

Ltac transaction_step :=
  match goal with
  | |- context [from_option Ok _ (lookup_key ?k ?d)] =>
      destruct (lookup_key k d); simpl; [|done]
  | |- context [execute ?e ?c ?q ?p ?st] =>
      let H := fresh "Hex" in
      pose proof (execute_run e c q p st) as H;
      destruct (execute e c q p st) as [[pending|ex] st1] eqn:?;
      simpl in H; subst st1; simpl; [|done]
  end.

(** ** Dictionaries *)

Lemma lookup_key_set k v d k' :
  lookup_key k' (set k v d) = if decide (k = k') then Some v else lookup_key k' d.
Proof.
  induction d as [|[k0 v0] d IH]; simpl.
  - done.
  - destruct (decide (k0 = k)) as [->|Hne]; simpl.
    + by destruct (decide (k = k')).
    + rewrite IH. destruct (decide (k0 = k')) as [->|]; [|done].
      by rewrite decide_False.
Qed.

Lemma set_set k v w d : set k w (set k v d) = set k w d.
Proof.
  induction d as [|[k0 v0] d IH]; simpl.
  - by rewrite decide_True.
  - destruct (decide (k0 = k)) as [->|Hne]; simpl.
    + by rewrite decide_True.
    + by rewrite decide_False, IH.
Qed.

Lemma set_same k v d : lookup_key k d = Some v → set k v d = d.
Proof.
  induction d as [|[k0 v0] d IH]; simpl; [done|].
  destruct (decide (k0 = k)) as [->|Hne]; [congruence|].
  intros H. by rewrite IH.
Qed.

(** ** The loops *)

Lemma increment_run k x st :
  lookup_key k (stats st) = Some (VInt x) →
  increment k st = (Ok tt, set_stats (set k (VInt (x + 1))) st).
Proof.
  intros H. unfold increment, item, getitem, lift, gets, modify,
    mbind, M_bind, bind, mret, M_ret, ret. simpl. by rewrite H.
Qed.

Lemma loop_body_run b e x d st :
  record_of b x = Some d →
  loop_body b e x st
  = (inserted ← insert_of b e d; if inserted : bool then increment (counter b) else ret tt) st.
Proof.
  destruct x as [ | | | | | |fs]; try (by destruct b).
  intros H.
  destruct b; simpl in *;
    unfold course_record, assignment_record, announcement_record, front_page_record in H;
    unfold sync_course, sync_assignment, sync_announcement, sync_front_page,
      getitem, get_method, lift;
    simpl in H;
    repeat match type of H with
           | context [lookup_key ?k fs ≫= _] =>
               destruct (lookup_key k fs); simpl in H; [|discriminate H]
           end;
    injection H as <-; reflexivity.
Qed.

Lemma succeeded_cons b a l :
  succeeded b (a :: l)
  = ((if decide (a.1.1 = b ∧ a.2 = true) then 1 else 0) + succeeded b l)%Z.
Proof.
  unfold succeeded. rewrite filter_cons.
  destruct (decide (a.1.1 = b ∧ a.2 = true)); simpl; lia.
Qed.

(** ** The run *)

Lemma sync_body_phases e st :
  sync_body e st = (data ← source_phase e; persist_phase e data) st.
Proof.
  unfold sync_body, source_phase, persist_phase, mbind, M_bind, bind. simpl.
  destruct (init e _) as [[agent|ex] st1]; [|done]. simpl.
  by destruct (fetch_all e agent _) as [[data|ex] st2].
Qed.

Lemma bind_returns_stats {A} (m : M A) (k : A → M dict) :
  (∀ a st d st', k a st = (Ok d, st') → d = stats st') →
  ∀ st d st', (m ≫= k) st = (Ok d, st') → d = stats st'.
Proof.
  intros Hk st d st'. unfold mbind, M_bind, bind.
  destruct (m st) as [[a|ex] st1]; [apply Hk|done].
Qed.

Lemma sync_body_returns_stats e st d st' :
  sync_body e st = (Ok d, st') → d = stats st'.
Proof.
  revert st d st'. unfold sync_body.
  repeat (apply bind_returns_stats; intros ?).
  intros st d st' [= <- <-]. done.
Qed.

Lemma append_error_run msg c a n f errors st :
  stats st = report c a n f errors →
  append_error msg st
  = (Ok tt, set_stats (λ _, report c a n f (errors ++ [VStr msg])) st).
Proof.
  intros H. unfold append_error, item, getitem, lift, gets, modify,
    mbind, M_bind, bind, mret, M_ret, ret. simpl. rewrite H. simpl.
  destruct st. simpl in *. by subst.
Qed.

Lemma maintains_increment b : maintains counts_kept (increment (counter b)).
Proof.
  intros st (c & a & n & f & Hs & Hc & Ha & Hn & Hf).
  destruct st as [rq d k p out lg s cs]. simpl in Hs. subst s.
  destruct b; simpl;
    [exists (c + 1)%Z, a, n, f|exists c, (a + 1)%Z, n, f
    |exists c, a, (n + 1)%Z, f|exists c, a, n, (f + 1)%Z];
    (split; [reflexivity|lia]).
Qed.

Ltac any_setter := intros ? []; first [reflexivity | intros H; exact H].

Lemma maintains_loop_body R `{!PreOrder R} b e x :
  (∀ f st, R st (set_db f st)) → (∀ f st, R st (set_db_calls f st)) →
  (∀ f st, R st (set_pool_in_use f st)) → (∀ f st, R st (set_stdout f st)) →
  (∀ f st, R st (set_calls f st)) →
  maintains R (increment (counter b)) →
  maintains R (loop_body b e x).
Proof.
  intros H1 H2 H3 H4 H5 Hinc.
  assert (∀ d, maintains R (insert_of b e d)) as Hins
    by (intros d; by apply maintains_insert_of).
  destruct b; simpl in *; unfold_head;
    repeat first [ apply Hins | apply Hinc | frame_step ].
Qed.

Lemma maintains_sync_body e : maintains counts_kept (sync_body e).
Proof.
  assert (∀ b x, maintains counts_kept (loop_body b e x)) as Hloop.
  { intros b x. apply maintains_loop_body; try apply _; try any_setter.
    apply maintains_increment. }
  unfold sync_body, persist_all.
  repeat first
    [ apply (Hloop Courses) | apply (Hloop Assignments) | apply (Hloop Announcements)
    | apply (Hloop FrontPages)
    | lazymatch goal with
      | |- maintains _ (logger_info _) => apply maintains_logger; any_setter
      | |- maintains _ (init _) => apply maintains_init; try apply _; any_setter
      | |- maintains _ (fetch_all _ _) => apply maintains_fetch_all; try apply _; any_setter
      | |- maintains _ (item _ _) => apply maintains_lift; apply _
      end
    | frame_step ].
Qed.

Lemma sync_canvas_to_database_run e st :
  ∃ (c a n f : Z) st',
    (0 ≤ c ∧ 0 ≤ a ∧ 0 ≤ n ∧ 0 ≤ f)%Z ∧
    match sync_body e (started st) with
    | (Ok d, st1) =>
        d = report c a n f [] ∧ stats st1 = d ∧
        sync_canvas_to_database e st = (Ok d, st1)
    | (Raise ex, st1) =>
        stats st1 = report c a n f [] ∧
        sync_canvas_to_database e st
        = (Ok (report c a n f [VStr (error_msg ex)]), st')
    end.
Proof.
  pose proof (maintains_sync_body e (started st)) as Hkept.
  pose proof (sync_body_returns_stats e (started st)) as Hret.
  unfold sync_canvas_to_database, try_except, modify, mbind, M_bind, bind.
  fold (started st).
  destruct (sync_body e (started st)) as [[d|ex] st1]; simpl in Hkept.
  - destruct Hkept as (c & a & n & f & Hs & Hc & Ha & Hn & Hf).
    { exists 0%Z, 0%Z, 0%Z, 0%Z. by destruct st. }
    specialize (Hret d st1 eq_refl). subst d.
    exists c, a, n, f, st1. by rewrite Hs.
  - destruct Hkept as (c & a & n & f & Hs & Hc & Ha & Hn & Hf).
    { exists 0%Z, 0%Z, 0%Z, 0%Z. by destruct st. }
    exists c, a, n, f. unfold error_msg.
    destruct ex; eexists; (split_and!; try done);
      unfold logger_error, logger_exception, logger, modify, gets,
        mbind, M_bind, bind;
      (erewrite append_error_run by (destruct st1; exact Hs));
      destruct st1; reflexivity.
Qed.

(** C10: [sync_canvas_to_database] returns from every state and in
    every environment, and what it returns is a report with exactly the
    keys [courses], [assignments], [announcements], [front_pages] and
    [errors]: four counts that are not negative and a list.  The list is
    empty when the body of the [try] returned; when it raised — while
    fetching or while persisting — the list holds the message of the
    exception caught. *)
Theorem sync_canvas_to_database_total e st :
  ∃ (c a n f : Z) errors st',
    sync_canvas_to_database e st = (Ok (report c a n f errors), st') ∧
    (0 ≤ c ∧ 0 ≤ a ∧ 0 ≤ n ∧ 0 ≤ f)%Z ∧
    match (sync_body e (started st)).1 with
    | Ok _ => errors = []
    | Raise ex => errors = [VStr (error_msg ex)]
    end.
Proof.
  destruct (sync_canvas_to_database_run e st) as (c & a & n & f & st' & Hpos & H).
  destruct (sync_body e (started st)) as [[d|ex] st1]; simpl.
  - destruct H as (-> & _ & H). by exists c, a, n, f, [], st1.
  - destruct H as (_ & H). by exists c, a, n, f, [VStr (error_msg ex)], st'.
Qed.

Local Open Scope Z_scope.

(** ** The three ways a persistence call can end *)

Lemma insert_of_persist b e data :
  ∃ body, insert_of b e data = persist e (insert_name b) data (error_prefix b) body ∧
          ∀ conn, transaction (body conn).
Proof.
  Opaque encode.
  destruct b; simpl; (eexists; split; [reflexivity|]); intros conn st0;
    unfold item, lift, commit, print, modify, gets, raise,
      mbind, M_bind, bind, mret, M_ret, ret; simpl.
  - transaction_step.
    assert (is_Some (lookup_key "course_name" data)) as [v Hv].
    { eapply execute_params; [eassumption|]. simpl. set_solver. }
    rewrite Hv. simpl. eauto.
  - repeat transaction_step. eauto.
  - repeat transaction_step. eauto.
  - repeat transaction_step. eauto.
  Transparent encode.
Qed.

Lemma persist_outcome e name arg prefix body st :
  (∀ conn, transaction (body conn)) →
  let r := persist e name arg prefix body st in
  pool_in_use r.2 = pool_in_use st ∧ db_calls r.2 = S (db_calls st) ∧
  match r.1 with
  | Ok true =>
      calls r.2 = calls st ++ [(name, arg, true)] ∧
      ∃ text, stdout r.2 = stdout st ++ [check_mark +:+ encode text]
  | Ok false =>
      calls r.2 = calls st ++ [(name, arg, false)] ∧ db r.2 = db st ∧
      ∃ msg, stdout r.2 = stdout st ++ [encode (prefix +:+ msg)]
  | Raise ex =>
      calls r.2 = calls st ∧ db r.2 = db st ∧ stdout r.2 = stdout st ∧
      ∃ err, db_rollback e (db_calls st) = Some err ∧ ex = DatabaseError err
  end.
Proof.
  intros Hbody.
  unfold persist, get_connection, try_except, try_finally, return_connection, rollback,
    print, modify, raise, mbind, M_bind, bind, mret, M_ret, ret.
  destruct st as [rq d n p out lg s cs]. simpl.
  destruct (decide (maxconn ≤ p)%nat); simpl; [by eauto 20|].
  destruct (pool_getconn e n); simpl; [by eauto 20|].
  specialize (Hbody n (State rq d (S n) (S p) out lg s cs)).
  destruct (body n _) as [[[]|ex] st2].
  - destruct Hbody as (d' & text & ->). simpl. eauto 20.
  - subst st2. destruct (db_rollback e n) as [err|]; simpl; eauto 20.
Qed.

Lemma insert_of_outcome b e data st :
  let r := insert_of b e data st in
  stats r.2 = stats st ∧
  match r.1 with
  | Ok ok =>
      calls r.2 = calls st ++ [call_of (b, data, ok)] ∧
      ∃ line, stdout r.2 = stdout st ++ [line] ∧ reported (b, data, ok) line
  | Raise ex =>
      calls r.2 = calls st ∧ stdout r.2 = stdout st ∧
      ∃ err, db_rollback e (db_calls st) = Some err ∧ ex = DatabaseError err
  end.
Proof.
  intros r. subst r. split.
  { assert (maintains (unchanged stats) (insert_of b e data)) as H
      by (apply maintains_insert_of; first [apply _|any_setter]).
    exact (H st). }
  destruct (insert_of_persist b e data) as (body & -> & Hbody).
  destruct (persist_outcome e (insert_name b) data (error_prefix b) body st Hbody)
    as (_ & _ & H).
  unfold reported, call_of. simpl.
  destruct (persist _ _ _ _ _ _).1 as [[]|ex].
  - destruct H as (? & text & ?). eauto.
  - destruct H as (? & _ & msg & ?). eauto.
  - destruct H as (? & _ & ? & ?). eauto.
Qed.

(** ** The loops *)

Lemma succeeded_foreign b (l : list attempt) :
  Forall (λ a : attempt, a.1.1 ≠ b) l → succeeded b l = 0.
Proof.
  induction 1 as [|a l Ha _ IH]; [done|].
  rewrite succeeded_cons, IH. rewrite decide_False; [done|]. by intros [? _].
Qed.

Lemma succeeded_app b l1 l2 :
  succeeded b (l1 ++ l2) = succeeded b l1 + succeeded b l2.
Proof. unfold succeeded. rewrite filter_app, length_app. lia. Qed.

Lemma bumped_nil s : bumped [] s s.
Proof. intros c a n f errors ->. unfold succeeded. simpl. by rewrite !Z.add_0_r. Qed.

Lemma bumped_app n1 n2 s s1 s2 :
  bumped n1 s s1 → bumped n2 s1 s2 → bumped (n1 ++ n2) s s2.
Proof.
  intros H1 H2 c a n f errors Hs.
  rewrite (H2 _ _ _ _ _ (H1 _ _ _ _ _ Hs)), !succeeded_app, !Z.add_assoc. done.
Qed.

Lemma bumped_failed b d s : bumped [(b, d, false)] s s.
Proof.
  intros c a n f errors ->. rewrite !succeeded_cons. simpl.
  rewrite !decide_False by (intros [_ [=]]).
  unfold succeeded. simpl. by rewrite !Z.add_0_r.
Qed.

Lemma increment_bumped b d st c a n f errors :
  stats st = report c a n f errors →
  ∃ st', increment (counter b) st = (Ok tt, st') ∧
         calls st' = calls st ∧ stdout st' = stdout st ∧
         bumped [(b, d, true)] (stats st) (stats st').
Proof.
  intros Hs. destruct st as [rq db k p out lg s cs]. simpl in Hs. subst s.
  destruct b; (eexists; split; [reflexivity|]); simpl; (split_and!; [done..|]);
    intros c' a' n' f' errors' [= <- <- <- <- <-];
    rewrite !succeeded_cons; unfold succeeded; simpl;
    repeat (case_decide; [|naive_solver]);
    repeat (rewrite decide_False by (intros [[=] _]));
    rewrite ?decide_True by done;
    unfold report; repeat f_equal; lia.
Qed.

Lemma persisted_skip e plan st st0 r st' :
  calls st0 = calls st → stdout st0 = stdout st → stats st0 = stats st →
  persisted e plan st0 r st' → persisted e plan st r st'.
Proof.
  intros Hc Ho Hs (new & lines & ? & ? & ? & ? & ?).
  exists new, lines. by rewrite <-Hc, <-Ho, <-Hs.
Qed.

Lemma persisted_seq e p1 p2 st st1 st2 r :
  persisted e p1 st (Ok tt) st1 → persisted e p2 st1 r st2 →
  persisted e (p1 ++ p2) st r st2.
Proof.
  intros (n1 & l1 & Hc1 & Ho1 & Hl1 & Hb1 & Hn1) (n2 & l2 & Hc2 & Ho2 & Hl2 & Hb2 & Hn2).
  exists (n1 ++ n2), (l1 ++ l2). split_and!.
  - by rewrite Hc2, Hc1, fmap_app, app_assoc.
  - by rewrite Ho2, Ho1, app_assoc.
  - by apply Forall2_app.
  - by eapply bumped_app.
  - destruct r as [u|ex].
    + by rewrite fmap_app, Hn1, Hn2.
    + destruct Hn2 as (rest & n & err & -> & ? & ? & ?).
      exists rest, n, err. by rewrite fmap_app, Hn1, app_assoc.
Qed.

Lemma persisted_abort e p1 p2 st st1 ex :
  persisted e p1 st (Raise ex) st1 → persisted e (p1 ++ p2) st (Raise ex) st1.
Proof.
  intros (n1 & l1 & Hc1 & Ho1 & Hl1 & Hb1 & rest & n & err & -> & Hrest & ? & ?).
  exists n1, l1. split_and!; [done..|].
  exists (rest ++ p2), n, err. split_and!; [by rewrite app_assoc| |done..].
  by destruct rest.
Qed.

Lemma bind_run {A B} (m : M A) (k : A → M B) st :
  (m ≫= k) st = match m st with
                | (Ok a, st') => k a st'
                | (Raise ex, st') => (Raise ex, st')
                end.
Proof. reflexivity. Qed.

Lemma for_cons_run {A} (x : A) xs body st :
  for_ (x :: xs) body st = match body x st with
                           | (Ok _, st') => for_ xs body st'
                           | (Raise ex, st') => (Raise ex, st')
                           end.
Proof. reflexivity. Qed.

Lemma loop_persisted b e items records st c a n f errors :
  Forall2 (λ x d, record_of b x = Some d) items records →
  stats st = report c a n f errors →
  persisted e (pair b <$> records) st
    (for_ items (loop_body b e) st).1 (for_ items (loop_body b e) st).2.
Proof.
  intros Hrec. revert st c a n f errors.
  induction Hrec as [|x d items records Hx _ IH]; intros st c a n f errors Hs.
  - exists [], []. simpl. rewrite !app_nil_r. split_and!; try done. apply bumped_nil.
  - rewrite for_cons_run, (loop_body_run _ _ _ _ _ Hx), bind_run.
    pose proof (insert_of_outcome b e d st) as [Hstats Hout]. simpl in Hstats, Hout.
    destruct (insert_of b e d st) as [[[]|ex] st1]; simpl in Hstats, Hout.
    + destruct Hout as (Hc & line & Ho & Hline).
      destruct (increment_bumped b d st1 c a n f errors) as (st2 & Hinc & Hc2 & Ho2 & Hb);
        [congruence|].
      rewrite Hinc.
      rewrite Hstats in Hb.
      change (persisted e ([(b, d)] ++ (pair b <$> records)) st
                (for_ items (loop_body b e) st2).1 (for_ items (loop_body b e) st2).2).
      eapply persisted_seq; [|eapply IH, Hb, Hs].
      exists [(b, d, true)], [line]. simpl. split_and!; [congruence|congruence| |done|done].
      by repeat constructor.
    + destruct Hout as (Hc & line & Ho & Hline).
      change (persisted e ([(b, d)] ++ (pair b <$> records)) st
                (for_ items (loop_body b e) st1).1 (for_ items (loop_body b e) st1).2).
      eapply persisted_seq; [|eapply IH; by rewrite Hstats].
      exists [(b, d, false)], [line]. simpl. split_and!; [done|done| | |done].
      * by repeat constructor.
      * rewrite Hstats. apply bumped_failed.
    + destruct Hout as (Hc & Ho & err & Hrb & ->).
      exists [], []. simpl. rewrite !app_nil_r. split_and!; [done|done|done| |].
      * rewrite Hstats. apply bumped_nil.
      * by exists ((b, d) :: (pair b <$> records)), (db_calls st), err.
Qed.

Lemma persisted_after e plan st r st' st'' :
  calls st'' = calls st' → stdout st'' = stdout st' → stats st'' = stats st' →
  persisted e plan st r st' → persisted e plan st r st''.
Proof.
  intros Hc Ho Hs (new & lines & ? & ? & ? & ? & ?).
  exists new, lines. by rewrite Hc, Ho, Hs.
Qed.

Lemma stage_seq e p1 p2 (m1 m2 : M unit) :
  (∀ st c a n f errors, stats st = report c a n f errors →
                        persisted e p1 st (m1 st).1 (m1 st).2) →
  (∀ st c a n f errors, stats st = report c a n f errors →
                        persisted e p2 st (m2 st).1 (m2 st).2) →
  ∀ st c a n f errors, stats st = report c a n f errors →
                       persisted e (p1 ++ p2) st ((m1;; m2) st).1 ((m1;; m2) st).2.
Proof.
  intros H1 H2 st c a n f errors Hs. rewrite bind_run.
  specialize (H1 st c a n f errors Hs).
  destruct (m1 st) as [[[]|ex] st1]; simpl in H1.
  - eapply persisted_seq; [exact H1|].
    destruct H1 as (new & _ & _ & _ & _ & Hb & _).
    eapply H2, Hb, Hs.
  - by apply persisted_abort.
Qed.

Lemma stage_log e msg st :
  persisted e [] st (logger_info msg st).1 (logger_info msg st).2.
Proof.
  exists [], []. destruct st. simpl. rewrite !app_nil_r.
  split_and!; try done. apply bumped_nil.
Qed.

Lemma planned_batch_Some b data plan :
  planned_batch b data = Some plan →
  ∃ records, Forall2 (λ x d, record_of b x = Some d) (items_of b data) records ∧
             plan = pair b <$> records.
Proof.
  unfold planned_batch. intros H.
  destruct (mapM (record_of b) (items_of b data)) as [records|] eqn:Hm; [|done].
  apply mapM_Some in Hm. injection H as <-. eauto.
Qed.

Lemma persist_all_persisted e data plan st c a n f errors :
  planned data = Some plan →
  stats st = report c a n f errors →
  persisted e plan st (persist_all e data st).1 (persist_all e data st).2.
Proof.
  intros Hplan. unfold planned in Hplan.
  destruct (planned_batch Courses data) as [p1|] eqn:H1; [|done].
  destruct (planned_batch Assignments data) as [p2|] eqn:H2; [|done].
  destruct (planned_batch Announcements data) as [p3|] eqn:H3; [|done].
  destruct (planned_batch FrontPages data) as [p4|] eqn:H4; [|done].
  injection Hplan as <-.
  apply planned_batch_Some in H1 as (r1 & H1 & ->).
  apply planned_batch_Some in H2 as (r2 & H2 & ->).
  apply planned_batch_Some in H3 as (r3 & H3 & ->).
  apply planned_batch_Some in H4 as (r4 & H4 & ->).
  revert st c a n f errors. unfold persist_all.
  apply (stage_seq e []); [intros; apply stage_log|].
  apply stage_seq; [intros; by eapply (loop_persisted Courses)|].
  apply (stage_seq e []); [intros; apply stage_log|].
  apply stage_seq; [intros; by eapply (loop_persisted Assignments)|].
  apply (stage_seq e []); [intros; apply stage_log|].
  apply stage_seq; [intros; by eapply (loop_persisted Announcements)|].
  apply (stage_seq e []); [intros; apply stage_log|].
  intros; by eapply (loop_persisted FrontPages).
Qed.

Lemma persist_phase_persisted e data plan st c a n f errors :
  planned data = Some plan →
  stats st = report c a n f errors →
  persisted e plan st (map_result (λ _, tt) (persist_phase e data st).1)
    (persist_phase e data st).2.
Proof.
  intros Hplan Hs.
  destruct (persist_phase e data st) as [r st'] eqn:E. simpl.
  unfold persist_phase in E.
  do 4 (rewrite bind_run in E; unfold logger_info at 1, logger at 1, modify at 1 in E).
  set (s0 := set_log _ (set_log _ (set_log _ (set_log _ st)))) in E.
  assert (stats s0 = report c a n f errors) as Hs0 by (subst s0; by destruct st).
  pose proof (persist_all_persisted e data plan s0 c a n f errors Hplan Hs0) as H.
  apply (persisted_skip e plan st s0); [by destruct st..|].
  rewrite bind_run in E.
  destruct (persist_all e data s0) as [[[]|ex] st2]; simpl in H.
  - destruct H as (new & lines & Hc & Ho & Hl & Hb & Hn).
    pose proof (Hb _ _ _ _ _ Hs0) as Hs2.
    rewrite bind_run in E. unfold logger_info at 1, logger at 1, modify at 1 in E.
    unfold item, getitem, lift, gets, mbind, M_bind, bind in E. simpl in E.
    rewrite Hs2 in E. simpl in E. unfold logger_info, logger, modify in E. simpl in E.
    injection E as <- <-. simpl.
    exists new, lines. destruct st2. simpl in *. by subst.
  - injection E as <- <-. exact H.
Qed.

(** ** The whole run *)

(** The handlers of [sync_canvas_to_database] touch the log and the
    report only. *)
Lemma sync_canvas_to_database_keeps {A} (f : state → A) e st :
  (∀ g s, f (set_log g s) = f s) → (∀ g s, f (set_stats g s) = f s) →
  f (sync_canvas_to_database e st).2 = f (sync_body e (started st)).2.
Proof.
  intros Hlog Hstats.
  unfold sync_canvas_to_database, try_except, modify, mbind, M_bind, bind.
  fold (started st).
  destruct (sync_body e (started st)) as [[d|ex] st1]; [done|]. simpl.
  assert (∀ msg s, f (append_error msg s).2 = f s) as Happend.
  { intros msg s. unfold append_error, item, getitem, lift, gets, modify, raise,
      mbind, M_bind, bind. simpl.
    destruct (lookup_key "errors" (stats s)) as [[]|]; simpl; by rewrite ?Hstats. }
  destruct ex; unfold logger_error, logger_exception, logger, modify, gets,
    mbind, M_bind, bind;
    match goal with
    | |- context [append_error ?msg ?s] =>
        specialize (Happend msg s); destruct (append_error msg s) as [[[]|ex'] s']
    end; simpl in *; by rewrite Happend, Hlog.
Qed.

Lemma run_persisted e st data st1 plan :
  source_phase e (started st) = (Ok data, st1) →
  planned data = Some plan →
  ∃ (new : list attempt) lines errors st',
    sync_canvas_to_database e st
    = (Ok (report (succeeded Courses new) (succeeded Assignments new)
             (succeeded Announcements new) (succeeded FrontPages new) errors), st') ∧
    calls st' = calls st ++ (call_of <$> new) ∧
    stdout st' = stdout st ++ lines ∧
    Forall2 reported new lines ∧
    ((new.*1 = plan ∧ errors = []) ∨
     (∃ rest n err,
        plan = new.*1 ++ rest ∧ rest ≠ [] ∧ db_rollback e n = Some err ∧
        errors = [VStr ("Unexpected error during sync: " +:+ err)])).
Proof.
  intros Hsrc Hplan.
  pose proof (maintains_source_phase (unchanged stats) ltac:(any_setter) ltac:(any_setter)
                e (started st)) as Hstats.
  pose proof (maintains_source_phase (unchanged calls) ltac:(any_setter) ltac:(any_setter)
                e (started st)) as Hcalls.
  pose proof (maintains_source_phase (unchanged stdout) ltac:(any_setter) ltac:(any_setter)
                e (started st)) as Hout.
  unfold unchanged in *. rewrite Hsrc in Hstats, Hcalls, Hout. simpl in *.
  pose proof (sync_canvas_to_database_keeps calls e st
                ltac:(by intros ? []) ltac:(by intros ? [])) as Kc.
  pose proof (sync_canvas_to_database_keeps stdout e st
                ltac:(by intros ? []) ltac:(by intros ? [])) as Ko.
  destruct (sync_canvas_to_database_run e st) as (c & a & n & f & st' & _ & Hrun).
  rewrite sync_body_phases, bind_run, Hsrc in Hrun, Kc, Ko.
  pose proof (persist_phase_persisted e data plan st1 0 0 0 0 [] Hplan) as Hp.
  destruct Hp as (new & lines & Hc & Ho & Hl & Hb & Hn); [by destruct st|].
  pose proof (Hb 0 0 0 0 []) as Hs2. rewrite !Z.add_0_l in Hs2.
  exists new, lines.
  destruct (persist_phase e data st1) as [[d|ex] st2]; simpl in *.
  - destruct Hrun as (-> & Hd & Hrun). rewrite Hs2 in Hd by (by destruct st).
    injection Hd as <- <- <- <-.
    exists [], st2. rewrite Hrun. simpl in Kc, Ko.
    split_and!; [done|congruence|congruence|done|by left].
  - destruct Hrun as (Hs & Hrun). rewrite Hs2 in Hs by (by destruct st).
    injection Hs as <- <- <- <-.
    destruct Hn as (rest & k & err & -> & Hrest & Hrb & ->).
    eexists _, st'. rewrite Hrun in Kc, Ko |- *. simpl in Kc, Ko.
    split_and!; [done|congruence|congruence|done|].
    right. by exists rest, k, err.
Qed.




Lemma main_run e st c a n f errors st1 :
  sync_canvas_to_database e (set_log (λ l, l ++ [("INFO", "Starting Canvas sync process")]) st)
  = (Ok (report c a n f errors), st1) →
  ∃ st', main e st = (Ok (if decide (errors = []) then 0 else 1), st') ∧
         calls st' = calls st1 ∧ stats st' = stats st1.
Proof.
  intros H. unfold main, logger_info, logger, modify, mbind, M_bind, bind. rewrite H.
  unfold item, lift. simpl.
  destruct errors; simpl; eexists; (split; [reflexivity|]); by destruct st1.
Qed.




Local Close Scope Z_scope.

(** * Further facts about the persistence layer *)

(** Every exit of an [insert_*] function gives back the connection it
    took: as many connections are checked out after the call as before,
    whether it returned [True], returned [False] or raised. *)
Theorem connection_returned b e data st :
  pool_in_use (insert_of b e data st).2 = pool_in_use st.
Proof.
  destruct (insert_of_persist b e data) as (body & -> & Hbody).
  by destruct (persist_outcome e (insert_name b) data (error_prefix b) body st Hbody)
    as (? & _).
Qed.


(** ** What a successful call did, for every table *)

Lemma insert_course_true e data st st' :
  insert_course e data st = (Ok true, st') →
  ∃ excluded,
    bind_params (columns courses_query) data (db_now e (db_calls st)) = Ok excluded ∧
    db_execute e (db_calls st) "courses" excluded (db st) = None ∧
    db st' = <["courses" := apply_upsert courses_query excluded
                              (db_now e (db_calls st))
                              (rows_of (db st) "courses")]> (db st) ∧
    db_calls st' = S (db_calls st).
Proof.
  intros H. apply persist_true in H as (_ & st2 & H & -> & ->).
  Opaque getitem execute.
  unfold_monad H.
  destruct (execute _ _ _ _ _) as [[pending|] s] eqn:Hex; [|discriminate H].
  apply execute_ok in Hex as (-> & excluded & Hb & Hv & ->).
  destruct (getitem (VDict data) "course_name"); [|discriminate H].
  injection H as <-. by exists excluded.
  Transparent getitem execute.
Qed.

Lemma insert_of_true b e data st st' :
  insert_of b e data st = (Ok true, st') →
  ∃ params excluded,
    params_of b data = Ok params ∧
    bind_params (columns (query_of b)) params (db_now e (db_calls st)) = Ok excluded ∧
    db_execute e (db_calls st) (table (query_of b)) excluded (db st) = None ∧
    db st' = <[table (query_of b) :=
                 apply_upsert (query_of b) excluded (db_now e (db_calls st))
                   (rows_of (db st) (table (query_of b)))]> (db st) ∧
    db_calls st' = S (db_calls st).
Proof.
  destruct b; simpl; intros H.
  - apply insert_course_true in H as (excluded & ?). by exists data, excluded.
  - by apply insert_assignment_true.
  - by apply insert_announcement_true.
  - by apply insert_front_page_true.
Qed.

Lemma bind_params_present cols params now excluded k :
  bind_params cols params now = Ok excluded →
  Param k ∈ cols.*2 → is_Some (lookup_key k params).
Proof.
  revert excluded. induction cols as [|[c ex] cols IH]; intros excluded H Hk.
  - by apply elem_of_nil in Hk.
  - simpl in H. rewrite fmap_cons in Hk. apply elem_of_cons in Hk as [Hk|Hk].
    + simpl in Hk. subst ex. destruct (lookup_key k params); [by eexists|done].
    + destruct ex.
      * destruct (lookup_key name params); [|done].
        destruct (bind_params cols params _) eqn:?; [by eapply IH|done].
      * destruct (bind_params cols params _) eqn:?; [by eapply IH|done].
Qed.

Lemma required_present b data params excluded now k :
  params_of b data = Ok params →
  bind_params (columns (query_of b)) params now = Ok excluded →
  k ∈ required b → is_Some (lookup_key k data).
Proof.
  intros Hp Hb Hk. destruct b; cbn [params_of required] in *.
  - injection Hp as <-. eapply bind_params_present; [exact Hb|].
    repeat (apply elem_of_cons in Hk as [->|Hk]; [simpl; set_solver|]).
    by apply elem_of_nil in Hk.
  - unfold assignment_query_data, getitem in Hp.
    repeat match type of Hp with
           | context [lookup_key ?f data] => destruct (lookup_key f data) eqn:?; [|done]
           end.
    repeat (apply elem_of_cons in Hk as [->|Hk]; [by eexists|]).
    by apply elem_of_nil in Hk.
  - unfold announcement_query_data, getitem in Hp.
    repeat match type of Hp with
           | context [lookup_key ?f data] => destruct (lookup_key f data) eqn:?; [|done]
           end.
    repeat (apply elem_of_cons in Hk as [->|Hk]; [by eexists|]).
    by apply elem_of_nil in Hk.
  - unfold front_page_query_data, getitem in Hp.
    repeat match type of Hp with
           | context [lookup_key ?f data] => destruct (lookup_key f data) eqn:?; [|done]
           end.
    repeat (apply elem_of_cons in Hk as [->|Hk]; [by eexists|]).
    by apply elem_of_nil in Hk.
Qed.

(** A record that lacks a key the function needs is not stored: when the
    rollback goes through, the call returns [False], leaves the database
    as it was and prints one line, the error message. *)
Theorem missing_key_rejected b e data st k :
  (∀ n, db_rollback e n = None) →
  k ∈ required b → lookup_key k data = None →
  ∃ msg,
    (insert_of b e data st).1 = Ok false ∧
    db (insert_of b e data st).2 = db st ∧
    stdout (insert_of b e data st).2 = stdout st ++ [encode (error_prefix b +:+ msg)].
Proof.
  intros Hrb Hk Hnone.
  destruct (insert_of b e data st) as [r st'] eqn:Hrun.
  pose proof Hrun as Hrun'.
  destruct (insert_of_persist b e data) as (body & Heq & Hbody). rewrite Heq in Hrun.
  pose proof (persist_outcome e (insert_name b) data (error_prefix b) body st Hbody) as H.
  rewrite Hrun in H. simpl in H. destruct H as (_ & _ & H).
  destruct r as [[]|ex].
  - apply insert_of_true in Hrun' as (params & excluded & Hp & Hb & _).
    destruct (required_present b data params excluded _ k Hp Hb Hk) as [v Hv].
    congruence.
  - destruct H as (_ & Hdb & msg & Hout). by exists msg.
  - destruct H as (_ & _ & _ & err & Herr & _). by rewrite Hrb in Herr.
Qed.

Lemma missing_key_rejected_witness :
  ∃ msg,
    (insert_assignment Demo.accepting [("assignment_id", VInt 1)] (initial ∅)).1 = Ok false ∧
    db (insert_assignment Demo.accepting [("assignment_id", VInt 1)] (initial ∅)).2 = ∅ ∧
    stdout (insert_assignment Demo.accepting [("assignment_id", VInt 1)] (initial ∅)).2
    = [] ++ [encode ("Error inserting assignment: " +:+ msg)].
Proof.
  apply (missing_key_rejected Assignments Demo.accepting [("assignment_id", VInt 1)]
           (initial ∅) "name").
  - reflexivity.
  - vm_compute. set_solver.
  - reflexivity.
Defined.

(** ** The rows a successful call leaves *)

Section more_upsert_facts.
Variable q : upsert.
Hypothesis key_kept : conflict q ∉ (on_conflict q).*1.

Lemma count_rows_apply_upsert_other excluded now rows key :
  key ≠ excluded !! conflict q →
  count_rows (conflict q) key (apply_upsert q excluded now rows)
  = count_rows (conflict q) key rows.
Proof.
  intros Hne. induction rows as [|r rows IH]; simpl.
  - by rewrite decide_False.
  - destruct (decide (r !! conflict q = excluded !! conflict q)) as [Heq|Hne']; simpl.
    + rewrite do_update_other by done. done.
    + by rewrite IH.
Qed.

Lemma others_apply_upsert excluded now rows :
  others (conflict q) (excluded !! conflict q) (apply_upsert q excluded now rows)
  = others (conflict q) (excluded !! conflict q) rows.
Proof.
  unfold others. induction rows as [|r rows IH]; simpl.
  - by rewrite filter_cons_False by (intros H; by apply H).
  - destruct (decide (r !! conflict q = excluded !! conflict q)) as [Heq|Hne].
    + rewrite !filter_cons_False; [done|by intros H; apply H|].
      intros H. apply H. by rewrite do_update_other.
    + rewrite !filter_cons_True by done. by rewrite IH.
Qed.

Lemma length_apply_upsert excluded now rows :
  length (apply_upsert q excluded now rows)
  = (length rows +
     match find_row (conflict q) (excluded !! conflict q) rows with
     | Some _ => 0
     | None => 1
     end)%nat.
Proof.
  induction rows as [|r rows IH]; simpl; [done|].
  destruct (decide (r !! conflict q = excluded !! conflict q)); simpl; [lia|].
  rewrite IH. lia.
Qed.

End more_upsert_facts.

Lemma key_kept_of b : conflict (query_of b) ∉ (on_conflict (query_of b)).*1.
Proof. destruct b; vm_compute; set_solver. Qed.

Lemma sets_NoDup_of b : NoDup (on_conflict (query_of b)).*1.
Proof. destruct b; vm_compute; repeat constructor; set_solver. Qed.

Lemma excluded_identity b data params excluded now :
  params_of b data = Ok params →
  bind_params (columns (query_of b)) params now = Ok excluded →
  ∃ id, lookup_key (identity_key b) data = Some id ∧
        excluded !! conflict (query_of b) = Some (Val id).
Proof.
  intros Hp Hb.
  destruct (required_present b data params excluded now (identity_key b) Hp Hb)
    as [id Hid]; [destruct b; simpl; set_solver|].
  exists id. split; [done|].
  rewrite (bind_params_lookup _ _ _ _ _ Hb).
  destruct b; cbn [params_of] in Hp.
  - injection Hp as <-. simpl. simpl in Hid. by rewrite Hid.
  - unfold assignment_query_data, getitem in Hp. simpl in Hid. rewrite Hid in Hp.
    repeat match type of Hp with
           | context [lookup_key ?f data] => destruct (lookup_key f data) eqn:?; [|done]
           end.
    by injection Hp as <-.
  - unfold announcement_query_data, getitem in Hp. simpl in Hid. rewrite Hid in Hp.
    repeat match type of Hp with
           | context [lookup_key ?f data] => destruct (lookup_key f data) eqn:?; [|done]
           end.
    by injection Hp as <-.
  - unfold front_page_query_data, getitem in Hp. simpl in Hid. rewrite Hid in Hp.
    repeat match type of Hp with
           | context [lookup_key ?f data] => destruct (lookup_key f data) eqn:?; [|done]
           end.
    by injection Hp as <-.
Qed.

(** A successful upsert writes to the table of its entity only, and in
    that table to the row of the record's identity only: the other
    tables are as before, and so are, in order, the rows of every other
    identity.  The table grows by one row when the identity is new and
    keeps its length when it is not. *)
Theorem upsert_leaves_other_rows b e data st st' :
  insert_of b e data st = (Ok true, st') →
  let t := table (query_of b) in
  let col := conflict (query_of b) in
  ∃ id, lookup_key (identity_key b) data = Some id ∧
    (∀ t', t' ≠ t → db st' !! t' = db st !! t') ∧
    others col (Some (Val id)) (rows_of (db st') t)
    = others col (Some (Val id)) (rows_of (db st) t) ∧
    length (rows_of (db st') t)
    = (length (rows_of (db st) t) +
       match find_row col (Some (Val id)) (rows_of (db st) t) with
       | Some _ => 0
       | None => 1
       end)%nat.
Proof.
  intros H t col.
  apply insert_of_true in H as (params & excluded & Hp & Hb & _ & Hdb & _).
  destruct (excluded_identity b data params excluded _ Hp Hb) as (id & Hid & Hex).
  exists id. split; [done|]. rewrite Hdb. split_and!.
  - intros t' Hne. by rewrite lookup_insert_ne.
  - rewrite rows_of_insert. subst col. rewrite <-Hex.
    apply others_apply_upsert, key_kept_of.
  - rewrite rows_of_insert. subst col. rewrite <-Hex. apply length_apply_upsert.
Qed.

Lemma upsert_leaves_other_rows_witness :
  ∃ st',
    insert_course Demo.accepting DemoMore.algebra_record (initial DemoMore.one_course)
    = (Ok true, st') ∧
    others "course_id" (Some (Val (VInt 7))) (rows_of (db st') "courses")
    = [DemoMore.geometry_row] ∧
    length (rows_of (db st') "courses") = 2%nat.
Proof.
  pose (r := insert_course Demo.accepting DemoMore.algebra_record
               (initial DemoMore.one_course)).
  assert (r = (Ok true, r.2)) as H by (vm_compute; reflexivity).
  destruct (upsert_leaves_other_rows Courses _ _ _ _ H) as (id & Hid & _ & Ho & Hl).
  injection Hid as <-.
  exists r.2. split; [exact H|].
  split; [etrans; [exact Ho|]|etrans; [exact Hl|]]; vm_compute; reflexivity.
Defined.

(** A successful upsert keeps the identities of a table distinct: if no
    two rows carried the same key before, none do after. *)
Theorem upsert_keeps_keys_unique b e data st st' :
  insert_of b e data st = (Ok true, st') →
  unique_key (conflict (query_of b)) (rows_of (db st) (table (query_of b))) →
  unique_key (conflict (query_of b)) (rows_of (db st') (table (query_of b))).
Proof.
  intros H Huniq key.
  apply insert_of_true in H as (params & excluded & Hp & Hb & _ & Hdb & _).
  rewrite Hdb, rows_of_insert.
  destruct (decide (key = excluded !! conflict (query_of b))) as [->|Hne].
  - rewrite count_rows_apply_upsert by apply key_kept_of.
    specialize (Huniq (excluded !! conflict (query_of b))). lia.
  - rewrite count_rows_apply_upsert_other by (apply key_kept_of || done). apply Huniq.
Qed.

Lemma upsert_keeps_keys_unique_witness :
  ∃ st',
    insert_course Demo.accepting DemoMore.geometry_record (initial DemoMore.one_course)
    = (Ok true, st') ∧
    unique_key "course_id" (rows_of (db st') "courses").
Proof.
  pose (r := insert_course Demo.accepting DemoMore.geometry_record
               (initial DemoMore.one_course)).
  assert (r = (Ok true, r.2)) as H by (vm_compute; reflexivity).
  exists r.2. split; [exact H|].
  apply (upsert_keeps_keys_unique Courses _ _ _ _ H).
  intros key. simpl. unfold rows_of, DemoMore.one_course. rewrite lookup_singleton_eq.
  simpl. destruct (decide _); lia.
Defined.

(** A successful [insert_course] leaves the row of the course with the
    code and the name of the input and the time of the call, whether the
    course was stored before or not: a course is refreshed in full. *)
Theorem insert_course_refreshes e data st st' :
  insert_course e data st = (Ok true, st') →
  ∃ id code name stored,
    lookup_key "course_id" data = Some id ∧
    lookup_key "course_code" data = Some code ∧
    lookup_key "course_name" data = Some name ∧
    find_row "course_id" (Some (Val id)) (rows_of (db st') "courses") = Some stored ∧
    stored !! "course_id" = Some (Val id) ∧
    stored !! "course_code" = Some (Val code) ∧
    stored !! "course_name" = Some (Val name) ∧
    stored !! "last_synced_at" = Some (Time (db_now e (db_calls st))).
Proof.
  intros H. apply insert_course_true in H as (excluded & Hb & _ & Hdb & _).
  destruct (bind_params_present _ _ _ _ "course_id" Hb) as [id Hid]; [simpl; set_solver|].
  destruct (bind_params_present _ _ _ _ "course_code" Hb) as [code Hcode];
    [simpl; set_solver|].
  destruct (bind_params_present _ _ _ _ "course_name" Hb) as [name Hname];
    [simpl; set_solver|].
  pose proof (bind_params_lookup _ _ _ _ "course_id" Hb) as E1.
  pose proof (bind_params_lookup _ _ _ _ "course_code" Hb) as E2.
  pose proof (bind_params_lookup _ _ _ _ "course_name" Hb) as E3.
  pose proof (bind_params_lookup _ _ _ _ "last_synced_at" Hb) as E4.
  simpl in E1, E2, E3, E4. rewrite Hid in E1. rewrite Hcode in E2. rewrite Hname in E3.
  simpl in E1, E2, E3.
  pose proof (find_row_apply_upsert courses_query (key_kept_of Courses) excluded
                (db_now e (db_calls st)) (rows_of (db st) "courses")) as Hf.
  change (conflict courses_query) with "course_id" in Hf. rewrite E1 in Hf.
  exists id, code, name. eexists. split_and!; [done..| | | | |].
  - rewrite Hdb, rows_of_insert. exact Hf.
  - destruct (find_row "course_id" (Some (Val id)) (rows_of (db st) "courses"))
      as [old|] eqn:Hold; [|done].
    rewrite do_update_other by apply (key_kept_of Courses).
    clear -Hold. induction (rows_of (db st) "courses") as [|r rows IH]; [done|].
    simpl in Hold. destruct (decide _); [congruence|by apply IH].
  - destruct (find_row "course_id" (Some (Val id)) (rows_of (db st) "courses"))
      as [old|]; [|done].
    by rewrite do_update_lookup by apply (sets_NoDup_of Courses).
  - destruct (find_row "course_id" (Some (Val id)) (rows_of (db st) "courses"))
      as [old|]; [|done].
    by rewrite do_update_lookup by apply (sets_NoDup_of Courses).
  - destruct (find_row "course_id" (Some (Val id)) (rows_of (db st) "courses"))
      as [old|]; [|done].
    by rewrite do_update_lookup by apply (sets_NoDup_of Courses).
Qed.

Lemma insert_course_refreshes_witness :
  ∃ st' stored,
    insert_course Demo.accepting DemoMore.geometry_record (initial DemoMore.one_course)
    = (Ok true, st') ∧
    find_row "course_id" (Some (Val (VInt 8))) (rows_of (db st') "courses") = Some stored ∧
    stored !! "course_name" = Some (Val (VStr "Geometry and Topology")).
Proof.
  pose (r := insert_course Demo.accepting DemoMore.geometry_record
               (initial DemoMore.one_course)).
  assert (r = (Ok true, r.2)) as H by (vm_compute; reflexivity).
  destruct (insert_course_refreshes _ _ _ _ H)
    as (id & code & name & stored & Hid & _ & Hname & Hf & _ & _ & Hs & _).
  injection Hid as <-. injection Hname as <-.
  exists r.2, stored. split_and!; [exact H|exact Hf|exact Hs].
Defined.

(** ** What the two halves of a run touch *)

(** The Source Client reads: creating the agent and fetching all data
    leave the database, the connection pool, the standard output, the
    persistence calls made and the report as they were; they add
    requests and log lines only. *)
Theorem source_client_reads_only e self st :
  let created := (init e st).2 in
  let fetched := (fetch_all e self st).2 in
  (db created = db st ∧ pool_in_use created = pool_in_use st ∧
   stdout created = stdout st ∧ calls created = calls st ∧ stats created = stats st) ∧
  (db fetched = db st ∧ pool_in_use fetched = pool_in_use st ∧
   stdout fetched = stdout st ∧ calls fetched = calls st ∧ stats fetched = stats st).
Proof.
  intros created fetched. subst created fetched.
  assert (∀ {A} (f : state → A),
            (∀ g s, f (set_requests g s) = f s) → (∀ g s, f (set_log g s) = f s) →
            f (init e st).2 = f st ∧ f (fetch_all e self st).2 = f st) as H.
  { intros A f H1 H2.
    split; [apply (maintains_init (unchanged f))|apply (maintains_fetch_all (unchanged f))];
      intros ??; first [apply H1|apply H2]. }
  destruct (H _ db) as [? ?]; [by intros ? []..|].
  destruct (H _ pool_in_use) as [? ?]; [by intros ? []..|].
  destruct (H _ stdout) as [? ?]; [by intros ? []..|].
  destruct (H _ calls) as [? ?]; [by intros ? []..|].
  destruct (H _ stats) as [? ?]; [by intros ? []..|].
  done.
Qed.

Lemma maintains_pool_loop_body b e x : maintains (unchanged pool_in_use) (loop_body b e x).
Proof.
  assert (∀ d, maintains (unchanged pool_in_use) (insert_of b e d)) as Hins.
  { intros d st'. destruct (insert_of_persist b e d) as (body & -> & Hbody).
    by destruct (persist_outcome e (insert_name b) d (error_prefix b) body st' Hbody)
      as (? & _). }
  destruct b; simpl in *; unfold_head;
    repeat first [ apply Hins | frame_step | unfold_head ].
Qed.

(** A run gives back every connection it takes: as many connections
    are checked out after [sync_canvas_to_database], and after [main],
    as before, whatever was fetched and however the persistence calls
    ended. *)
Theorem run_returns_connections e st :
  pool_in_use (sync_canvas_to_database e st).2 = pool_in_use st ∧
  pool_in_use (main e st).2 = pool_in_use st.
Proof.
  assert (maintains (unchanged pool_in_use) (sync_body e)) as Hbody.
  { unfold sync_body, persist_all.
    repeat first
      [ lazymatch goal with
        | |- maintains _ (sync_course _ _) => apply (maintains_pool_loop_body Courses)
        | |- maintains _ (sync_assignment _ _) =>
            apply (maintains_pool_loop_body Assignments)
        | |- maintains _ (sync_announcement _ _) =>
            apply (maintains_pool_loop_body Announcements)
        | |- maintains _ (sync_front_page _ _) =>
            apply (maintains_pool_loop_body FrontPages)
        | |- maintains _ (logger_info _) => apply maintains_logger; any_setter
        | |- maintains _ (init _) => apply maintains_init; try apply _; any_setter
        | |- maintains _ (fetch_all _ _) => apply maintains_fetch_all; try apply _; any_setter
        | |- maintains _ (item _ _) => apply maintains_lift; apply _
        end
      | frame_step ]. }
  assert (∀ s, pool_in_use (sync_canvas_to_database e s).2 = pool_in_use s) as Hrun.
  { intros s. rewrite (sync_canvas_to_database_keeps pool_in_use) by (by intros ? []).
    rewrite (Hbody (started s)). by destruct s. }
  split; [apply Hrun|].
  unfold main, logger_info, logger_error, logger, item, lift, modify,
    mbind, M_bind, bind, mret, M_ret, ret.
  specialize (Hrun (set_log (λ l, l ++ [("INFO", "Starting Canvas sync process")]) st)).
  destruct (sync_canvas_to_database e _) as [[d|ex] st1]; simpl in *; [|by destruct st].
  transitivity (pool_in_use st1); [|by rewrite Hrun; destruct st].
  destruct (lookup_key "errors" d) as [errors|]; simpl; [|done].
  destruct (truthy errors); simpl; [|by destruct st1].
  destruct (iterate errors); simpl; by destruct st1.
Qed.

(** ** The Source Client *)

(** [_make_request] sends one GET, to the address made of the base
    address and the endpoint, and changes nothing else; whatever goes
    wrong, in the network, in the status or in the body, it raises
    [CanvasAPIError]. *)
Theorem make_request_one_get e self endpoint st :
  let r := make_request e self endpoint st in
  r.2 = set_requests (λ l, l ++ [base_url self +:+ endpoint]) st ∧
  match r.1 with
  | Ok body => request_result (answer e (base_url self +:+ endpoint) st) = Ok body
  | Raise ex => ∃ msg, ex = CanvasAPIError msg
  end.
Proof.
  intros r. subst r. rewrite make_request_run. simpl. split; [done|].
  unfold request_result.
  destruct (answer e _ st) as [err|resp]; [by eexists|].
  destruct (_ && _); [by eexists|].
  destruct (content resp); [done|by eexists].
Qed.

Lemma courses_built items st courses st' :
  for_list items (λ course,
    id ← lift (getitem course "id");
    name ← lift (get_method course "name" (VStr "Unnamed Course"));
    course_code ← lift (get_method course "course_code" (VStr "N/A"));
    ret (VDict [("id", id); ("name", name); ("course_code", course_code)])) st
  = (Ok courses, st') →
  st' = st ∧ Forall2 course_of items courses.
Proof.
  revert courses. induction items as [|item items IH]; intros courses H.
  - injection H as <- <-. by split.
  - cbn [for_list] in H.
    unfold lift, mbind, M_bind, bind, mret, M_ret, ret in H, IH.
    destruct item as [ | | | | | |d]; try discriminate H.
    cbn [getitem get_method] in H.
    destruct (lookup_key "id" d) as [id|] eqn:Hid; [|discriminate H]. simpl in H.
    match type of H with
    | context [for_list items ?f st] =>
        destruct (for_list items f st) as [[ys|ex] s] eqn:Hrest; [|discriminate H]
    end.
    injection H as <- <-.
    destruct (IH ys eq_refl) as [-> HF]. split; [done|].
    constructor; [|done]. by exists d, id.
Qed.

(** When [get_active_courses] returns, it has sent one request, for the
    favorite courses; the answer was a list of dictionaries that each
    have an [id], and the courses returned are these, in order, cut
    down to [id], [name] and [course_code], with [Unnamed Course] and
    [N/A] where the answer has no name or code. *)
Theorem get_active_courses_shape e self st courses st' :
  get_active_courses e self st = (Ok courses, st') →
  st' = sent (courses_url self) st ∧
  ∃ body items,
    request_result (answer e (courses_url self) st) = Ok body ∧
    iterate body = Ok items ∧
    Forall2 course_of items courses.
Proof.
  unfold get_active_courses. cbv zeta.
  unfold mbind at 1, M_bind at 1, bind at 1. rewrite make_request_run.
  fold (courses_url self).
  destruct (request_result _) as [body|ex]; [|done].
  unfold mbind at 1, M_bind at 1, bind at 1, lift at 1.
  destruct (iterate body) as [items|ex] eqn:Hitems; [|done].
  intros H. apply courses_built in H as [-> HF].
  split; [done|]. by exists body, items.
Qed.

Lemma get_active_courses_shape_witness :
  ∃ st',
    get_active_courses DemoMore.unnamed DemoAgent.self (initial ∅)
    = (Ok [VDict [("id", VInt 9); ("name", VStr "Unnamed Course");
                  ("course_code", VStr "N/A")]], st') ∧
    requests st' = ["https://canvas.test/api/v1/users/self/favorites/courses"] ∧
    Forall2 course_of [VDict [("id", VInt 9)]]
      [VDict [("id", VInt 9); ("name", VStr "Unnamed Course"); ("course_code", VStr "N/A")]].
Proof.
  pose (r := get_active_courses DemoMore.unnamed DemoAgent.self (initial ∅)).
  assert (r = (Ok [VDict [("id", VInt 9); ("name", VStr "Unnamed Course");
                          ("course_code", VStr "N/A")]], r.2)) as H
    by (vm_compute; reflexivity).
  destruct (get_active_courses_shape _ _ _ _ _ H)
    as (Hst & body & items & Hbody & Hitems & HF).
  vm_compute in Hbody. injection Hbody as <-.
  vm_compute in Hitems. injection Hitems as <-.
  exists r.2. split_and!; [exact H| |exact HF].
  rewrite Hst. reflexivity.
Defined.
